(** * Playlist converter (Spotify <-> Deezer): a shallow embedding of [app.py]

    The development follows the source file top-down:
    - Python strings and the three library operations the matcher relies on
      ([re.sub(r'[^\w\s]', '', s)], [str.lower], [a in b]);
    - the two platforms as records of request oracles, with the failure
      modes the code distinguishes (an exception, a status code, a body);
    - [DeezerOAuth.exchange_code_for_token] and [test_connection];
    - the methods of [PlaylistConverter]: paginated listings, track search,
      playlist creation and the two conversion loops.
    Theorems come after all the definitions. *)

From Stdlib Require Import List ZArith NArith Lia Bool String Ascii Arith.
From Stdlib Require Import DecimalString.
From Stdlib Require DecimalPos DecimalZ.
Import ListNotations.

Set Implicit Arguments.

(** ** Python strings *)

(** A Python [str] is a sequence of Unicode code points. *)
Definition char := N.
Definition str := list char.

(** String literals of the source, written as Rocq strings. *)
Definition py (s : string) : str :=
  map N_of_ascii (list_ascii_of_string s).

(** The Unicode character database that CPython consults: [str.isalnum] and
    [str.isspace] on one code point, and [str.lower] on a whole string (it is
    not character-wise: it may change the length and looks at context).  The
    repository does not contain these tables, so the embedding is parametric
    in them; [ascii_data] below is the instance used to run examples. *)
Record CharData : Type := {
  isalnum : char -> bool;
  isspace : char -> bool;
  lower : str -> str
}.

Definition ascii_isalnum (c : char) : bool :=
  ((48 <=? c) && (c <=? 57) || (65 <=? c) && (c <=? 90)
   || (97 <=? c) && (c <=? 122))%N.

Definition ascii_isspace (c : char) : bool :=
  ((9 <=? c) && (c <=? 13) || (28 <=? c) && (c <=? 32))%N.

Definition ascii_lower_char (c : char) : char :=
  (if (65 <=? c) && (c <=? 90) then c + 32 else c)%N.

Definition ascii_data : CharData := {|
  isalnum := ascii_isalnum;
  isspace := ascii_isspace;
  lower := map ascii_lower_char
|}.

Fixpoint str_eqb (a b : str) : bool :=
  match a, b with
  | [], [] => true
  | x :: a', y :: b' => (x =? y)%N && str_eqb a' b'
  | _, _ => false
  end.

(** [s.startswith(p)] *)
Fixpoint startswith (p s : str) : bool :=
  match p, s with
  | [], _ => true
  | _ :: _, [] => false
  | x :: p', y :: s' => (x =? y)%N && startswith p' s'
  end.

(** [needle in hay] on strings: substring test. *)
Fixpoint str_in (needle hay : str) : bool :=
  startswith needle hay
  || match hay with
     | [] => false
     | _ :: hay' => str_in needle hay'
     end.

(** Truthiness of a string: the empty string is falsy. *)
Definition truthy (s : str) : bool :=
  match s with [] => false | _ :: _ => true end.

(** Truthiness of [d.get(k)] where the value, when present, is a string. *)
Definition truthy_opt (o : option str) : bool :=
  match o with Some s => truthy s | None => false end.

(** [str(n)] for an int. *)
Definition str_of_Z (z : Z) : str :=
  py (NilZero.string_of_int (Z.to_int z)).

(** [sep.join(parts)] *)
Fixpoint join (sep : str) (parts : list str) : str :=
  match parts with
  | [] => []
  | [p] => p
  | p :: rest => p ++ sep ++ join sep rest
  end.

Section Strings.

Variable U : CharData.

(** [\w] of a [str] pattern: alphanumeric or underscore. *)
Definition is_word (c : char) : bool := isalnum U c || (c =? 95)%N.

(** The class [[^\w\s]] keeps nothing; [kept] is its complement. *)
Definition kept (c : char) : bool := is_word c || isspace U c.

(** [re.sub(r'[^\w\s]', '', s)] *)
Definition clean (s : str) : str := filter kept s.

Fixpoint lstrip (s : str) : str :=
  match s with
  | [] => []
  | c :: s' => if isspace U c then lstrip s' else s
  end.

Definition rstrip (s : str) : str := rev (lstrip (rev s)).

(** [s.strip()] *)
Definition strip (s : str) : str := rstrip (lstrip s).

(** The bidirectional containment of the matcher,
    [a in b or b in a]. *)
Definition either_in (a b : str) : bool := str_in a b || str_in b a.

End Strings.

(** ** Requests and responses *)

(** What [requests.get] / [requests.post] does: it raises, or it returns a
    response with a status code and a body.  For the JSON end points the body
    is an [option]: [None] when [response.json()] raises. *)
Inductive http (A : Type) : Type :=
| Raised
| Response (status : Z) (body : A).
Arguments Raised {A}.

(** What a method of the spotipy client does: it raises or it returns. *)
Inductive outcome (A : Type) : Type :=
| Raises
| Returns (value : A).
Arguments Raises {A}.

(** *** Deezer payloads *)

(** A track object of the Deezer API, with the fields the code reads:
    [track['id']], [track['title']], [track['artist']['name']],
    [track['album']['title']], [track['duration']]. *)
Record DzTrackJson : Type := {
  dz_id : Z;
  dz_title : str;
  dz_artist_name : str;
  dz_album_title : str;
  dz_duration : Z
}.

(** A page of [/playlist/<id>/tracks]; both keys are read with [.get]. *)
Record DzPage : Type := {
  page_data : option (list DzTrackJson);
  page_next : option str
}.

(** The body of [/search]; ['data'] is read with [.get]. *)
Record DzSearch : Type := { search_data : option (list DzTrackJson) }.

(** The body of [POST /user/me/playlists]; ['id'] is read with [.get]. *)
Record DzCreated : Type := { created_id : option Z }.

(** The body of [/user/me]; its keys are only printed. *)
Record DzUser : Type := { user_name : option str }.

(** [parse_qs(text)]: keys with their non-empty lists of values, in order of
    first appearance. *)
Definition qs := list (str * (str * list str)).

Fixpoint qs_get (k : str) (d : qs) : option (str * list str) :=
  match d with
  | [] => None
  | (k', vs) :: d' => if str_eqb k k' then Some vs else qs_get k d'
  end.

(** The Deezer end points the program calls, as oracles of their request
    parameters. *)
Record Deezer : Type := {
  (** [requests.get(url)] on a playlist-tracks URL *)
  get_tracks : str -> http (option DzPage);
  (** [requests.get(BASE/search, params={'q': q, 'limit': n})] *)
  get_search : str -> Z -> http (option DzSearch);
  (** [requests.post(BASE/user/me/playlists, data={title, access_token})] *)
  post_playlist : str -> str -> http (option DzCreated);
  (** [requests.post(BASE/playlist/<id>/tracks, data={songs, access_token})] *)
  post_tracks : Z -> str -> str -> http unit;
  (** [requests.get(DEEZER_TOKEN_URL, params={app_id, secret, code})], the
      body being [parse_qs(response.text)] *)
  get_token : str -> str -> str -> http qs;
  (** [requests.get(BASE/user/me, params={access_token})] *)
  get_user_me : str -> http (option DzUser)
}.

Definition DEEZER_BASE_URL : str := py "https://api.deezer.com".

(** *** Spotify payloads *)

(** A track object of the Spotify API: [track['id']], [track['name']],
    [track['type']], the names of [track['artists']],
    [track['album']['name']], [track['duration_ms']]. *)
Record SpTrackJson : Type := {
  sp_id : str;
  sp_name : str;
  sp_type : str;
  sp_artists : list str;
  sp_album_name : str;
  sp_duration_ms : Z
}.

(** A playlist item; [item['track']] is [None] for removed tracks. *)
Record SpItem : Type := { item_track : option SpTrackJson }.

Record SpTracksPage : Type := {
  tp_items : list SpItem;
  tp_next : option str
}.

Record SpPlaylistJson : Type := {
  pl_id : str;
  pl_name : str;
  pl_description : str;
  pl_owner_id : str;
  pl_tracks_total : Z
}.

Record SpPlaylistsPage : Type := {
  pp_items : list SpPlaylistJson;
  pp_next : option str
}.

(** The spotipy client, [self.spotify], as oracles of the call arguments.
    A paging call returns a page or [None]. *)
Record Spotify : Type := {
  current_user : outcome str;  (* the ['id'] of the user object *)
  current_user_playlists : Z -> outcome (option SpPlaylistsPage);
  next_playlists : SpPlaylistsPage -> outcome (option SpPlaylistsPage);
  playlist_tracks : str -> outcome (option SpTracksPage);
  next_tracks : SpTracksPage -> outcome (option SpTracksPage);
  (** [search(q=..., type='track', limit=n)]: [results['tracks']['items']] *)
  search : str -> Z -> outcome (list SpTrackJson);
  (** [user_playlist_create(user, name, public)]: [playlist['id']] *)
  user_playlist_create : str -> str -> bool -> outcome str;
  playlist_add_items : str -> list str -> outcome unit
}.

(** ** [class DeezerOAuth] *)

Record DeezerOAuth : Type := {
  app_id : str;
  app_secret : str;
  redirect_uri : str;
  access_token : option str;
  authorization_code : option str
}.

Definition set_access_token (self : DeezerOAuth) (tok : str) : DeezerOAuth :=
  {| app_id := app_id self;
     app_secret := app_secret self;
     redirect_uri := redirect_uri self;
     access_token := Some tok;
     authorization_code := authorization_code self |}.

Section Auth.

Variable dz : Deezer.

(** [DeezerOAuth.test_connection] *)
Definition test_connection (self : DeezerOAuth) : bool :=
  if negb (truthy_opt (access_token self)) then false
  else
    match access_token self with
    | None => false
    | Some tok =>
        match get_user_me dz tok with
        | Raised => false
        | Response status body =>
            if (status =? 200)%Z then
              match body with
              | None => false          (* response.json() raised *)
              | Some _ => true
              end
            else false
        end
    end.

(** [DeezerOAuth.exchange_code_for_token]: the result and the object
    after the call. *)
Definition exchange_code_for_token (self : DeezerOAuth)
  : bool * DeezerOAuth :=
  if negb (truthy_opt (authorization_code self)) then (false, self)
  else
    match authorization_code self with
    | None => (false, self)
    | Some code =>
        match get_token dz (app_id self) (app_secret self) code with
        | Raised => (false, self)
        | Response status response_data =>
            if (status =? 200)%Z then
              match qs_get (py "access_token") response_data with
              | Some (tok, _) =>
                  let self' := set_access_token self tok in
                  (test_connection self', self')
              | None => (false, self)
              end
            else (false, self)
        end
    end.

End Auth.

(** ** [class PlaylistConverter] *)

(** The dictionaries built by [get_deezer_playlist_tracks]. *)
Record DzTrack : Type := {
  dt_title : str;
  dt_artist : str;
  dt_album : str;
  dt_duration : Z;
  dt_deezer_id : Z
}.

(** The dictionaries built by [get_spotify_playlist_tracks]. *)
Record SpTrack : Type := {
  st_title : str;
  st_artist : str;
  st_artists : list str;
  st_album : str;
  st_duration : Z;
  st_spotify_id : str
}.

(** The dictionaries built by [get_spotify_playlists]. *)
Record SpPlaylist : Type := {
  sl_id : str;
  sl_name : str;
  sl_description : str;
  sl_tracks_total : Z
}.

(** The dictionaries returned by [search_deezer_track]. *)
Record DzFound : Type := {
  df_id : Z;
  df_title : str;
  df_artist : str;
  df_album : str;
  df_duration : Z
}.

(** The dictionaries returned by [search_spotify_track]. *)
Record SpFound : Type := {
  sf_id : str;
  sf_title : str;
  sf_artists : list str;
  sf_album : str;
  sf_duration : Z
}.

Definition dz_track_of (track : DzTrackJson) : DzTrack :=
  {| dt_title := dz_title track;
     dt_artist := dz_artist_name track;
     dt_album := dz_album_title track;
     dt_duration := dz_duration track;
     dt_deezer_id := dz_id track |}.

Definition sp_track_of (track : SpTrackJson) : SpTrack :=
  let artists := sp_artists track in
  {| st_title := sp_name track;
     st_artist := match artists with a :: _ => a | [] => [] end;
     st_artists := artists;
     st_album := sp_album_name track;
     st_duration := (sp_duration_ms track / 1000)%Z;
     st_spotify_id := sp_id track |}.

Definition sp_playlist_of (playlist : SpPlaylistJson) : SpPlaylist :=
  {| sl_id := pl_id playlist;
     sl_name := pl_name playlist;
     sl_description := pl_description playlist;
     sl_tracks_total := pl_tracks_total playlist |}.

Definition dz_found_of (track : DzTrackJson) : DzFound :=
  {| df_id := dz_id track;
     df_title := dz_title track;
     df_artist := dz_artist_name track;
     df_album := dz_album_title track;
     df_duration := dz_duration track |}.

Definition sp_found_of (track : SpTrackJson) : SpFound :=
  {| sf_id := sp_id track;
     sf_title := sp_name track;
     sf_artists := sp_artists track;
     sf_album := sp_album_name track;
     sf_duration := (sp_duration_ms track / 1000)%Z |}.

(** [data.get('data', [])] *)
Definition data_or_empty (page : DzPage) : list DzTrackJson :=
  match page_data page with Some l => l | None => [] end.

Section Listing.

Variable dz : Deezer.

(** The body of [for track in data.get('data', [])]: one [append] each. *)
Definition append_dz_tracks (tracks : list DzTrack) (page : DzPage)
  : list DzTrack :=
  fold_left (fun acc track => acc ++ [dz_track_of track])
            (data_or_empty page) tracks.

(** [while url:] of [get_deezer_playlist_tracks].  One unit of fuel is
    spent per request; [None] means the fuel ran out. *)
Fixpoint dz_tracks_loop (fuel : nat) (url : option str)
         (tracks : list DzTrack) : option (list DzTrack) :=
  match url with
  | None => Some tracks
  | Some u =>
      if truthy u then
        match fuel with
        | O => None
        | S fuel' =>
            match get_tracks dz u with
            | Raised => Some []                       (* except: return [] *)
            | Response status body =>
                if (status =? 200)%Z then
                  match body with
                  | None => Some []                   (* json() raised *)
                  | Some data =>
                      dz_tracks_loop fuel' (page_next data)
                                     (append_dz_tracks tracks data)
                  end
                else if (status =? 403)%Z then Some []
                else if (status =? 404)%Z then Some []
                else Some tracks                      (* break *)
            end
        end
      else Some tracks
  end.

Definition playlist_tracks_url (playlist_id : str) : str :=
  DEEZER_BASE_URL ++ py "/playlist/" ++ playlist_id ++ py "/tracks".

Definition get_deezer_playlist_tracks (fuel : nat) (playlist_id : str)
  : option (list DzTrack) :=
  dz_tracks_loop fuel (Some (playlist_tracks_url playlist_id)) [].

(** [self.spotify] *)
Variable spotify : option Spotify.

(** [for playlist in results['items']] of [get_spotify_playlists];
    [current_user()] is called once per item and may raise. *)
Fixpoint append_own_playlists (sp : Spotify) (items : list SpPlaylistJson)
         (playlists : list SpPlaylist) : outcome (list SpPlaylist) :=
  match items with
  | [] => Returns playlists
  | playlist :: rest =>
      match current_user sp with
      | Raises => Raises
      | Returns me =>
          if str_eqb (pl_owner_id playlist) me
          then append_own_playlists sp rest
                 (playlists ++ [sp_playlist_of playlist])
          else append_own_playlists sp rest playlists
      end
  end.

(** [while results:] of [get_spotify_playlists]; fuel counts pages. *)
Fixpoint sp_playlists_loop (fuel : nat) (sp : Spotify)
         (results : option SpPlaylistsPage) (playlists : list SpPlaylist)
  : option (list SpPlaylist) :=
  match results with
  | None => Some playlists
  | Some page =>
      match fuel with
      | O => None
      | S fuel' =>
          match append_own_playlists sp (pp_items page) playlists with
          | Raises => Some []
          | Returns playlists' =>
              if truthy_opt (pp_next page) then
                match next_playlists sp page with
                | Raises => Some []
                | Returns results' =>
                    sp_playlists_loop fuel' sp results' playlists'
                end
              else Some playlists'                    (* break *)
          end
      end
  end.

Definition get_spotify_playlists (fuel : nat) : option (list SpPlaylist) :=
  match spotify with
  | None => Some []
  | Some sp =>
      match current_user_playlists sp 50 with
      | Raises => Some []
      | Returns results => sp_playlists_loop fuel sp results []
      end
  end.

(** [item['track'] and item['track']['type'] == 'track'] *)
Definition is_track_item (item : SpItem) : bool :=
  match item_track item with
  | None => false
  | Some track => str_eqb (sp_type track) (py "track")
  end.

(** [for item in results['items']] of [get_spotify_playlist_tracks]. *)
Definition append_sp_tracks (tracks : list SpTrack) (page : SpTracksPage)
  : list SpTrack :=
  fold_left
    (fun acc item =>
       if is_track_item item then
         match item_track item with
         | Some track => acc ++ [sp_track_of track]
         | None => acc
         end
       else acc)
    (tp_items page) tracks.

(** [while results:] of [get_spotify_playlist_tracks]. *)
Fixpoint sp_tracks_loop (fuel : nat) (sp : Spotify)
         (results : option SpTracksPage) (tracks : list SpTrack)
  : option (list SpTrack) :=
  match results with
  | None => Some tracks
  | Some page =>
      match fuel with
      | O => None
      | S fuel' =>
          let tracks' := append_sp_tracks tracks page in
          if truthy_opt (tp_next page) then
            match next_tracks sp page with
            | Raises => Some []
            | Returns results' => sp_tracks_loop fuel' sp results' tracks'
            end
          else Some tracks'                           (* break *)
      end
  end.

Definition get_spotify_playlist_tracks (fuel : nat) (playlist_id : str)
  : option (list SpTrack) :=
  match spotify with
  | None => Some []
  | Some sp =>
      match playlist_tracks sp playlist_id with
      | Raises => Some []
      | Returns results => sp_tracks_loop fuel sp results []
      end
  end.

End Listing.

(** [range(start, stop, step)] for a positive step. *)
Fixpoint range_from (fuel start stop step : nat) : list nat :=
  match fuel with
  | O => []
  | S fuel' =>
      if start <? stop
      then start :: range_from fuel' (start + step) stop step
      else []
  end.

Definition range (start stop step : nat) : list nat :=
  range_from (stop - start) start stop step.

(** [l[i:j]] for [0 <= i <= j]. *)
Definition slice (A : Type) (l : list A) (i j : nat) : list A :=
  firstn (j - i) (skipn i l).

Section Search.

Variable U : CharData.
Variable dz : Deezer.

(** The test of the [if] inside the loop of [search_deezer_track]; the
    candidate's fields are lower-cased only. *)
Definition dz_matches (clean_title clean_artist : str)
           (track : DzTrackJson) : bool :=
  let track_title := lower U (dz_title track) in
  let track_artist := lower U (dz_artist_name track) in
  either_in (lower U clean_title) track_title
  && either_in (lower U clean_artist) track_artist.

(** [for track in data['data']: if ...: return {...}] *)
Fixpoint dz_scan (clean_title clean_artist : str)
         (candidates : list DzTrackJson) : option DzFound :=
  match candidates with
  | [] => None
  | track :: rest =>
      if dz_matches clean_title clean_artist track
      then Some (dz_found_of track)
      else dz_scan clean_title clean_artist rest
  end.

Definition deezer_query (title artist : str) : str :=
  strip U (clean U artist ++ py " " ++ clean U title).

Definition search_deezer_track (title artist : str) : option DzFound :=
  let clean_title := clean U title in
  let clean_artist := clean U artist in
  let query := deezer_query title artist in
  match get_search dz query 5 with
  | Raised => None
  | Response status body =>
      if (status =? 200)%Z then
        match body with
        | None => None                                (* json() raised *)
        | Some data =>
            match search_data data with
            | Some ((first :: _) as candidates) =>
                match dz_scan clean_title clean_artist candidates with
                | Some found => Some found
                | None => Some (dz_found_of first)
                end
            | _ => None
            end
        end
      else None
  end.

Variable spotify : option Spotify.

(** The test of the [if] inside the loop of [search_spotify_track]. *)
Definition sp_matches (clean_title clean_artist : str)
           (track : SpTrackJson) : bool :=
  let track_title := lower U (sp_name track) in
  let track_artists := map (lower U) (sp_artists track) in
  either_in (lower U clean_title) track_title
  && existsb (fun ta => either_in (lower U clean_artist) ta) track_artists.

Fixpoint sp_scan (clean_title clean_artist : str)
         (candidates : list SpTrackJson) : option SpFound :=
  match candidates with
  | [] => None
  | track :: rest =>
      if sp_matches clean_title clean_artist track
      then Some (sp_found_of track)
      else sp_scan clean_title clean_artist rest
  end.

Definition spotify_query (title artist : str) : str :=
  py "track:" ++ clean U title ++ py " artist:" ++ clean U artist.

Definition search_spotify_track (title artist : str) : option SpFound :=
  match spotify with
  | None => None
  | Some sp =>
      let clean_title := clean U title in
      let clean_artist := clean U artist in
      match search sp (spotify_query title artist) 5 with
      | Raises => None
      | Returns [] => None
      | Returns ((first :: _) as candidates) =>
          match sp_scan clean_title clean_artist candidates with
          | Some found => Some found
          | None => Some (sp_found_of first)
          end
      end
  end.

End Search.

Section Create.

Variable dz : Deezer.

(** [self.deezer_access_token] *)
Variable deezer_access_token : option str.

(** An add-tracks request of [create_deezer_playlist]: the playlist id in
    the URL and the [songs] field. *)
Definition DzAdd : Type := (Z * str)%type.

(** [','.join(map(str, track_ids))] *)
Definition songs_of (track_ids : list Z) : str :=
  join (py ",") (map str_of_Z track_ids).

(** [create_deezer_playlist]: the result and the add-tracks requests sent,
    in order. *)
Definition create_deezer_playlist (name : str) (track_ids : list Z)
  : bool * list DzAdd :=
  match deezer_access_token with
  | None => (false, [])
  | Some token =>
      if negb (truthy token) then (false, [])
      else
        match post_playlist dz name token with
        | Raised => (false, [])
        | Response status body =>
            if (status =? 200)%Z then
              match body with
              | None => (false, [])                   (* json() raised *)
              | Some playlist_data =>
                  match created_id playlist_data, track_ids with
                  | Some playlist_id, _ :: _ =>
                      if (playlist_id =? 0)%Z then (true, [])
                      else
                        let tracks_str := songs_of track_ids in
                        let call := (playlist_id, tracks_str) in
                        match post_tracks dz playlist_id tracks_str token
                        with
                        | Raised => (false, [call])
                        | Response add_status _ =>
                            ((add_status =? 200)%Z, [call])
                        end
                  | _, _ => (true, [])
                  end
              end
            else (false, [])
        end
  end.

Variable spotify : option Spotify.

(** A [playlist_add_items] call: the playlist id and the batch. *)
Definition SpAdd : Type := (str * list str)%type.

(** [for i in range(0, len(track_ids), 100)]; the loop ends at the first
    call that raises. *)
Fixpoint add_batches (sp : Spotify) (playlist_id : str)
         (track_ids : list str) (starts : list nat) : bool * list SpAdd :=
  match starts with
  | [] => (true, [])
  | i :: rest =>
      let batch := slice track_ids i (i + 100) in
      match playlist_add_items sp playlist_id batch with
      | Raises => (false, [(playlist_id, batch)])
      | Returns _ =>
          let (ok, calls) := add_batches sp playlist_id track_ids rest in
          (ok, (playlist_id, batch) :: calls)
      end
  end.

(** [create_spotify_playlist]: the result and the [playlist_add_items]
    calls made, in order. *)
Definition create_spotify_playlist (name : str) (track_ids : list str)
  : bool * list SpAdd :=
  match spotify with
  | None => (false, [])
  | Some sp =>
      match current_user sp with
      | Raises => (false, [])
      | Returns user_id =>
          match user_playlist_create sp user_id name false with
          | Raises => (false, [])
          | Returns playlist_id =>
              match track_ids with
              | [] => (true, [])
              | _ :: _ =>
                  add_batches sp playlist_id track_ids
                              (range 0 (List.length track_ids) 100)
              end
          end
      end
  end.

End Create.

(** What a conversion run leaves behind: it stopped because the source
    listing was empty, or it went through the resolution loop and, when
    [found_tracks] was not empty, called the playlist creation; or an
    exception left the function during the resolution loop, which returns
    nothing then. *)
Inductive Conversion (Id Call : Type) : Type :=
| NoTracks
| Converted (found_tracks : list Id) (not_found : list str)
            (created : option (bool * list Call))
| Crashed.
Arguments NoTracks {Id Call}.
Arguments Crashed {Id Call}.

Section Convert.

Variable U : CharData.
Variable dz : Deezer.
Variable spotify : option Spotify.
Variable deezer_access_token : option str.

(** [f"{track['artist']} - {track['title']}"] *)
Definition label (artist title : str) : str := artist ++ py " - " ++ title.

(** One iteration of the loop of [convert_spotify_to_deezer]. *)
Definition resolve_on_deezer (acc : list Z * list str) (track : SpTrack)
  : list Z * list str :=
  let (found_tracks, not_found) := acc in
  match search_deezer_track U dz (st_title track) (st_artist track) with
  | Some deezer_track => (found_tracks ++ [df_id deezer_track], not_found)
  | None =>
      (found_tracks, not_found ++ [label (st_artist track) (st_title track)])
  end.

(** [new_playlist_name], defaulted when falsy; [now] is [int(time.time())]. *)
Definition default_name (source : string) (new_playlist_name : option str)
           (now : Z) : str :=
  match new_playlist_name with
  | Some n => if truthy n then n
              else py "From " ++ py source ++ py " - " ++ str_of_Z now
  | None => py "From " ++ py source ++ py " - " ++ str_of_Z now
  end.

Definition convert_spotify_to_deezer (fuel : nat) (spotify_playlist_id : str)
           (new_playlist_name : option str) (now : Z)
  : option (Conversion Z DzAdd) :=
  match get_spotify_playlist_tracks spotify fuel spotify_playlist_id with
  | None => None
  | Some [] => Some NoTracks
  | Some tracks =>
      let (found_tracks, not_found) :=
        fold_left resolve_on_deezer tracks ([], []) in
      let name := default_name "Spotify" new_playlist_name now in
      match found_tracks with
      | [] => Some (Converted found_tracks not_found None)
      | _ :: _ =>
          Some (Converted found_tracks not_found
                  (Some (create_deezer_playlist dz deezer_access_token
                           name found_tracks)))
      end
  end.

(** One iteration of the loop of [convert_deezer_to_spotify].  After the
    [append], the message of the found branch evaluates
    [spotify_track['artists'][0]] outside any [try]: on a found track
    without artists it raises [IndexError]. *)
Definition resolve_on_spotify (acc : list str * list str) (track : DzTrack)
  : outcome (list str * list str) :=
  let (found_tracks, not_found) := acc in
  match search_spotify_track U spotify (dt_title track) (dt_artist track)
  with
  | Some spotify_track =>
      match sf_artists spotify_track with
      | [] => Raises
      | _ :: _ => Returns (found_tracks ++ [sf_id spotify_track], not_found)
      end
  | None =>
      Returns
        (found_tracks, not_found ++ [label (dt_artist track) (dt_title track)])
  end.

(** [for i, track in enumerate(tracks, 1)] of [convert_deezer_to_spotify];
    an exception ends the loop and the function. *)
Fixpoint resolve_all_on_spotify (tracks : list DzTrack)
         (acc : list str * list str) : outcome (list str * list str) :=
  match tracks with
  | [] => Returns acc
  | track :: rest =>
      match resolve_on_spotify acc track with
      | Raises => Raises
      | Returns acc' => resolve_all_on_spotify rest acc'
      end
  end.

Definition convert_deezer_to_spotify (fuel : nat) (deezer_playlist_id : str)
           (new_playlist_name : option str) (now : Z)
  : option (Conversion str SpAdd) :=
  match get_deezer_playlist_tracks dz fuel deezer_playlist_id with
  | None => None
  | Some [] => Some NoTracks
  | Some tracks =>
      match resolve_all_on_spotify tracks ([], []) with
      | Raises => Some Crashed
      | Returns (found_tracks, not_found) =>
          let name := default_name "Deezer" new_playlist_name now in
          match found_tracks with
          | [] => Some (Converted found_tracks not_found None)
          | _ :: _ =>
              Some (Converted found_tracks not_found
                      (Some (create_spotify_playlist spotify name
                               found_tracks)))
          end
      end
  end.

End Convert.

(** ** Vocabulary of the specification *)

(** [a] occurs in [b] as a contiguous run of code points. *)
Definition Substring (a b : str) : Prop :=
  exists before after, b = before ++ a ++ after.

(** Either string occurs in the other. *)
Definition Contained (a b : str) : Prop := Substring a b \/ Substring b a.

(** The containment test in the specification's words: BOTH the candidate's
    and the query's title and artist are normalized (punctuation stripped)
    before the case-insensitive bidirectional comparison. *)
Definition spec_matches (U : CharData) (title artist : str)
           (track : DzTrackJson) : bool :=
  either_in (lower U (clean U (dz_title track))) (lower U (clean U title))
  && either_in (lower U (clean U (dz_artist_name track)))
               (lower U (clean U artist)).

(** The test the matcher applies to a Deezer candidate, as a proposition:
    the query's title and artist are normalized and lower-cased, the
    candidate's are lower-cased only. *)
Definition DzPasses (U : CharData) (title artist : str)
           (track : DzTrackJson) : Prop :=
  Contained (lower U (clean U title)) (lower U (dz_title track))
  /\ Contained (lower U (clean U artist)) (lower U (dz_artist_name track)).

(** The same for a Spotify candidate: one of its artists has to pass. *)
Definition SpPasses (U : CharData) (title artist : str)
           (track : SpTrackJson) : Prop :=
  Contained (lower U (clean U title)) (lower U (sp_name track))
  /\ exists a, In a (sp_artists track)
               /\ Contained (lower U (clean U artist)) (lower U a).

(** [c] is the first element of [l], in order, that satisfies [P]. *)
Definition FirstSuch (A : Type) (P : A -> Prop) (l : list A) (c : A) : Prop :=
  exists before after,
    l = before ++ c :: after /\ Forall (fun x => ~ P x) before /\ P c.

(** [ceil(k / d)] on naturals. *)
Definition ceil_div (k d : nat) : nat := (k + d - 1) / d.

(** An HTTP status is a success status when it lies in 200..299. *)
Definition is_2xx (status : Z) : bool :=
  ((200 <=? status) && (status <=? 299))%Z.

(** The tracks a Deezer page contributes to the listing. *)
Definition dz_page_tracks (page : DzPage) : list DzTrack :=
  map dz_track_of (data_or_empty page).

(** The tracks a Spotify item contributes: none when the track is absent or
    its type is not ['track']. *)
Definition sp_item_tracks (item : SpItem) : list SpTrack :=
  match item_track item with
  | Some track =>
      if str_eqb (sp_type track) (py "track") then [sp_track_of track] else []
  | None => []
  end.

Definition sp_page_tracks (page : SpTracksPage) : list SpTrack :=
  flat_map sp_item_tracks (tp_items page).

(** [dz_pages dz url pages url']: starting at [url], the platform answers
    200 with the pages [pages], each reached through the previous page's
    ['next'] link; [url'] is the link left by the last of them. *)
Inductive dz_pages (dz : Deezer)
  : option str -> list DzPage -> option str -> Prop :=
| dz_pages_nil : forall url, dz_pages dz url [] url
| dz_pages_cons : forall u page pages url',
    truthy u = true ->
    get_tracks dz u = Response 200 (Some page) ->
    dz_pages dz (page_next page) pages url' ->
    dz_pages dz (Some u) (page :: pages) url'.

(** The platform returns exactly the pages [pages] for the listing that
    starts at [url]: the chain ends with a page without ['next'] link; for
    no page at all, the first request does not produce a page. *)
Definition dz_serves (dz : Deezer) (url : str) (pages : list DzPage) : Prop :=
  match pages with
  | [] => forall page, get_tracks dz url <> Response 200 (Some page)
  | _ :: _ =>
      exists last, dz_pages dz (Some url) pages last
                   /\ truthy_opt last = false
  end.

(** [sp_track_pages sp results pages]: from the paging result [results],
    the client returns exactly the pages [pages] through [next]. *)
Inductive sp_track_pages (sp : Spotify)
  : option SpTracksPage -> list SpTracksPage -> Prop :=
| sp_track_pages_none : sp_track_pages sp None []
| sp_track_pages_last : forall page,
    truthy_opt (tp_next page) = false ->
    sp_track_pages sp (Some page) [page]
| sp_track_pages_next : forall page results pages,
    truthy_opt (tp_next page) = true ->
    next_tracks sp page = Returns results ->
    sp_track_pages sp results pages ->
    sp_track_pages sp (Some page) (page :: pages).

Definition sp_serves (sp : Spotify) (playlist_id : str)
           (pages : list SpTracksPage) : Prop :=
  match playlist_tracks sp playlist_id with
  | Raises => pages = []
  | Returns results => sp_track_pages sp results pages
  end.

(** [sp_fetched sp page pages last]: pages [pages], starting with [page],
    were returned one after the other and led to the page [last]. *)
Inductive sp_fetched (sp : Spotify)
  : SpTracksPage -> list SpTracksPage -> SpTracksPage -> Prop :=
| sp_fetched_here : forall page, sp_fetched sp page [] page
| sp_fetched_next : forall page page' pages last,
    truthy_opt (tp_next page) = true ->
    next_tracks sp page = Returns (Some page') ->
    sp_fetched sp page' pages last ->
    sp_fetched sp page (page :: pages) last.

(** The same for the pages of [current_user_playlists]. *)
Inductive sp_playlist_pages (sp : Spotify)
  : option SpPlaylistsPage -> list SpPlaylistsPage -> Prop :=
| sp_playlist_pages_none : sp_playlist_pages sp None []
| sp_playlist_pages_last : forall page,
    truthy_opt (pp_next page) = false ->
    sp_playlist_pages sp (Some page) [page]
| sp_playlist_pages_next : forall page results pages,
    truthy_opt (pp_next page) = true ->
    next_playlists sp page = Returns results ->
    sp_playlist_pages sp results pages ->
    sp_playlist_pages sp (Some page) (page :: pages).

(** [p] records a playlist item whose owner id is the id that
    [current_user()] returns. *)
Definition Owned (sp : Spotify) (p : SpPlaylist) : Prop :=
  exists me item,
    current_user sp = Returns me
    /\ pl_owner_id item = me
    /\ p = sp_playlist_of item.

(** What one source track contributes to the resolved ids and to the
    unresolved labels of a Spotify-to-Deezer run. *)
Definition dz_resolved (U : CharData) (dz : Deezer) (track : SpTrack)
  : list Z :=
  match search_deezer_track U dz (st_title track) (st_artist track) with
  | Some deezer_track => [df_id deezer_track]
  | None => []
  end.

Definition dz_unresolved (U : CharData) (dz : Deezer) (track : SpTrack)
  : list str :=
  match search_deezer_track U dz (st_title track) (st_artist track) with
  | Some _ => []
  | None => [label (st_artist track) (st_title track)]
  end.

(** The same for a Deezer-to-Spotify run. *)
Definition sp_resolved (U : CharData) (spotify : option Spotify)
           (track : DzTrack) : list str :=
  match search_spotify_track U spotify (dt_title track) (dt_artist track) with
  | Some spotify_track => [sf_id spotify_track]
  | None => []
  end.

Definition sp_unresolved (U : CharData) (spotify : option Spotify)
           (track : DzTrack) : list str :=
  match search_spotify_track U spotify (dt_title track) (dt_artist track) with
  | Some _ => []
  | None => [label (dt_artist track) (dt_title track)]
  end.

(** The dictionary returned for a Deezer candidate, key by key. *)
Definition DzCarries (found : DzFound) (c : DzTrackJson) : Prop :=
  df_id found = dz_id c
  /\ df_title found = dz_title c
  /\ df_artist found = dz_artist_name c
  /\ df_album found = dz_album_title c
  /\ df_duration found = dz_duration c.

(** The dictionary returned for a Spotify candidate, key by key; the
    duration is in whole seconds. *)
Definition SpCarries (found : SpFound) (c : SpTrackJson) : Prop :=
  sf_id found = sp_id c
  /\ sf_title found = sp_name c
  /\ sf_artists found = sp_artists c
  /\ sf_album found = sp_album_name c
  /\ sf_duration found = (sp_duration_ms c / 1000)%Z.

(** What a listing is to hold for one Deezer page: one entry per track
    object of the page, in order, each with the title, the artist's name,
    the album's title, the duration and the id of the object. *)
Definition listed_dz_tracks (page : DzPage) : list DzTrack :=
  match page_data page with
  | Some objects =>
      map (fun object =>
             {| dt_title := dz_title object;
                dt_artist := dz_artist_name object;
                dt_album := dz_album_title object;
                dt_duration := dz_duration object;
                dt_deezer_id := dz_id object |})
          objects
  | None => []
  end.

(** What a listing is to hold for one Spotify page: one entry per item
    whose track is present and of type ['track'], in order, with the name,
    the first artist (or the empty string), all the artists, the album's
    name, the duration in whole seconds and the id of the track. *)
Definition listed_sp_tracks (page : SpTracksPage) : list SpTrack :=
  flat_map
    (fun item =>
       match item_track item with
       | Some object =>
           if str_eqb (sp_type object) (py "track") then
             [ {| st_title := sp_name object;
                  st_artist := hd [] (sp_artists object);
                  st_artists := sp_artists object;
                  st_album := sp_album_name object;
                  st_duration := (sp_duration_ms object / 1000)%Z;
                  st_spotify_id := sp_id object |} ]
           else []
       | None => []
       end)
    (tp_items page).

(** The search finds, for the source track [track], a Spotify track that
    has no artist. *)
Definition finds_artistless (U : CharData) (spotify : option Spotify)
           (track : DzTrack) : bool :=
  match search_spotify_track U spotify (dt_title track) (dt_artist track) with
  | Some found =>
      match sf_artists found with
      | [] => true
      | _ :: _ => false
      end
  | None => false
  end.

(** The name a conversion gives the new playlist: the name asked for when
    there is one and it is not empty, else [From <source> - <now>]. *)
Definition PlaylistNamed (source : string) (asked : option str) (now : Z)
           (playlist_name : str) : Prop :=
  (exists n, asked = Some n /\ n <> [] /\ playlist_name = n)
  \/ ((asked = None \/ asked = Some [])
      /\ playlist_name
         = py "From " ++ py source ++ py " - " ++ str_of_Z now).

(** The candidate a scan settles on: the first one passing [test], else the
    first one overall. *)
Definition first_passing_or_first (A : Type) (test : A -> bool)
           (first : A) (rest : list A) : A :=
  match find test (first :: rest) with
  | Some c => c
  | None => first
  end.

(** ** Sample platforms

    Small concrete platforms on which the definitions above are run. *)

Module Sample.

Definition dz_json (id : Z) (title artist : string) : DzTrackJson :=
  {| dz_id := id; dz_title := py title; dz_artist_name := py artist;
     dz_album_title := py "Album"; dz_duration := 180 |}.

Definition yesterday_remastered : DzTrackJson :=
  dz_json 11 "Yesterday (Remastered 2009)" "The Beatles".
Definition dreams : DzTrackJson := dz_json 21 "Dreams" "Fleetwood Mac".
Definition dont_stop : DzTrackJson :=
  dz_json 22 "Don't Stop" "Fleetwood Mac".
Definition imagine : DzTrackJson := dz_json 31 "Imagine" "John Lennon".

Definition dz_page1 : DzPage :=
  {| page_data := Some [dreams; dont_stop]; page_next := Some (py "page2") |}.
Definition dz_page2 : DzPage :=
  {| page_data := Some [imagine]; page_next := None |}.
(** A first page whose ['next'] link is answered [403], one answered
    [500], one on which the request raises. *)
Definition dz_page_then (link : string) : DzPage :=
  {| page_data := Some [dreams]; page_next := Some (py link) |}.

Definition token_body (tok : string) : qs :=
  [(py "access_token", (py tok, [])); (py "expires", (py "3600", []))].

Definition deezer : Deezer := {|
  get_tracks := fun url =>
    if str_eqb url (playlist_tracks_url (py "42")) then
      Response 200 (Some dz_page1)
    else if str_eqb url (py "page2") then Response 200 (Some dz_page2)
    else if str_eqb url (playlist_tracks_url (py "403")) then
      Response 200 (Some (dz_page_then "forbidden"))
    else if str_eqb url (py "forbidden") then Response 403 None
    else if str_eqb url (playlist_tracks_url (py "500")) then
      Response 200 (Some (dz_page_then "broken"))
    else if str_eqb url (py "broken") then Response 500 None
    else if str_eqb url (playlist_tracks_url (py "down")) then
      Response 200 (Some (dz_page_then "unreachable"))
    else if str_eqb url (py "unreachable") then Raised
    else Response 404 None;
  get_search := fun q _ =>
    if str_eqb q (py "The Beatles Yesterday") then
      Response 200 (Some {| search_data := Some [yesterday_remastered] |})
    else if str_eqb q (py "Fleetwood Mac Dont Stop") then
      Response 200 (Some {| search_data := Some [dreams; dont_stop] |})
    else Response 200 (Some {| search_data := Some [] |});
  post_playlist := fun title _ =>
    if str_eqb title (py "no id") then
      Response 200 (Some {| created_id := None |})
    else Response 200 (Some {| created_id := Some 7%Z |});
  post_tracks := fun _ _ _ => Response 200 tt;
  get_token := fun _ _ code =>
    if str_eqb code (py "fresh") then Response 200 (token_body "tok")
    else if str_eqb code (py "stale") then Response 200 (token_body "old")
    else Response 400 [];
  get_user_me := fun tok =>
    if str_eqb tok (py "tok") then
      Response 200 (Some {| user_name := Some (py "Nino") |})
    else Response 401 None
|}.

Definition oauth (code : string) : DeezerOAuth :=
  {| app_id := py "app"; app_secret := py "secret";
     redirect_uri := py "http://localhost:8080/deezer_callback";
     access_token := None; authorization_code := Some (py code) |}.

Definition sp_json (id title type : string) (artists : list string)
           (ms : Z) : SpTrackJson :=
  {| sp_id := py id; sp_name := py title; sp_type := py type;
     sp_artists := map py artists; sp_album_name := py "Album";
     sp_duration_ms := ms |}.

Definition sp_yesterday : SpTrackJson :=
  sp_json "s1" "Yesterday" "track" ["The Beatles"%string] 125999.
Definition sp_imagine : SpTrackJson :=
  sp_json "s2" "Imagine" "track" ["John Lennon"%string] 183000.
Definition sp_episode : SpTrackJson :=
  sp_json "e1" "Some podcast" "episode" [] 1800000.
Definition sp_dont_stop : SpTrackJson :=
  sp_json "s3" "Don't Stop" "track" ["Fleetwood Mac"%string] 193000.
Definition sp_dreams : SpTrackJson :=
  sp_json "s4" "Dreams" "track"
          ["Stevie Nicks"%string; "Fleetwood Mac"%string] 257000.

Definition sp_page1 : SpTracksPage :=
  {| tp_items := [ {| item_track := Some sp_yesterday |};
                   {| item_track := Some sp_episode |};
                   {| item_track := None |} ];
     tp_next := Some (py "next") |}.
Definition sp_page2 : SpTracksPage :=
  {| tp_items := [ {| item_track := Some sp_imagine |} ];
     tp_next := None |}.
Definition sp_page_lost : SpTracksPage :=
  {| tp_items := [ {| item_track := Some sp_yesterday |} ];
     tp_next := Some (py "gone") |}.

Definition sp_list (id name owner : string) (total : Z) : SpPlaylistJson :=
  {| pl_id := py id; pl_name := py name; pl_description := [];
     pl_owner_id := py owner; pl_tracks_total := total |}.

Definition mine : SpPlaylistJson := sp_list "p1" "Road trip" "nino" 3.
Definition followed : SpPlaylistJson := sp_list "p2" "Top 50" "spotify" 50.
Definition mine_too : SpPlaylistJson := sp_list "p3" "Calm" "nino" 12.

Definition pl_page1 : SpPlaylistsPage :=
  {| pp_items := [mine; followed]; pp_next := Some (py "more") |}.
Definition pl_page2 : SpPlaylistsPage :=
  {| pp_items := [mine_too]; pp_next := None |}.

(** [adds] tells whether [playlist_add_items] returns. *)
Definition spotify_with (adds : bool) : Spotify := {|
  current_user := Returns (py "nino");
  current_user_playlists := fun _ => Returns (Some pl_page1);
  next_playlists := fun page =>
    if str_eqb (match pp_next page with Some u => u | None => [] end)
               (py "more")
    then Returns (Some pl_page2) else Returns None;
  playlist_tracks := fun id =>
    if str_eqb id (py "lost") then Returns (Some sp_page_lost)
    else Returns (Some sp_page1);
  next_tracks := fun page =>
    if str_eqb (match tp_next page with Some u => u | None => [] end)
               (py "next")
    then Returns (Some sp_page2) else Raises;
  search := fun q _ =>
    if str_eqb q (py "track:Dont Stop artist:Fleetwood Mac") then
      Returns [sp_dreams; sp_dont_stop]
    else if str_eqb q (py "track:Dreams artist:Fleetwood Mac") then
      Returns [sp_dont_stop; sp_dreams]
    else Returns [];
  user_playlist_create := fun _ name _ =>
    if str_eqb name (py "refused") then Raises else Returns (py "new");
  playlist_add_items := fun _ _ => if adds then Returns tt else Raises
|}.

Definition spotify : Spotify := spotify_with true.

(** [k] Spotify track ids ["0"], ["1"], ... *)
Definition ids (k : nat) : list str :=
  map (fun n => str_of_Z (Z.of_nat n)) (seq 0 k).

End Sample.

(** ** The rest of [app.py]: URLs and set-up *)

(** *** [str.split] *)

(** The leftmost occurrence of [sep] in [s]: what comes before it and what
    comes after it, [None] when [sep] does not occur. *)
Fixpoint split_at (sep s : str) : option (str * str) :=
  if startswith sep s then Some ([], skipn (List.length sep) s)
  else
    match s with
    | [] => None
    | c :: s' =>
        match split_at sep s' with
        | Some (before, after) => Some (c :: before, after)
        | None => None
        end
    end.

(** Cutting at the leftmost occurrence again and again; each cut removes at
    least one character when [sep] is not empty, so [fuel] bounds the
    number of cuts. *)
Fixpoint split_fuel (fuel : nat) (sep s : str) : list str :=
  match fuel with
  | O => [s]
  | S fuel' =>
      match split_at sep s with
      | None => [s]
      | Some (before, after) => before :: split_fuel fuel' sep after
      end
  end.

(** [s.split(sep)] for a non-empty [sep] (every separator in the source is
    a non-empty literal). *)
Definition split (sep s : str) : list str :=
  split_fuel (List.length s) sep s.

(** *** Playlist URLs *)

(** The two attributes of [urlparse(url)] that the code reads. *)
Record ParseResult : Type := {
  netloc : str;
  path : str
}.

(** [path.split('/playlist/')[-1].split('?')[0]] *)
Definition playlist_id_in (path : str) : str :=
  hd [] (split (py "?") (last (split (py "/playlist/") path) [])).

Section Urls.

(** [urllib.parse.urlparse], which may raise [ValueError]. *)
Variable urlparse : str -> outcome ParseResult.

(** [requests.head(url, allow_redirects=True)]: the status and
    [response.url], the URL reached after the redirects. *)
Variable requests_head : str -> http str.

Definition parse_spotify_playlist_url (url : str) : option str :=
  if startswith (py "spotify:playlist:") url then
    Some (last (split (py ":") url) [])
  else
    match urlparse url with
    | Raises => None
    | Returns parsed =>
        if str_in (py "spotify.com") (netloc parsed)
           && str_in (py "/playlist/") (path parsed)
        then Some (playlist_id_in (path parsed))
        else None
    end.

(** The last two statements of [parse_deezer_playlist_url], reached for
    standard URLs and for short links that could not be resolved. *)
Definition deezer_standard_id (parsed : ParseResult) : option str :=
  if str_in (py "deezer.com") (netloc parsed)
     && str_in (py "/playlist/") (path parsed)
  then Some (playlist_id_in (path parsed))
  else None.

(** [parse_deezer_playlist_url]; it calls itself on the URL a short link
    redirects to, one unit of fuel per such call.  The outer [None] means
    that the fuel ran out. *)
Fixpoint parse_deezer_playlist_url (fuel : nat) (url : str)
  : option (option str) :=
  match urlparse url with
  | Raises => Some None
  | Returns parsed =>
      if str_in (py "link.deezer.com") (netloc parsed) then
        match requests_head url with
        | Raised => Some (deezer_standard_id parsed)       (* except: pass *)
        | Response status final_url =>
            if (status =? 200)%Z then
              match fuel with
              | O => None
              | S fuel' => parse_deezer_playlist_url fuel' final_url
              end
            else Some (deezer_standard_id parsed)
        end
      else Some (deezer_standard_id parsed)
  end.

End Urls.

(** What [convert_playlist_by_url] does with a URL. *)
Inductive ByUrl : Type :=
| SpotifyDetected (playlist_id : str) (run : Conversion Z DzAdd)
| InvalidSpotifyUrl
| DeezerDetected (playlist_id : str) (run : Conversion str SpAdd)
| InvalidDeezerUrl
| UnsupportedUrl.

Section ByUrl.

Variable U : CharData.
Variable urlparse : str -> outcome ParseResult.
Variable requests_head : str -> http str.
Variable dz : Deezer.
Variable spotify : option Spotify.
Variable deezer_access_token : option str.

(** [convert_playlist_by_url]; the outer [None] means that the fuel ran
    out in the URL resolution or in the listing. *)
Definition convert_playlist_by_url (fuel : nat) (url : str)
           (new_playlist_name : option str) (now : Z) : option ByUrl :=
  if str_in (py "spotify.com") url || startswith (py "spotify:") url then
    match parse_spotify_playlist_url urlparse url with
    | Some playlist_id =>
        if truthy playlist_id then
          option_map (SpotifyDetected playlist_id)
            (convert_spotify_to_deezer U dz spotify deezer_access_token
               fuel playlist_id new_playlist_name now)
        else Some InvalidSpotifyUrl
    | None => Some InvalidSpotifyUrl
    end
  else if str_in (py "deezer.com") url then
    match parse_deezer_playlist_url urlparse requests_head fuel url with
    | None => None
    | Some (Some playlist_id) =>
        if truthy playlist_id then
          option_map (DeezerDetected playlist_id)
            (convert_deezer_to_spotify U dz spotify fuel playlist_id
               new_playlist_name now)
        else Some InvalidDeezerUrl
    | Some None => Some InvalidDeezerUrl
    end
  else Some UnsupportedUrl.

End ByUrl.

(** *** Setting up Deezer *)

(** The attributes of a [PlaylistConverter]. *)
Record PlaylistConverter : Type := {
  self_spotify : option Spotify;
  self_deezer_access_token : option str;
  self_deezer_oauth : option DeezerOAuth
}.

(** [f"{DEEZER_BASE_URL}/user/me?access_token={access_token}"] *)
Definition user_me_url (access_token : str) : str :=
  DEEZER_BASE_URL ++ py "/user/me?access_token=" ++ access_token.

(** [PlaylistConverter.setup_deezer]; [requests_get] is [requests.get] on
    the URL above, with the decoded body. *)
Definition setup_deezer (requests_get : str -> http (option DzUser))
           (self : PlaylistConverter) (access_token : str)
  : bool * PlaylistConverter :=
  let self' := {| self_spotify := self_spotify self;
                  self_deezer_access_token := Some access_token;
                  self_deezer_oauth := self_deezer_oauth self |} in
  match requests_get (user_me_url access_token) with
  | Raised => (false, self')
  | Response status body =>
      if (status =? 200)%Z then
        match body with
        | None => (false, self')                        (* json() raised *)
        | Some _ => (true, self')
        end
      else (false, self')
  end.

(** [DeezerOAuth(app_id, app_secret)] *)
Definition new_DeezerOAuth (app_id app_secret : str) : DeezerOAuth :=
  {| app_id := app_id;
     app_secret := app_secret;
     redirect_uri := py "http://localhost:8080/deezer_callback";
     access_token := None;
     authorization_code := None |}.

(** The two Deezer identifiers of [config.py] as distributed. *)
Definition DEEZER_APP_ID : str := py "your_deezer_app_id_here".
Definition DEEZER_APP_SECRET : str := py "your_deezer_app_secret_here".

(** [PlaylistConverter.setup_deezer_oauth].  [start_auth_flow] stands for
    the method of that name, which serves the local callback on another
    thread: here it is any function giving the method's result and the
    [DeezerOAuth] object as the call leaves it.  [app_id] and [app_secret]
    are the values imported from [config]. *)
Definition setup_deezer_oauth
           (start_auth_flow : DeezerOAuth -> bool * DeezerOAuth)
           (app_id app_secret : str) (self : PlaylistConverter)
  : bool * PlaylistConverter :=
  if str_eqb app_id (py "YOUR_DEEZER_APP_ID")
     || str_eqb app_secret (py "YOUR_DEEZER_APP_SECRET")
  then (false, self)
  else
    let (success, oauth) := start_auth_flow (new_DeezerOAuth app_id app_secret)
    in
    if success && truthy_opt (access_token oauth) then
      (true, {| self_spotify := self_spotify self;
                self_deezer_access_token := access_token oauth;
                self_deezer_oauth := Some oauth |})
    else
      (false, {| self_spotify := self_spotify self;
                 self_deezer_access_token := self_deezer_access_token self;
                 self_deezer_oauth := Some oauth |}).

(** *** Sample URLs *)

Module SampleUrl.

Definition spotify_url : str :=
  py "https://open.spotify.com/playlist/37i9dQZF1DXcBWIGoYBM5M?si=abc".
Definition deezer_url : str :=
  py "https://www.deezer.com/fr/playlist/42".
Definition short_url : str := py "https://link.deezer.com/s/abc".
Definition dead_url : str := py "https://link.deezer.com/s/dead".
Definition tagged_deezer_url : str :=
  py "https://www.deezer.com/playlist/42?from=spotify.com".

(** What [urlparse] gives on the URLs above. *)
Definition urlparse (url : str) : outcome ParseResult :=
  if str_eqb url spotify_url then
    Returns {| netloc := py "open.spotify.com";
               path := py "/playlist/37i9dQZF1DXcBWIGoYBM5M" |}
  else if str_eqb url deezer_url then
    Returns {| netloc := py "www.deezer.com"; path := py "/fr/playlist/42" |}
  else if str_eqb url short_url then
    Returns {| netloc := py "link.deezer.com"; path := py "/s/abc" |}
  else if str_eqb url dead_url then
    Returns {| netloc := py "link.deezer.com"; path := py "/s/dead" |}
  else if str_eqb url tagged_deezer_url then
    Returns {| netloc := py "www.deezer.com"; path := py "/playlist/42" |}
  else Returns {| netloc := []; path := url |}.

Definition requests_head (url : str) : http str :=
  if str_eqb url short_url then Response 200 deezer_url
  else if str_eqb url dead_url then Response 404 dead_url
  else Raised.

Definition converter : PlaylistConverter :=
  {| self_spotify := Some Sample.spotify;
     self_deezer_access_token := Some (py "tok");
     self_deezer_oauth := None |}.

(** A Deezer whose search answers every query with [candidates] and whose
    other end points are unreachable. *)
Definition deezer_answering (candidates : list DzTrackJson) : Deezer := {|
  get_tracks := fun _ => Raised;
  get_search := fun _ _ =>
    Response 200 (Some {| search_data := Some candidates |});
  post_playlist := fun _ _ => Raised;
  post_tracks := fun _ _ _ => Raised;
  get_token := fun _ _ _ => Raised;
  get_user_me := fun _ => Raised
|}.

(** A Deezer on which every tracks page links to itself. *)
Definition deezer_looping : Deezer := {|
  get_tracks := fun url =>
    Response 200 (Some {| page_data := Some [Sample.dreams];
                          page_next := Some url |});
  get_search := fun _ _ => Raised;
  post_playlist := fun _ _ => Raised;
  post_tracks := fun _ _ _ => Raised;
  get_token := fun _ _ _ => Raised;
  get_user_me := fun _ => Raised
|}.

Definition looping_page (url : str) : DzPage :=
  {| page_data := Some [Sample.dreams]; page_next := Some url |}.

(** A candidate without artists, and a client whose search returns it for
    "Imagine" and a track by Fleetwood Mac for everything else. *)
Definition artistless : SpTrackJson :=
  Sample.sp_json "x1" "Intro" "track" [] 61000.

Definition spotify_artistless : Spotify := {|
  current_user := Returns (py "nino");
  current_user_playlists := fun _ => Returns None;
  next_playlists := fun _ => Returns None;
  playlist_tracks := fun _ => Returns None;
  next_tracks := fun _ => Returns None;
  search := fun q _ =>
    if str_eqb q (py "track:Imagine artist:John Lennon")
    then Returns [artistless]
    else Returns [Sample.sp_dreams];
  user_playlist_create := fun _ _ _ => Returns (py "new");
  playlist_add_items := fun _ _ => Returns tt
|}.

(** A Spotify client whose [next] returns the page it was given. *)
Definition spotify_looping : Spotify := {|
  current_user := Returns (py "nino");
  current_user_playlists := fun _ => Returns None;
  next_playlists := fun _ => Returns None;
  playlist_tracks := fun _ => Returns (Some Sample.sp_page_lost);
  next_tracks := fun page => Returns (Some page);
  search := fun _ _ => Returns [];
  user_playlist_create := fun _ _ _ => Raises;
  playlist_add_items := fun _ _ => Raises
|}.

End SampleUrl.

(** * Properties *)

(** ** Strings *)

Lemma str_eqb_eq (a b : str) : str_eqb a b = true <-> a = b.
Proof.
  revert b; induction a as [|x a IH]; intros [|y b]; simpl;
    try (split; [discriminate|discriminate]); [tauto|].
  rewrite andb_true_iff, N.eqb_eq, IH.
  split; [intros [-> ->]; reflexivity | intros [= -> ->]; auto].
Qed.

Lemma startswith_spec (p s : str) :
  startswith p s = true <-> exists after, s = p ++ after.
Proof.
  revert s; induction p as [|x p IH]; intros s; simpl.
  - split; [intros _; now exists s | reflexivity].
  - destruct s as [|y s].
    + split; [discriminate | intros [after H]; discriminate].
    + rewrite andb_true_iff, N.eqb_eq, IH. split.
      * intros [-> [after ->]]. now exists after.
      * intros [after [= -> ->]]. split; [reflexivity | now exists after].
Qed.

Lemma str_in_spec (a b : str) : str_in a b = true <-> Substring a b.
Proof.
  unfold Substring. induction b as [|y b IH]; simpl.
  - rewrite orb_false_r, startswith_spec. split.
    + intros [after H]. exists [], after. exact H.
    + intros [[|z before] [after H]]; [now exists after | discriminate].
  - rewrite orb_true_iff, startswith_spec, IH. split.
    + intros [[after H] | [before [after H]]].
      * exists [], after. exact H.
      * exists (y :: before), after. simpl. now rewrite H.
    + intros [[|z before] [after H]].
      * left. now exists after.
      * right. injection H as _ H. now exists before, after.
Qed.

Lemma either_in_spec (a b : str) : either_in a b = true <-> Contained a b.
Proof.
  unfold either_in, Contained.
  now rewrite orb_true_iff, !str_in_spec.
Qed.

Lemma kept_of_alnum_or_space U (c : char) :
  isalnum U c || isspace U c = true -> kept U c = true.
Proof.
  unfold kept, is_word. intros H.
  apply orb_true_iff in H as [-> | ->]; [reflexivity | apply orb_true_r].
Qed.

Lemma clean_all_kept U (s : str) : forallb (kept U) (clean U s) = true.
Proof.
  unfold clean. induction s as [|c s IH]; simpl; [reflexivity|].
  destruct (kept U c) eqn:E; simpl; [now rewrite E|exact IH].
Qed.

Lemma clean_fixed U (s : str) : forallb (kept U) s = true -> clean U s = s.
Proof.
  unfold clean. induction s as [|c s IH]; simpl; [reflexivity|].
  intros H. apply andb_true_iff in H as [-> Hs]. now rewrite IH.
Qed.

(** C7. A string made only of alphanumeric and whitespace characters is
    left unchanged by the normalization [re.sub(r'[^\w\s]', '', s)], and
    normalizing twice is the same as normalizing once. *)
Theorem clean_idempotent U (s : str) :
  (forallb (fun c => isalnum U c || isspace U c) s = true -> clean U s = s)
  /\ clean U (clean U s) = clean U s.
Proof.
  split.
  - intros H. apply clean_fixed.
    apply forallb_forall. intros c Hc.
    apply kept_of_alnum_or_space.
    exact (proj1 (forallb_forall _ _) H c Hc).
  - apply clean_fixed, clean_all_kept.
Qed.

Lemma clean_idempotent_witness :
  clean ascii_data (py "Hey Jude 1968") = py "Hey Jude 1968"
  /\ clean ascii_data (clean ascii_data (py "Don't Stop (Live)"))
     = clean ascii_data (py "Don't Stop (Live)").
Proof.
  split.
  - apply (proj1 (clean_idempotent ascii_data (py "Hey Jude 1968"))).
    reflexivity.
  - apply (proj2 (clean_idempotent ascii_data (py "Don't Stop (Live)"))).
Defined.

(** ** Track matching *)

Lemma dz_scan_find U (ct ca : str) (candidates : list DzTrackJson) :
  dz_scan U ct ca candidates
  = option_map dz_found_of (find (dz_matches U ct ca) candidates).
Proof.
  induction candidates as [|track rest IH]; simpl; [reflexivity|].
  destruct (dz_matches U ct ca track); [reflexivity | exact IH].
Qed.

Lemma sp_scan_find U (ct ca : str) (candidates : list SpTrackJson) :
  sp_scan U ct ca candidates
  = option_map sp_found_of (find (sp_matches U ct ca) candidates).
Proof.
  induction candidates as [|track rest IH]; simpl; [reflexivity|].
  destruct (sp_matches U ct ca track); [reflexivity | exact IH].
Qed.

Lemma search_deezer_track_some U dz (title artist : str) first rest :
  get_search dz (deezer_query U title artist) 5
  = Response 200 (Some {| search_data := Some (first :: rest) |}) ->
  search_deezer_track U dz title artist
  = Some (dz_found_of
            (first_passing_or_first
               (dz_matches U (clean U title) (clean U artist)) first rest)).
Proof.
  intros H. unfold search_deezer_track, first_passing_or_first. cbv zeta.
  rewrite H. change (200 =? 200)%Z with true. cbn [search_data].
  rewrite dz_scan_find.
  destruct (find _ (first :: rest)); reflexivity.
Qed.

Lemma search_spotify_track_some U sp (title artist : str) first rest :
  search sp (spotify_query U title artist) 5 = Returns (first :: rest) ->
  search_spotify_track U (Some sp) title artist
  = Some (sp_found_of
            (first_passing_or_first
               (sp_matches U (clean U title) (clean U artist)) first rest)).
Proof.
  intros H. unfold search_spotify_track, first_passing_or_first. cbv zeta.
  rewrite H, sp_scan_find.
  destruct (find _ (first :: rest)); reflexivity.
Qed.

Lemma find_first_such (A : Type) (f : A -> bool) (P : A -> Prop)
      (l : list A) :
  (forall x, f x = true <-> P x) ->
  match find f l with
  | Some c => FirstSuch P l c
  | None => Forall (fun x => ~ P x) l
  end.
Proof.
  intros Hf. induction l as [|x l IH]; simpl; [constructor|].
  destruct (f x) eqn:E.
  - exists [], l. repeat split; [constructor | now apply Hf].
  - assert (Hx : ~ P x) by (rewrite <- Hf, E; discriminate).
    destruct (find f l) as [c|].
    + destruct IH as (before & after & -> & Hb & Hc).
      exists (x :: before), after. repeat split; auto.
    + constructor; assumption.
Qed.

Lemma dz_matches_spec U (title artist : str) (track : DzTrackJson) :
  dz_matches U (clean U title) (clean U artist) track = true
  <-> DzPasses U title artist track.
Proof.
  unfold dz_matches, DzPasses.
  now rewrite andb_true_iff, !either_in_spec.
Qed.

Lemma sp_matches_spec U (title artist : str) (track : SpTrackJson) :
  sp_matches U (clean U title) (clean U artist) track = true
  <-> SpPasses U title artist track.
Proof.
  unfold sp_matches, SpPasses.
  rewrite andb_true_iff, either_in_spec, existsb_exists.
  split; intros [Ht Ha]; split; try exact Ht.
  - destruct Ha as (ta & Hin & Hta).
    apply in_map_iff in Hin as (a & <- & Hin).
    exists a. split; [exact Hin | now apply either_in_spec].
  - destruct Ha as (a & Hin & Ha).
    exists (lower U a). split; [now apply in_map | now apply either_in_spec].
Qed.

Lemma dz_found_carries (c : DzTrackJson) : DzCarries (dz_found_of c) c.
Proof. repeat split. Qed.

Lemma sp_found_carries (c : SpTrackJson) : SpCarries (sp_found_of c) c.
Proof. repeat split. Qed.

(** C1, as the code has it.  When the search returns a non-empty candidate
    sequence, [search_deezer_track] and [search_spotify_track] never return
    [None]: they return the dictionary of one of the candidates, with that
    candidate's id, title, artist(s), album and duration.  The candidate is
    the first one, in the order returned, that passes the code's
    containment test (the query's title and artist normalized and
    lower-cased, the candidate's lower-cased only), and the first
    candidate overall when none passes it. *)
Theorem search_track_never_none U :
  (forall dz title artist first rest,
      get_search dz (deezer_query U title artist) 5
      = Response 200 (Some {| search_data := Some (first :: rest) |}) ->
      search_deezer_track U dz title artist <> None
      /\ exists found c,
          search_deezer_track U dz title artist = Some found
          /\ DzCarries found c
          /\ (FirstSuch (DzPasses U title artist) (first :: rest) c
              \/ (Forall (fun t => ~ DzPasses U title artist t)
                         (first :: rest)
                  /\ c = first)))
  /\ (forall sp title artist first rest,
         search sp (spotify_query U title artist) 5
         = Returns (first :: rest) ->
         search_spotify_track U (Some sp) title artist <> None
         /\ exists found c,
             search_spotify_track U (Some sp) title artist = Some found
             /\ SpCarries found c
             /\ (FirstSuch (SpPasses U title artist) (first :: rest) c
                 \/ (Forall (fun t => ~ SpPasses U title artist t)
                            (first :: rest)
                     /\ c = first))).
Proof.
  split; intros ? title artist first rest H.
  - rewrite (search_deezer_track_some U _ title artist H).
    split; [discriminate|].
    unfold first_passing_or_first.
    pose proof (@find_first_such _
                  (dz_matches U (clean U title) (clean U artist)) _
                  (first :: rest) (dz_matches_spec U title artist)) as F.
    destruct (find _ (first :: rest)) as [c|]; do 2 eexists;
      (split; [reflexivity|]); (split; [apply dz_found_carries|]);
      [left | right]; auto.
  - rewrite (search_spotify_track_some U _ title artist H).
    split; [discriminate|].
    unfold first_passing_or_first.
    pose proof (@find_first_such _
                  (sp_matches U (clean U title) (clean U artist)) _
                  (first :: rest) (sp_matches_spec U title artist)) as F.
    destruct (find _ (first :: rest)) as [c|]; do 2 eexists;
      (split; [reflexivity|]); (split; [apply sp_found_carries|]);
      [left | right]; auto.
Qed.

Lemma search_track_never_none_witness :
  (search_deezer_track ascii_data
     (SampleUrl.deezer_answering
        [Sample.imagine; Sample.yesterday_remastered])
     (py "Yesterday") (py "The Beatles")
   = Some {| df_id := 11; df_title := py "Yesterday (Remastered 2009)";
             df_artist := py "The Beatles"; df_album := py "Album";
             df_duration := 180 |}
   /\ exists found c,
       search_deezer_track ascii_data
         (SampleUrl.deezer_answering
            [Sample.imagine; Sample.yesterday_remastered])
         (py "Yesterday") (py "The Beatles") = Some found
       /\ DzCarries found c
       /\ (FirstSuch (DzPasses ascii_data (py "Yesterday") (py "The Beatles"))
                     [Sample.imagine; Sample.yesterday_remastered] c
           \/ (Forall (fun t => ~ DzPasses ascii_data (py "Yesterday")
                                   (py "The Beatles") t)
                      [Sample.imagine; Sample.yesterday_remastered]
               /\ c = Sample.imagine)))
  /\ (search_spotify_track ascii_data (Some Sample.spotify)
        (py "Dreams") (py "Fleetwood Mac")
      = Some {| sf_id := py "s4"; sf_title := py "Dreams";
                sf_artists := [py "Stevie Nicks"; py "Fleetwood Mac"];
                sf_album := py "Album"; sf_duration := 257 |}
      /\ exists found c,
          search_spotify_track ascii_data (Some Sample.spotify)
            (py "Dreams") (py "Fleetwood Mac") = Some found
          /\ SpCarries found c
          /\ (FirstSuch (SpPasses ascii_data (py "Dreams")
                                  (py "Fleetwood Mac"))
                        [Sample.sp_dont_stop; Sample.sp_dreams] c
              \/ (Forall (fun t => ~ SpPasses ascii_data (py "Dreams")
                                      (py "Fleetwood Mac") t)
                         [Sample.sp_dont_stop; Sample.sp_dreams]
                  /\ c = Sample.sp_dont_stop))).
Proof.
  split; (split; [reflexivity|]).
  - apply (proj1 (search_track_never_none ascii_data)
             (SampleUrl.deezer_answering
                [Sample.imagine; Sample.yesterday_remastered])
             (py "Yesterday") (py "The Beatles")
             Sample.imagine [Sample.yesterday_remastered]).
    reflexivity.
  - apply (proj2 (search_track_never_none ascii_data) Sample.spotify
             (py "Dreams") (py "Fleetwood Mac")
             Sample.sp_dont_stop [Sample.sp_dreams]).
    reflexivity.
Defined.

(** C1 as the specification words it fails on the code, when the
    containment test is the specification's, which normalizes the
    candidate too.  For the query "Don't Stop" by "Fleetwood Mac" and the
    candidates "Imagine" (John Lennon) and "Don't Stop" (Fleetwood Mac), in
    that order, the first candidate passing that test is "Don't Stop"; the
    code, which keeps the candidate's apostrophe, finds none passing and
    returns the dictionary of "Imagine" as the fallback. *)
Lemma search_track_fallback_despite_match_counterexample :
  get_search (SampleUrl.deezer_answering [Sample.imagine; Sample.dont_stop])
    (deezer_query ascii_data (py "Don't Stop") (py "Fleetwood Mac")) 5
  = Response 200
      (Some {| search_data := Some [Sample.imagine; Sample.dont_stop] |})
  /\ FirstSuch
       (fun c => spec_matches ascii_data (py "Don't Stop")
                   (py "Fleetwood Mac") c = true)
       [Sample.imagine; Sample.dont_stop] Sample.dont_stop
  /\ exists found,
      search_deezer_track ascii_data
        (SampleUrl.deezer_answering [Sample.imagine; Sample.dont_stop])
        (py "Don't Stop") (py "Fleetwood Mac") = Some found
      /\ DzCarries found Sample.imagine
      /\ ~ DzCarries found Sample.dont_stop.
Proof.
  split; [reflexivity|]. split.
  - exists [Sample.imagine], []. split; [reflexivity|]. split.
    + constructor; [|constructor]. vm_compute. discriminate.
    + reflexivity.
  - eexists. split; [reflexivity|]. split.
    + repeat split.
    + intros (Hid & _). vm_compute in Hid. discriminate.
Qed.

(** C2, as the code has it.  Candidates are examined in the order returned
    and the one selected is the first for which the lower-cased candidate
    title and the normalized, lower-cased query title are one a substring
    of the other, and likewise the artist (on Spotify: one of the
    candidate's artists).  Only the query's title and artist are
    normalized; the candidate's are lower-cased as they come.  When no
    candidate passes, the first candidate is selected. *)
Theorem search_track_selects_first_contained U :
  (forall dz title artist first rest,
      get_search dz (deezer_query U title artist) 5
      = Response 200 (Some {| search_data := Some (first :: rest) |}) ->
      exists c,
        search_deezer_track U dz title artist = Some (dz_found_of c)
        /\ (FirstSuch (DzPasses U title artist) (first :: rest) c
            \/ (Forall (fun t => ~ DzPasses U title artist t) (first :: rest)
                /\ c = first)))
  /\ (forall sp title artist first rest,
         search sp (spotify_query U title artist) 5
         = Returns (first :: rest) ->
         exists c,
           search_spotify_track U (Some sp) title artist
           = Some (sp_found_of c)
           /\ (FirstSuch (SpPasses U title artist) (first :: rest) c
               \/ (Forall (fun t => ~ SpPasses U title artist t)
                          (first :: rest)
                   /\ c = first))).
Proof.
  split; intros ? title artist first rest H.
  - rewrite (search_deezer_track_some U _ title artist H).
    unfold first_passing_or_first.
    pose proof (@find_first_such _
                  (dz_matches U (clean U title) (clean U artist)) _
                  (first :: rest) (dz_matches_spec U title artist)) as F.
    destruct (find _ (first :: rest)) as [c|]; eexists; split;
      try reflexivity; [left | right]; auto.
  - rewrite (search_spotify_track_some U _ title artist H).
    unfold first_passing_or_first.
    pose proof (@find_first_such _
                  (sp_matches U (clean U title) (clean U artist)) _
                  (first :: rest) (sp_matches_spec U title artist)) as F.
    destruct (find _ (first :: rest)) as [c|]; eexists; split;
      try reflexivity; [left | right]; auto.
Qed.

Lemma search_track_selects_first_contained_witness :
  exists c,
    search_deezer_track ascii_data Sample.deezer
      (py "Yesterday") (py "The Beatles") = Some (dz_found_of c)
    /\ (FirstSuch (DzPasses ascii_data (py "Yesterday") (py "The Beatles"))
                  [Sample.yesterday_remastered] c
        \/ (Forall (fun t => ~ DzPasses ascii_data (py "Yesterday")
                                (py "The Beatles") t)
                   [Sample.yesterday_remastered]
            /\ c = Sample.yesterday_remastered)).
Proof.
  apply (proj1 (search_track_selects_first_contained ascii_data)
           Sample.deezer (py "Yesterday") (py "The Beatles")
           Sample.yesterday_remastered []).
  reflexivity.
Defined.

(** C2 as the specification words it fails on the code.  For the query
    "Don't Stop" by "Fleetwood Mac" and the candidates "Dreams" and
    "Don't Stop", the first candidate whose NORMALIZED title and artist
    pass the containment test is "Don't Stop"; the code compares the
    candidate's title with its apostrophe, finds no passing candidate and
    returns "Dreams". *)
Lemma search_track_normalized_candidate_counterexample :
  get_search Sample.deezer
    (deezer_query ascii_data (py "Don't Stop") (py "Fleetwood Mac")) 5
  = Response 200
      (Some {| search_data := Some [Sample.dreams; Sample.dont_stop] |})
  /\ find (spec_matches ascii_data (py "Don't Stop") (py "Fleetwood Mac"))
          [Sample.dreams; Sample.dont_stop]
     = Some Sample.dont_stop
  /\ search_deezer_track ascii_data Sample.deezer
       (py "Don't Stop") (py "Fleetwood Mac")
     = Some (dz_found_of Sample.dreams)
  /\ search_deezer_track ascii_data Sample.deezer
       (py "Don't Stop") (py "Fleetwood Mac")
     <> Some (dz_found_of Sample.dont_stop).
Proof.
  split; [reflexivity|]. split; [reflexivity|]. split; [reflexivity|].
  vm_compute. discriminate.
Qed.

(** ** Paginated listings *)

Lemma fold_left_append (A B : Type) (f : A -> list B) (l : list A)
      (acc : list B) :
  fold_left (fun acc x => acc ++ f x) l acc = acc ++ flat_map f l.
Proof.
  revert acc; induction l as [|x l IH]; intros acc; simpl.
  - now rewrite app_nil_r.
  - now rewrite IH, app_assoc.
Qed.

Lemma flat_map_singleton (A B : Type) (f : A -> B) (l : list A) :
  flat_map (fun x => [f x]) l = map f l.
Proof.
  induction l as [|x l IH]; simpl; [reflexivity | now rewrite IH].
Qed.

Lemma append_dz_tracks_app (tracks : list DzTrack) (page : DzPage) :
  append_dz_tracks tracks page = tracks ++ dz_page_tracks page.
Proof.
  unfold append_dz_tracks, dz_page_tracks.
  rewrite (fold_left_append (fun track => [dz_track_of track])).
  now rewrite flat_map_singleton.
Qed.

Lemma sp_item_tracks_step (acc : list SpTrack) (item : SpItem) :
  (if is_track_item item then
     match item_track item with
     | Some track => acc ++ [sp_track_of track]
     | None => acc
     end
   else acc) = acc ++ sp_item_tracks item.
Proof.
  unfold is_track_item, sp_item_tracks.
  destruct (item_track item) as [track|]; [|now rewrite app_nil_r].
  destruct (str_eqb (sp_type track) (py "track"));
    [reflexivity | now rewrite app_nil_r].
Qed.

Lemma append_sp_tracks_app (tracks : list SpTrack) (page : SpTracksPage) :
  append_sp_tracks tracks page = tracks ++ sp_page_tracks page.
Proof.
  unfold append_sp_tracks, sp_page_tracks.
  rewrite <- (fold_left_append sp_item_tracks).
  generalize tracks. induction (tp_items page) as [|item l IH]; intros acc;
    simpl; [reflexivity|].
  now rewrite sp_item_tracks_step, IH.
Qed.

Lemma dz_tracks_loop_done dz (fuel : nat) (url : option str)
      (tracks : list DzTrack) :
  truthy_opt url = false -> dz_tracks_loop dz fuel url tracks = Some tracks.
Proof.
  destruct url as [u|]; simpl; intros H.
  - destruct fuel; simpl; now rewrite H.
  - destruct fuel; reflexivity.
Qed.

(** Following a chain of pages spends one unit of fuel per page and
    appends each page's tracks in turn. *)
Lemma dz_tracks_loop_pages dz url pages url' :
  dz_pages dz url pages url' ->
  forall fuel tracks,
    dz_tracks_loop dz (List.length pages + fuel) url tracks
    = dz_tracks_loop dz fuel url' (tracks ++ flat_map dz_page_tracks pages).
Proof.
  induction 1 as [url | u page pages url' Hu Hget _ IH]; intros fuel tracks.
  - simpl. now rewrite app_nil_r.
  - cbn [List.length Nat.add dz_tracks_loop flat_map].
    rewrite Hu, Hget. change (200 =? 200)%Z with true. cbv match.
    now rewrite IH, append_dz_tracks_app, app_assoc.
Qed.

Lemma playlist_tracks_url_truthy (playlist_id : str) :
  truthy (playlist_tracks_url playlist_id) = true.
Proof. reflexivity. Qed.

Lemma sp_tracks_loop_pages sp results pages :
  sp_track_pages sp results pages ->
  forall fuel tracks,
    List.length pages <= fuel ->
    sp_tracks_loop fuel sp results tracks
    = Some (tracks ++ flat_map sp_page_tracks pages).
Proof.
  induction 1 as [| page Hlast | page results pages Hnext Hn _ IH];
    intros fuel tracks Hfuel.
  - destruct fuel; simpl; now rewrite app_nil_r.
  - destruct fuel as [|fuel]; [simpl in Hfuel; lia|].
    simpl. now rewrite Hlast, append_sp_tracks_app, app_nil_r.
  - destruct fuel as [|fuel]; [simpl in Hfuel; lia|].
    cbn [sp_tracks_loop flat_map]. rewrite Hnext, Hn.
    rewrite IH by (simpl in Hfuel; lia).
    now rewrite append_sp_tracks_app, app_assoc.
Qed.

Lemma get_deezer_playlist_tracks_pages dz playlist_id pages fuel :
  dz_serves dz (playlist_tracks_url playlist_id) pages ->
  List.length pages < fuel ->
  get_deezer_playlist_tracks dz fuel playlist_id
  = Some (flat_map dz_page_tracks pages).
Proof.
  intros Hserves Hfuel.
  unfold get_deezer_playlist_tracks.
  destruct pages as [|page pages].
  - destruct fuel as [|fuel]; [simpl in Hfuel; lia|].
    cbn [dz_tracks_loop]. rewrite playlist_tracks_url_truthy.
    simpl in Hserves.
    destruct (get_tracks dz (playlist_tracks_url playlist_id))
      as [|status [page|]] eqn:E; try reflexivity.
    + destruct (status =? 200)%Z eqn:E200.
      * apply Z.eqb_eq in E200. subst status.
        now destruct (Hserves page).
      * destruct (status =? 403)%Z, (status =? 404)%Z; reflexivity.
    + destruct (status =? 200)%Z, (status =? 403)%Z, (status =? 404)%Z;
        reflexivity.
  - destruct Hserves as (last & Hchain & Hlast).
    replace fuel with (List.length (page :: pages)
                       + (fuel - List.length (page :: pages))) by lia.
    rewrite (dz_tracks_loop_pages Hchain).
    now rewrite dz_tracks_loop_done.
Qed.

Lemma get_spotify_playlist_tracks_pages sp playlist_id pages fuel :
  sp_serves sp playlist_id pages ->
  List.length pages <= fuel ->
  get_spotify_playlist_tracks (Some sp) fuel playlist_id
  = Some (flat_map sp_page_tracks pages).
Proof.
  intros Hserves Hfuel.
  unfold get_spotify_playlist_tracks, sp_serves in *.
  destruct (playlist_tracks sp playlist_id) as [|results].
  - now subst pages.
  - now rewrite (sp_tracks_loop_pages Hserves).
Qed.

Lemma dz_page_tracks_listed (page : DzPage) :
  dz_page_tracks page = listed_dz_tracks page.
Proof.
  unfold dz_page_tracks, data_or_empty, listed_dz_tracks.
  destruct (page_data page); reflexivity.
Qed.

Lemma sp_page_tracks_listed (page : SpTracksPage) :
  sp_page_tracks page = listed_sp_tracks page.
Proof.
  unfold sp_page_tracks, listed_sp_tracks.
  apply flat_map_ext. intros [[object|]]; [|reflexivity].
  unfold sp_item_tracks, sp_track_of. cbn [item_track].
  destruct (str_eqb (sp_type object) (py "track")); [|reflexivity].
  destruct (sp_artists object); reflexivity.
Qed.

(** C4. When the platform returns the pages [pages] (any number of them,
    of any sizes, hence also of one fixed size), the listing returns the
    concatenation, in page order, of what each page holds: on Deezer one
    entry per track object of the page, in order, with that object's title,
    artist, album, duration and id; on Spotify one entry per item of type
    ['track'], in order, with that track's name, artists, album, duration in
    seconds and id.  Zero pages means that the first request yields no
    page. *)
Theorem playlist_tracks_concatenate_pages :
  (forall dz playlist_id pages fuel,
      dz_serves dz (playlist_tracks_url playlist_id) pages ->
      List.length pages < fuel ->
      get_deezer_playlist_tracks dz fuel playlist_id
      = Some (flat_map listed_dz_tracks pages))
  /\ (forall sp playlist_id pages fuel,
         sp_serves sp playlist_id pages ->
         List.length pages <= fuel ->
         get_spotify_playlist_tracks (Some sp) fuel playlist_id
         = Some (flat_map listed_sp_tracks pages)).
Proof.
  split; intros ? playlist_id pages fuel Hserves Hfuel.
  - rewrite (@get_deezer_playlist_tracks_pages _ _ _ _ Hserves Hfuel).
    apply f_equal, flat_map_ext. intros page. apply dz_page_tracks_listed.
  - rewrite (@get_spotify_playlist_tracks_pages _ _ _ _ Hserves Hfuel).
    apply f_equal, flat_map_ext. intros page. apply sp_page_tracks_listed.
Qed.

Lemma sample_deezer_pages :
  dz_pages Sample.deezer (Some (playlist_tracks_url (py "42")))
           [Sample.dz_page1; Sample.dz_page2] None.
Proof.
  apply dz_pages_cons; [reflexivity | reflexivity |].
  apply (@dz_pages_cons Sample.deezer (py "page2") Sample.dz_page2 [] None);
    [reflexivity | reflexivity |].
  apply dz_pages_nil.
Defined.

Lemma sample_spotify_pages :
  sp_track_pages Sample.spotify (Some Sample.sp_page1)
                 [Sample.sp_page1; Sample.sp_page2].
Proof.
  apply sp_track_pages_next with (results := Some Sample.sp_page2);
    [reflexivity | reflexivity |].
  apply sp_track_pages_last. reflexivity.
Defined.

Lemma playlist_tracks_concatenate_pages_witness :
  get_deezer_playlist_tracks Sample.deezer 3 (py "42")
  = Some [ {| dt_title := py "Dreams"; dt_artist := py "Fleetwood Mac";
              dt_album := py "Album"; dt_duration := 180;
              dt_deezer_id := 21 |};
           {| dt_title := py "Don't Stop"; dt_artist := py "Fleetwood Mac";
              dt_album := py "Album"; dt_duration := 180;
              dt_deezer_id := 22 |};
           {| dt_title := py "Imagine"; dt_artist := py "John Lennon";
              dt_album := py "Album"; dt_duration := 180;
              dt_deezer_id := 31 |} ]
  /\ get_spotify_playlist_tracks (Some Sample.spotify) 2 (py "any")
     = Some [ {| st_title := py "Yesterday"; st_artist := py "The Beatles";
                 st_artists := [py "The Beatles"]; st_album := py "Album";
                 st_duration := 125; st_spotify_id := py "s1" |};
              {| st_title := py "Imagine"; st_artist := py "John Lennon";
                 st_artists := [py "John Lennon"]; st_album := py "Album";
                 st_duration := 183; st_spotify_id := py "s2" |} ].
Proof.
  split.
  - refine (proj1 playlist_tracks_concatenate_pages Sample.deezer (py "42")
              [Sample.dz_page1; Sample.dz_page2] 3 _ _).
    + exists None. split; [exact sample_deezer_pages | reflexivity].
    + simpl; lia.
  - refine (proj2 playlist_tracks_concatenate_pages Sample.spotify (py "any")
              [Sample.sp_page1; Sample.sp_page2] 2 _ _).
    + exact sample_spotify_pages.
    + simpl; lia.
Defined.

(** Pages fetched before a failing one. *)
Lemma sp_tracks_loop_fetched sp first pages last :
  sp_fetched sp first pages last ->
  forall fuel tracks,
    sp_tracks_loop (List.length pages + fuel) sp (Some first) tracks
    = sp_tracks_loop fuel sp (Some last)
                     (tracks ++ flat_map sp_page_tracks pages).
Proof.
  induction 1 as [page | page page' pages last Hnext Hn _ IH];
    intros fuel tracks.
  - simpl. now rewrite app_nil_r.
  - cbn [List.length Nat.add sp_tracks_loop flat_map].
    rewrite Hnext, Hn, IH.
    now rewrite append_sp_tracks_app, app_assoc.
Qed.

(** C5, as the code has it.  In the Deezer listing, when the request for
    a page other than the first is answered with a status other than 200,
    403 and 404, the listing returns the tracks of the pages fetched so
    far.  When it is answered 403 or 404, when the request raises, or when
    the body of a 200 answer cannot be decoded, the listing returns the
    empty list; so does the Spotify listing when fetching a later page
    raises. *)
Theorem later_page_failure_outcome :
  (forall dz playlist_id pages u fuel,
      pages <> [] ->
      dz_pages dz (Some (playlist_tracks_url playlist_id)) pages (Some u) ->
      truthy u = true ->
      List.length pages < fuel ->
      (forall status body,
          get_tracks dz u = Response status body ->
          status <> 200%Z -> status <> 403%Z -> status <> 404%Z ->
          get_deezer_playlist_tracks dz fuel playlist_id
          = Some (flat_map dz_page_tracks pages))
      /\ (get_tracks dz u = Raised
          \/ get_tracks dz u = Response 200 None
          \/ (exists body, get_tracks dz u = Response 403 body)
          \/ (exists body, get_tracks dz u = Response 404 body) ->
          get_deezer_playlist_tracks dz fuel playlist_id = Some []))
  /\ (forall sp playlist_id first pages last fuel,
         playlist_tracks sp playlist_id = Returns (Some first) ->
         sp_fetched sp first pages last ->
         truthy_opt (tp_next last) = true ->
         next_tracks sp last = Raises ->
         List.length pages < fuel ->
         get_spotify_playlist_tracks (Some sp) fuel playlist_id = Some []).
Proof.
  split.
  - intros dz playlist_id pages u fuel _ Hchain Hu Hfuel.
    unfold get_deezer_playlist_tracks.
    replace fuel with (List.length pages + S (fuel - S (List.length pages)))
      by lia.
    rewrite (dz_tracks_loop_pages Hchain).
    cbn [dz_tracks_loop app]. rewrite Hu.
    split.
    + intros status body Hget H200 H403 H404. rewrite Hget.
      apply Z.eqb_neq in H200, H403, H404.
      now rewrite H200, H403, H404.
    + intros [Hget | [Hget | [[body Hget] | [body Hget]]]];
        rewrite Hget; reflexivity.
  - intros sp playlist_id first pages last fuel Hfirst Hchain Hnext Hraise
           Hfuel.
    unfold get_spotify_playlist_tracks. rewrite Hfirst.
    replace fuel with (List.length pages + S (fuel - S (List.length pages)))
      by lia.
    rewrite (sp_tracks_loop_fetched Hchain).
    cbn [sp_tracks_loop]. now rewrite Hnext, Hraise.
Qed.

Lemma sample_deezer_page_then (id link : string) :
  get_tracks Sample.deezer (playlist_tracks_url (py id))
  = Response 200 (Some (Sample.dz_page_then link)) ->
  dz_pages Sample.deezer (Some (playlist_tracks_url (py id)))
           [Sample.dz_page_then link] (Some (py link)).
Proof.
  intros H. apply dz_pages_cons; [reflexivity | exact H | apply dz_pages_nil].
Defined.

Lemma later_page_failure_outcome_witness :
  get_deezer_playlist_tracks Sample.deezer 2 (py "500")
  = Some (flat_map dz_page_tracks [Sample.dz_page_then "broken"])
  /\ get_deezer_playlist_tracks Sample.deezer 2 (py "down") = Some []
  /\ get_spotify_playlist_tracks (Some Sample.spotify) 1 (py "lost")
     = Some [].
Proof.
  split; [|split].
  - refine (proj1 (proj1 later_page_failure_outcome Sample.deezer (py "500")
                     [Sample.dz_page_then "broken"] (py "broken") 2
                     _ _ _ _) 500%Z None _ _ _ _);
      try discriminate; try reflexivity.
    + apply sample_deezer_page_then. reflexivity.
    + simpl; lia.
  - refine (proj2 (proj1 later_page_failure_outcome Sample.deezer (py "down")
                     [Sample.dz_page_then "unreachable"] (py "unreachable") 2
                     _ _ _ _) _);
      try discriminate; try reflexivity.
    + apply sample_deezer_page_then. reflexivity.
    + simpl; lia.
    + left. reflexivity.
  - apply (proj2 later_page_failure_outcome Sample.spotify (py "lost")
             Sample.sp_page_lost [] Sample.sp_page_lost 1);
      try reflexivity.
    + apply sp_fetched_here.
    + simpl; lia.
Defined.

(** C5 as the specification words it fails on the code: a playlist whose
    first page holds one track and whose second page is answered 403 (a
    non-2xx status), or whose second request raises (a transport failure),
    is listed as empty although one track had been accumulated. *)
Lemma later_page_failure_truncates_counterexample :
  dz_pages Sample.deezer (Some (playlist_tracks_url (py "403")))
           [Sample.dz_page_then "forbidden"] (Some (py "forbidden"))
  /\ get_tracks Sample.deezer (py "forbidden") = Response 403 None
  /\ is_2xx 403 = false
  /\ flat_map dz_page_tracks [Sample.dz_page_then "forbidden"]
     = [dz_track_of Sample.dreams]
  /\ get_deezer_playlist_tracks Sample.deezer 2 (py "403") = Some []
  /\ get_deezer_playlist_tracks Sample.deezer 2 (py "403")
     <> Some (flat_map dz_page_tracks [Sample.dz_page_then "forbidden"])
  /\ get_tracks Sample.deezer (py "unreachable") = Raised
  /\ get_deezer_playlist_tracks Sample.deezer 2 (py "down") = Some [].
Proof.
  split; [apply sample_deezer_page_then; reflexivity|].
  do 4 (split; [reflexivity|]).
  split; [vm_compute; discriminate|].
  split; reflexivity.
Qed.

(** ** What the Spotify listings leave out *)

Lemma sp_item_tracks_skipped (item : SpItem) :
  item_track item = None
  \/ (exists track, item_track item = Some track
                    /\ sp_type track <> py "track") ->
  sp_item_tracks item = [].
Proof.
  unfold sp_item_tracks. intros [-> | (track & -> & Htype)]; [reflexivity|].
  destruct (str_eqb (sp_type track) (py "track")) eqn:E; [|reflexivity].
  apply str_eqb_eq in E. contradiction.
Qed.

Lemma sp_item_tracks_kept (item : SpItem) (track : SpTrackJson) :
  item_track item = Some track -> sp_type track = py "track" ->
  sp_item_tracks item = [sp_track_of track].
Proof.
  unfold sp_item_tracks. intros -> ->. reflexivity.
Qed.

Lemma sp_item_tracks_length (items : list SpItem) :
  List.length (flat_map sp_item_tracks items)
  = List.length (filter is_track_item items).
Proof.
  induction items as [|item items IH]; simpl; [reflexivity|].
  rewrite length_app, IH.
  unfold sp_item_tracks, is_track_item.
  destruct (item_track item) as [track|]; [|reflexivity].
  destruct (str_eqb (sp_type track) (py "track")); reflexivity.
Qed.

Lemma flat_map_flat_map (A B C : Type) (f : A -> list B) (g : B -> list C)
      (l : list A) :
  flat_map g (flat_map f l) = flat_map (fun x => flat_map g (f x)) l.
Proof.
  induction l as [|x l IH]; simpl; [reflexivity|].
  now rewrite flat_map_app, IH.
Qed.

(** C9.  In the listing of a Spotify playlist, an item whose track is
    absent or whose type is not ['track'] contributes nothing and every
    other item contributes its track, in order; the listing is therefore
    as long as the number of track items, which can be less than the number
    of items the playlist holds (its reported total), as on the sample
    playlist: four items, two tracks listed. *)
Theorem spotify_listing_skips_non_tracks :
  (forall sp playlist_id pages fuel,
      sp_serves sp playlist_id pages ->
      List.length pages <= fuel ->
      exists tracks,
        get_spotify_playlist_tracks (Some sp) fuel playlist_id = Some tracks
        /\ tracks = flat_map sp_item_tracks (flat_map tp_items pages)
        /\ List.length tracks
           = List.length (filter is_track_item (flat_map tp_items pages))
        /\ List.length tracks <= List.length (flat_map tp_items pages))
  /\ (forall item,
         item_track item = None
         \/ (exists track, item_track item = Some track
                           /\ sp_type track <> py "track") ->
         sp_item_tracks item = [])
  /\ (forall item track,
         item_track item = Some track -> sp_type track = py "track" ->
         sp_item_tracks item = [sp_track_of track])
  /\ (exists sp playlist_id pages fuel tracks,
         sp_serves sp playlist_id pages
         /\ get_spotify_playlist_tracks (Some sp) fuel playlist_id
            = Some tracks
         /\ List.length tracks < List.length (flat_map tp_items pages)).
Proof.
  split; [|split; [|split]].
  - intros sp playlist_id pages fuel Hserves Hfuel.
    exists (flat_map sp_item_tracks (flat_map tp_items pages)).
    assert (E : flat_map sp_page_tracks pages
                = flat_map sp_item_tracks (flat_map tp_items pages))
      by (symmetry; apply flat_map_flat_map).
    rewrite <- E at 1.
    split; [now apply get_spotify_playlist_tracks_pages|].
    split; [reflexivity|].
    rewrite sp_item_tracks_length.
    split; [reflexivity | apply filter_length_le].
  - exact sp_item_tracks_skipped.
  - exact sp_item_tracks_kept.
  - exists Sample.spotify, (py "any"), [Sample.sp_page1; Sample.sp_page2], 2.
    eexists. split; [exact sample_spotify_pages|].
    split; [reflexivity | simpl; lia].
Qed.

Lemma spotify_listing_skips_non_tracks_witness :
  exists tracks,
    get_spotify_playlist_tracks (Some Sample.spotify) 2 (py "any")
    = Some tracks
    /\ tracks = flat_map sp_item_tracks
                  (flat_map tp_items [Sample.sp_page1; Sample.sp_page2])
    /\ List.length tracks
       = List.length
           (filter is_track_item
                   (flat_map tp_items [Sample.sp_page1; Sample.sp_page2]))
    /\ List.length tracks
       <= List.length (flat_map tp_items [Sample.sp_page1; Sample.sp_page2]).
Proof.
  apply (proj1 spotify_listing_skips_non_tracks Sample.spotify (py "any")
           [Sample.sp_page1; Sample.sp_page2] 2).
  - exact sample_spotify_pages.
  - simpl; lia.
Defined.

(** The playlists of [items] owned by [me], as the listing records them. *)
Lemma append_own_playlists_filter sp (me : str) (items : list SpPlaylistJson)
      (playlists : list SpPlaylist) :
  current_user sp = Returns me ->
  append_own_playlists sp items playlists
  = Returns (playlists
             ++ map sp_playlist_of
                  (filter (fun p => str_eqb (pl_owner_id p) me) items)).
Proof.
  intros Hme. revert playlists.
  induction items as [|playlist rest IH]; intros playlists; simpl.
  - now rewrite app_nil_r.
  - rewrite Hme. destruct (str_eqb (pl_owner_id playlist) me); rewrite IH.
    + simpl. now rewrite <- app_assoc.
    + reflexivity.
Qed.

Lemma sp_playlists_loop_pages sp (me : str) results pages :
  current_user sp = Returns me ->
  sp_playlist_pages sp results pages ->
  forall fuel playlists,
    List.length pages <= fuel ->
    sp_playlists_loop fuel sp results playlists
    = Some (playlists
            ++ map sp_playlist_of
                 (filter (fun p => str_eqb (pl_owner_id p) me)
                         (flat_map pp_items pages))).
Proof.
  intros Hme.
  induction 1 as [| page Hlast | page results pages Hnext Hn _ IH];
    intros fuel playlists Hfuel.
  - destruct fuel; simpl; now rewrite app_nil_r.
  - destruct fuel as [|fuel]; [simpl in Hfuel; lia|].
    cbn [sp_playlists_loop flat_map].
    rewrite (@append_own_playlists_filter sp me _ _ Hme), Hlast.
    now rewrite app_nil_r.
  - destruct fuel as [|fuel]; [simpl in Hfuel; lia|].
    cbn [sp_playlists_loop flat_map].
    rewrite (@append_own_playlists_filter sp me _ _ Hme), Hnext, Hn.
    rewrite IH by (simpl in Hfuel; lia).
    now rewrite filter_app, map_app, app_assoc.
Qed.

Lemma append_own_playlists_owned sp (items : list SpPlaylistJson) :
  forall playlists playlists',
    Forall (Owned sp) playlists ->
    append_own_playlists sp items playlists = Returns playlists' ->
    Forall (Owned sp) playlists'.
Proof.
  induction items as [|playlist rest IH]; intros playlists playlists' Hall;
    simpl.
  - now intros [= <-].
  - destruct (current_user sp) as [|me] eqn:Hme; [discriminate|].
    destruct (str_eqb (pl_owner_id playlist) me) eqn:E; [|now apply IH].
    apply IH. apply Forall_app. split; [exact Hall|].
    constructor; [|constructor].
    exists me, playlist. apply str_eqb_eq in E. auto.
Qed.

Lemma sp_playlists_loop_owned sp (fuel : nat) :
  forall results playlists listed,
    Forall (Owned sp) playlists ->
    sp_playlists_loop fuel sp results playlists = Some listed ->
    Forall (Owned sp) listed.
Proof.
  induction fuel as [|fuel IH]; intros [page|] playlists listed Hall; simpl;
    try discriminate; try (now intros [= <-]).
  destruct (append_own_playlists sp (pp_items page) playlists)
    as [|playlists'] eqn:E; [now intros [= <-]|].
  pose proof (append_own_playlists_owned _ Hall E) as Hall'.
  destruct (truthy_opt (pp_next page)); [|now intros [= <-]].
  destruct (next_playlists sp page) as [|results']; [now intros [= <-]|].
  now apply IH.
Qed.

(** C10.  [get_spotify_playlists] lists only playlists whose owner id is
    the id of the current user: whenever it returns, every listed playlist
    comes from an item owned by the current user; and when the client
    returns the pages [pages], the listing is exactly the owned playlists of
    those pages in order, the playlists of other owners (followed ones)
    being left out. *)
Theorem spotify_playlists_only_owned :
  (forall spotify fuel listed,
      get_spotify_playlists spotify fuel = Some listed ->
      forall p, In p listed ->
                exists sp, spotify = Some sp /\ Owned sp p)
  /\ (forall sp me results pages fuel,
         current_user sp = Returns me ->
         current_user_playlists sp 50 = Returns results ->
         sp_playlist_pages sp results pages ->
         List.length pages <= fuel ->
         get_spotify_playlists (Some sp) fuel
         = Some (map sp_playlist_of
                   (filter (fun p => str_eqb (pl_owner_id p) me)
                           (flat_map pp_items pages)))).
Proof.
  split.
  - intros [sp|] fuel listed; unfold get_spotify_playlists.
    + destruct (current_user_playlists sp 50) as [|results].
      * intros [= <-] p [].
      * intros Hloop p Hin. exists sp. split; [reflexivity|].
        assert (Hall : Forall (Owned sp) listed)
          by (eapply sp_playlists_loop_owned; [constructor | exact Hloop]).
        exact (proj1 (Forall_forall _ _) Hall p Hin).
    + intros [= <-] p [].
  - intros sp me results pages fuel Hme Hfirst Hpages Hfuel.
    unfold get_spotify_playlists. rewrite Hfirst.
    now rewrite (sp_playlists_loop_pages Hme Hpages).
Qed.

Lemma sample_playlist_pages :
  sp_playlist_pages Sample.spotify (Some Sample.pl_page1)
                    [Sample.pl_page1; Sample.pl_page2].
Proof.
  apply sp_playlist_pages_next with (results := Some Sample.pl_page2);
    [reflexivity | reflexivity |].
  apply sp_playlist_pages_last. reflexivity.
Defined.

Lemma spotify_playlists_only_owned_witness :
  get_spotify_playlists (Some Sample.spotify) 2
  = Some [sp_playlist_of Sample.mine; sp_playlist_of Sample.mine_too]
  /\ exists sp, Some Sample.spotify = Some sp
                /\ Owned sp (sp_playlist_of Sample.mine).
Proof.
  split.
  - apply (proj2 spotify_playlists_only_owned Sample.spotify (py "nino")
             (Some Sample.pl_page1) [Sample.pl_page1; Sample.pl_page2] 2).
    + reflexivity.
    + reflexivity.
    + exact sample_playlist_pages.
    + simpl; lia.
  - apply (proj1 spotify_playlists_only_owned (Some Sample.spotify) 2
             [sp_playlist_of Sample.mine; sp_playlist_of Sample.mine_too]).
    + reflexivity.
    + left. reflexivity.
Defined.

(** ** The authorization-code exchange *)

Lemma test_connection_true dz (self : DeezerOAuth) :
  test_connection dz self = true
  <-> exists tok user,
        access_token self = Some tok
        /\ truthy tok = true
        /\ get_user_me dz tok = Response 200 (Some user).
Proof.
  unfold test_connection.
  destruct (access_token self) as [tok|]; simpl.
  - destruct (truthy tok) eqn:Htok; simpl.
    + destruct (get_user_me dz tok) as [|status [user|]] eqn:Hget.
      * split; [discriminate | intros (? & ? & [= <-] & _ & H)].
        rewrite Hget in H. discriminate.
      * destruct (status =? 200)%Z eqn:E.
        -- apply Z.eqb_eq in E. subst status.
           split; [intros _; now exists tok, user|reflexivity].
        -- apply Z.eqb_neq in E.
           split; [discriminate | intros (? & ? & [= <-] & _ & H)].
           rewrite Hget in H. injection H as H _. contradiction.
      * destruct (status =? 200)%Z;
          (split; [discriminate | intros (? & ? & [= <-] & _ & H)]);
          rewrite Hget in H; discriminate.
    + split; [discriminate | intros (? & ? & [= <-] & H & _)].
      rewrite Htok in H. discriminate.
  - split; [discriminate | intros (? & ? & H & _); discriminate].
Qed.

(** C6, as the code has it.  The exchange succeeds exactly when there is
    an authorization code, the token end point answers 200 with an
    [access_token] field, and the connection test that follows
    ([/user/me] with that token) answers 200 with a decodable body.  On
    success the object holds the token.  A status other than 200 or a
    missing [access_token] field makes the exchange fail and leaves the
    object unchanged. *)
Theorem exchange_code_for_token_outcome dz (self : DeezerOAuth) :
  (fst (exchange_code_for_token dz self) = true
   <-> exists code body tok more user,
         authorization_code self = Some code
         /\ truthy code = true
         /\ get_token dz (app_id self) (app_secret self) code
            = Response 200 body
         /\ qs_get (py "access_token") body = Some (tok, more)
         /\ truthy tok = true
         /\ get_user_me dz tok = Response 200 (Some user)
         /\ access_token (snd (exchange_code_for_token dz self)) = Some tok)
  /\ (forall code status body,
         authorization_code self = Some code ->
         get_token dz (app_id self) (app_secret self) code
         = Response status body ->
         status <> 200%Z \/ qs_get (py "access_token") body = None ->
         exchange_code_for_token dz self = (false, self)).
Proof.
  unfold exchange_code_for_token. split.
  - split.
    + destruct (authorization_code self) as [code|]; simpl; [|discriminate].
      destruct (truthy code) eqn:Hcode; simpl; [|discriminate].
      destruct (get_token dz (app_id self) (app_secret self) code)
        as [|status body] eqn:Hget; simpl; [discriminate|].
      destruct (status =? 200)%Z eqn:E; simpl; [|discriminate].
      apply Z.eqb_eq in E. subst status.
      destruct (qs_get (py "access_token") body) as [[tok more]|] eqn:Hqs;
        simpl; [|discriminate].
      intros Ht.
      apply test_connection_true in Ht as (tok' & user & Ha & Htok & Hme).
      simpl in Ha. injection Ha as <-.
      exists code, body, tok, more, user. repeat split; auto.
    + intros (code & body & tok & more & user & Hc & Hcode & Hget & Hqs
              & Htok & Hme & _).
      rewrite Hc. simpl. rewrite Hcode. simpl. rewrite Hget.
      change (200 =? 200)%Z with true. cbv match. rewrite Hqs. simpl.
      apply test_connection_true. now exists tok, user.
  - intros code status body Hcode Hget Hbad. rewrite Hcode.
    destruct (truthy_opt (Some code)); simpl; [|reflexivity].
    rewrite Hget.
    destruct Hbad as [Hs | Hq].
    + apply Z.eqb_neq in Hs. now rewrite Hs.
    + rewrite Hq. now destruct (status =? 200)%Z.
Qed.

Lemma exchange_code_for_token_outcome_witness :
  fst (exchange_code_for_token Sample.deezer (Sample.oauth "fresh")) = true
  /\ exchange_code_for_token Sample.deezer (Sample.oauth "denied")
     = (false, Sample.oauth "denied").
Proof.
  split.
  - apply (proj1 (exchange_code_for_token_outcome Sample.deezer
                    (Sample.oauth "fresh"))).
    exists (py "fresh"), (Sample.token_body "tok"), (py "tok"), [],
      {| user_name := Some (py "Nino") |}.
    repeat split; reflexivity.
  - apply (proj2 (exchange_code_for_token_outcome Sample.deezer
                    (Sample.oauth "denied"))
             (py "denied") 400%Z []).
    + reflexivity.
    + reflexivity.
    + left. discriminate.
Defined.

(** C6 as the specification words it fails on the code: the token end
    point answers 200 (a 2xx status) with an [access_token] field, and the
    exchange still fails, because the connection test on the new token is
    answered 401. *)
Lemma exchange_fails_with_token_counterexample :
  get_token Sample.deezer (py "app") (py "secret") (py "stale")
  = Response 200 (Sample.token_body "old")
  /\ is_2xx 200 = true
  /\ qs_get (py "access_token") (Sample.token_body "old")
     = Some (py "old", [])
  /\ fst (exchange_code_for_token Sample.deezer (Sample.oauth "stale"))
     = false.
Proof.
  split; [reflexivity|]. split; [reflexivity|]. split; reflexivity.
Qed.

(** ** Playlist creation *)

Lemma ceil_div_step (d : nat) :
  0 < d -> ceil_div d 100 = S (ceil_div (d - 100) 100).
Proof.
  unfold ceil_div. intros Hd.
  destruct (le_lt_dec d 100) as [Hle | Hgt].
  - replace (d - 100) with 0 by lia.
    change ((0 + 100 - 1) / 100) with 0.
    symmetry. apply Nat.div_unique with (r := d - 1); lia.
  - replace (d + 100 - 1) with (1 * 100 + (d - 100 + 100 - 1)) by lia.
    rewrite Nat.div_add_l by discriminate. reflexivity.
Qed.

Lemma range_from_length (fuel start stop : nat) :
  stop - start <= fuel ->
  List.length (range_from fuel start stop 100) = ceil_div (stop - start) 100.
Proof.
  revert start. induction fuel as [|fuel IH]; intros start Hfuel;
    cbn [range_from].
  - replace (stop - start) with 0 by lia. reflexivity.
  - destruct (start <? stop) eqn:E.
    + apply Nat.ltb_lt in E. cbn [List.length].
      rewrite IH by lia. rewrite (@ceil_div_step (stop - start)) by lia.
      do 2 f_equal. lia.
    + apply Nat.ltb_ge in E.
      replace (stop - start) with 0 by lia. reflexivity.
Qed.

Lemma range_from_below (fuel start stop : nat) :
  Forall (fun i => i < stop) (range_from fuel start stop 100).
Proof.
  revert start. induction fuel as [|fuel IH]; intros start; simpl;
    [constructor|].
  destruct (start <? stop) eqn:E; [|constructor].
  apply Nat.ltb_lt in E. constructor; [exact E | apply IH].
Qed.

(** The slices taken at the starts of the range tile the list. *)
Lemma range_from_slices (A : Type) (l : list A) (fuel start : nat) :
  List.length l - start <= fuel ->
  List.concat (map (fun i => slice l i (i + 100))
              (range_from fuel start (List.length l) 100))
  = skipn start l.
Proof.
  revert start. induction fuel as [|fuel IH]; intros start Hfuel; simpl.
  - symmetry. apply skipn_all2. lia.
  - destruct (start <? List.length l) eqn:E.
    + simpl. rewrite IH by lia. unfold slice.
      replace (start + 100 - start) with 100 by lia.
      replace (start + 100) with (100 + start) by lia.
      rewrite <- skipn_skipn. apply firstn_skipn.
    + apply Nat.ltb_ge in E. symmetry. apply skipn_all2. exact E.
Qed.

Lemma slice_length (A : Type) (l : list A) (i : nat) :
  i < List.length l ->
  1 <= List.length (slice l i (i + 100)) <= 100.
Proof.
  intros Hi. unfold slice.
  rewrite length_firstn, length_skipn. lia.
Qed.

Lemma add_batches_all_return sp (playlist_id : str) (track_ids : list str)
      (starts : list nat) :
  (forall batch, playlist_add_items sp playlist_id batch <> Raises) ->
  add_batches sp playlist_id track_ids starts
  = (true, map (fun i => (playlist_id, slice track_ids i (i + 100))) starts).
Proof.
  intros Hadd. induction starts as [|i rest IH]; simpl; [reflexivity|].
  destruct (playlist_add_items sp playlist_id (slice track_ids i (i + 100)))
    eqn:E; [now apply Hadd in E|].
  now rewrite IH.
Qed.

(** C3, as the code has it.  When the playlist itself is created (Spotify:
    [current_user] and [user_playlist_create] return and no
    [playlist_add_items] call raises; Deezer: the creation is answered 200
    with a non-zero id), creating a playlist with K track ids makes
    exactly ceil(K/100) [playlist_add_items] calls on Spotify, each with
    between 1 and 100 ids and together carrying the ids in order, and on
    Deezer exactly one add-tracks request when K > 0 and none when K = 0. *)
Theorem create_playlist_add_calls :
  (forall sp name track_ids user_id playlist_id,
      current_user sp = Returns user_id ->
      user_playlist_create sp user_id name false = Returns playlist_id ->
      (forall batch, playlist_add_items sp playlist_id batch <> Raises) ->
      fst (create_spotify_playlist (Some sp) name track_ids) = true
      /\ List.length (snd (create_spotify_playlist (Some sp) name track_ids))
         = ceil_div (List.length track_ids) 100
      /\ List.concat (map snd (snd (create_spotify_playlist (Some sp) name
                                 track_ids)))
         = track_ids
      /\ Forall (fun call => fst call = playlist_id
                             /\ 1 <= List.length (snd call) <= 100)
                (snd (create_spotify_playlist (Some sp) name track_ids)))
  /\ (forall dz token name track_ids playlist_id,
         truthy token = true ->
         post_playlist dz name token
         = Response 200 (Some {| created_id := Some playlist_id |}) ->
         playlist_id <> 0%Z ->
         snd (create_deezer_playlist dz (Some token) name track_ids)
         = match track_ids with
           | [] => []
           | _ :: _ => [(playlist_id, songs_of track_ids)]
           end).
Proof.
  split.
  - intros sp name track_ids user_id playlist_id Huser Hcreate Hadd.
    unfold create_spotify_playlist. rewrite Huser, Hcreate.
    destruct track_ids as [|t ids]; [repeat split; constructor|].
    rewrite (@add_batches_all_return sp playlist_id _ _ Hadd).
    set (l := t :: ids). unfold range. cbn [fst snd].
    rewrite length_map, map_map. cbn [snd].
    split; [reflexivity|]. split; [|split].
    + rewrite range_from_length by lia. now rewrite Nat.sub_0_r.
    + rewrite range_from_slices by lia. reflexivity.
    + apply Forall_map.
      eapply Forall_impl; [|apply range_from_below].
      intros i Hi. cbn [fst snd]. split; [reflexivity|].
      now apply slice_length.
  - intros dz token name track_ids playlist_id Htoken Hpost Hid.
    unfold create_deezer_playlist. rewrite Htoken, Hpost.
    change (200 =? 200)%Z with true. cbn [negb created_id].
    destruct track_ids as [|t ids]; [reflexivity|].
    apply Z.eqb_neq in Hid. rewrite Hid.
    destruct (post_tracks dz playlist_id (songs_of (t :: ids)) token);
      reflexivity.
Qed.

Lemma create_playlist_add_calls_witness :
  (fst (create_spotify_playlist (Some Sample.spotify) (py "mix")
          (Sample.ids 250)) = true
   /\ List.length (snd (create_spotify_playlist (Some Sample.spotify)
                          (py "mix") (Sample.ids 250)))
      = ceil_div (List.length (Sample.ids 250)) 100
   /\ List.concat (map snd (snd (create_spotify_playlist (Some Sample.spotify)
                              (py "mix") (Sample.ids 250))))
      = Sample.ids 250
   /\ Forall (fun call => fst call = py "new"
                          /\ 1 <= List.length (snd call) <= 100)
             (snd (create_spotify_playlist (Some Sample.spotify)
                     (py "mix") (Sample.ids 250))))
  /\ snd (create_deezer_playlist Sample.deezer (Some (py "tok")) (py "mix")
            [11; 22; 31]%Z)
     = [(7%Z, songs_of [11; 22; 31]%Z)].
Proof.
  split.
  - apply (proj1 create_playlist_add_calls Sample.spotify (py "mix")
             (Sample.ids 250) (py "nino") (py "new")).
    + reflexivity.
    + reflexivity.
    + intros batch. discriminate.
  - apply (proj2 create_playlist_add_calls Sample.deezer (py "tok")
             (py "mix") [11; 22; 31]%Z 7%Z).
    + reflexivity.
    + reflexivity.
    + discriminate.
Defined.

(** C3 as the specification words it fails on the code.  With 250 ids and
    a client whose [playlist_add_items] raises, the Spotify creation makes
    one call, not ceil(250/100) = 3: the loop ends at the first failure.
    With one id and a creation response that carries no id, the Deezer
    creation sends no add-tracks request, not one. *)
Lemma create_playlist_add_calls_counterexample :
  List.length (snd (create_spotify_playlist
                      (Some (Sample.spotify_with false)) (py "mix")
                      (Sample.ids 250))) = 1
  /\ ceil_div (List.length (Sample.ids 250)) 100 = 3
  /\ snd (create_deezer_playlist Sample.deezer (Some (py "tok"))
            (py "no id") [11%Z]) = []
  /\ List.length [11%Z] > 0.
Proof.
  split; [vm_compute; reflexivity|]. split; [vm_compute; reflexivity|].
  split; [vm_compute; reflexivity | simpl; lia].
Qed.

(** ** The conversion loops *)

Lemma resolve_on_deezer_fold U dz (tracks : list SpTrack)
      (found_tracks : list Z) (not_found : list str) :
  fold_left (resolve_on_deezer U dz) tracks (found_tracks, not_found)
  = (found_tracks ++ flat_map (dz_resolved U dz) tracks,
     not_found ++ flat_map (dz_unresolved U dz) tracks).
Proof.
  revert found_tracks not_found.
  induction tracks as [|track tracks IH]; intros found_tracks not_found;
    simpl.
  - now rewrite !app_nil_r.
  - unfold dz_resolved at 1, dz_unresolved at 1.
    destruct (search_deezer_track U dz (st_title track) (st_artist track));
      rewrite IH; simpl; now rewrite <- ?app_assoc.
Qed.

(** The loop of [convert_deezer_to_spotify] goes through when no found
    track lacks artists, and then appends each track's contribution. *)
Lemma resolve_all_on_spotify_returns U spotify (tracks : list DzTrack)
      (found_tracks not_found : list str) :
  existsb (finds_artistless U spotify) tracks = false ->
  resolve_all_on_spotify U spotify tracks (found_tracks, not_found)
  = Returns (found_tracks ++ flat_map (sp_resolved U spotify) tracks,
             not_found ++ flat_map (sp_unresolved U spotify) tracks).
Proof.
  revert found_tracks not_found.
  induction tracks as [|track tracks IH]; intros found_tracks not_found;
    simpl.
  - intros _. now rewrite !app_nil_r.
  - intros H. apply orb_false_iff in H as [Htrack Hrest].
    unfold finds_artistless in Htrack.
    unfold sp_resolved at 1, sp_unresolved at 1.
    destruct (search_spotify_track U spotify (dt_title track)
                (dt_artist track)) as [found|].
    + destruct (sf_artists found); [discriminate|].
      rewrite (IH _ _ Hrest). simpl. now rewrite <- app_assoc.
    + rewrite (IH _ _ Hrest). simpl. now rewrite <- app_assoc.
Qed.

(** It raises as soon as a found track lacks artists. *)
Lemma resolve_all_on_spotify_raises U spotify (tracks : list DzTrack)
      (acc : list str * list str) :
  existsb (finds_artistless U spotify) tracks = true ->
  resolve_all_on_spotify U spotify tracks acc = Raises.
Proof.
  revert acc. induction tracks as [|track tracks IH]; intros [f nf]; simpl;
    [discriminate|].
  unfold finds_artistless at 1.
  destruct (search_spotify_track U spotify (dt_title track)
              (dt_artist track)) as [found|].
  - destruct (sf_artists found); [reflexivity|]. simpl. apply IH.
  - simpl. apply IH.
Qed.

(** Each track lands on exactly one side. *)
Lemma classified_length (A B C : Type) (f : A -> list B) (g : A -> list C)
      (l : list A) :
  (forall x, List.length (f x) + List.length (g x) = 1) ->
  List.length l
  = List.length (flat_map f l) + List.length (flat_map g l).
Proof.
  intros H. induction l as [|x l IH]; simpl; [reflexivity|].
  rewrite !length_app, IH. specialize (H x). lia.
Qed.

Lemma dz_classified U dz (track : SpTrack) :
  List.length (dz_resolved U dz track)
  + List.length (dz_unresolved U dz track) = 1.
Proof.
  unfold dz_resolved, dz_unresolved.
  destruct (search_deezer_track U dz (st_title track) (st_artist track));
    reflexivity.
Qed.

Lemma sp_classified U spotify (track : DzTrack) :
  List.length (sp_resolved U spotify track)
  + List.length (sp_unresolved U spotify track) = 1.
Proof.
  unfold sp_resolved, sp_unresolved.
  destruct (search_spotify_track U spotify (dt_title track)
              (dt_artist track));
    reflexivity.
Qed.

(** C8, at the input on which the code breaks it.  The Deezer playlist
    holds "Dreams", "Don't Stop" and "Imagine"; for "Imagine" the Spotify
    search returns one candidate, which has no artist.  The candidate is
    returned as the fallback match, [convert_deezer_to_spotify] appends its
    id and then evaluates [spotify_track['artists'][0]] for its message:
    the run ends in an exception and delivers neither list, so the three
    source tracks are not classified. *)
Theorem convert_deezer_to_spotify_crashes_on_artistless_match :
  option_map (map dt_title)
             (get_deezer_playlist_tracks Sample.deezer 3 (py "42"))
  = Some [py "Dreams"; py "Don't Stop"; py "Imagine"]
  /\ option_map sf_artists
       (search_spotify_track ascii_data (Some SampleUrl.spotify_artistless)
          (py "Imagine") (py "John Lennon"))
     = Some []
  /\ convert_deezer_to_spotify ascii_data Sample.deezer
       (Some SampleUrl.spotify_artistless) 3 (py "42") None 0
     = Some Crashed.
Proof.
  split; [reflexivity|]. split; reflexivity.
Qed.

(** X23.  A conversion run that gets a non-empty source listing and goes
    through puts every source track either in the resolved ids (the id of
    the track the search returned) or in the unresolved labels (when the
    search returned nothing), never in both: the two lists are the
    per-track contributions concatenated in source order, and the number
    of source tracks is the number of resolved ids plus the number of
    unresolved labels.  A Spotify-to-Deezer run always goes through; a
    Deezer-to-Spotify run goes through exactly when no track found has an
    empty artist list, and ends in an exception otherwise. *)
Theorem completed_conversion_classifies_every_track
        U dz spotify deezer_access_token :
  (forall fuel playlist_id name now tracks,
      get_spotify_playlist_tracks spotify fuel playlist_id = Some tracks ->
      tracks <> [] ->
      exists found_tracks not_found created,
        convert_spotify_to_deezer U dz spotify deezer_access_token fuel
          playlist_id name now
        = Some (Converted found_tracks not_found created)
        /\ found_tracks = flat_map (dz_resolved U dz) tracks
        /\ not_found = flat_map (dz_unresolved U dz) tracks
        /\ List.length tracks
           = List.length found_tracks + List.length not_found)
  /\ (forall fuel playlist_id name now tracks,
         get_deezer_playlist_tracks dz fuel playlist_id = Some tracks ->
         tracks <> [] ->
         existsb (finds_artistless U spotify) tracks = false ->
         exists found_tracks not_found created,
           convert_deezer_to_spotify U dz spotify fuel playlist_id name now
           = Some (Converted found_tracks not_found created)
           /\ found_tracks = flat_map (sp_resolved U spotify) tracks
           /\ not_found = flat_map (sp_unresolved U spotify) tracks
           /\ List.length tracks
              = List.length found_tracks + List.length not_found)
  /\ (forall fuel playlist_id name now tracks,
         get_deezer_playlist_tracks dz fuel playlist_id = Some tracks ->
         existsb (finds_artistless U spotify) tracks = true ->
         convert_deezer_to_spotify U dz spotify fuel playlist_id name now
         = Some Crashed)
  /\ (forall track,
         List.length (dz_resolved U dz track)
         + List.length (dz_unresolved U dz track) = 1)
  /\ (forall track,
         List.length (sp_resolved U spotify track)
         + List.length (sp_unresolved U spotify track) = 1).
Proof.
  split; [|split; [|split; [|split]]].
  - intros fuel playlist_id name now tracks Hlist Hne.
    unfold convert_spotify_to_deezer. rewrite Hlist.
    destruct tracks as [|track tracks]; [contradiction|].
    rewrite resolve_on_deezer_fold. cbn [app].
    set (found_tracks := flat_map (dz_resolved U dz) (track :: tracks)).
    set (not_found := flat_map (dz_unresolved U dz) (track :: tracks)).
    assert (Hlen : List.length (track :: tracks)
                   = List.length found_tracks + List.length not_found)
      by (apply classified_length, dz_classified).
    destruct found_tracks eqn:E; eexists _, not_found, _;
      (split; [reflexivity|]); auto.
  - intros fuel playlist_id name now tracks Hlist Hne Hartists.
    unfold convert_deezer_to_spotify. rewrite Hlist.
    destruct tracks as [|track tracks]; [contradiction|].
    rewrite (@resolve_all_on_spotify_returns U spotify (track :: tracks)
               [] [] Hartists).
    cbn [app].
    set (found_tracks := flat_map (sp_resolved U spotify) (track :: tracks)).
    set (not_found := flat_map (sp_unresolved U spotify) (track :: tracks)).
    assert (Hlen : List.length (track :: tracks)
                   = List.length found_tracks + List.length not_found)
      by (apply classified_length, sp_classified).
    destruct found_tracks eqn:E; eexists _, not_found, _;
      (split; [reflexivity|]); auto.
  - intros fuel playlist_id name now tracks Hlist Hartists.
    unfold convert_deezer_to_spotify. rewrite Hlist.
    destruct tracks as [|track tracks]; [discriminate|].
    now rewrite (@resolve_all_on_spotify_raises U spotify (track :: tracks)
                   ([], []) Hartists).
  - apply dz_classified.
  - apply sp_classified.
Qed.

Lemma completed_conversion_classifies_every_track_witness :
  (exists found_tracks not_found created,
      convert_spotify_to_deezer ascii_data Sample.deezer
        (Some Sample.spotify) (Some (py "tok")) 2 (py "any") None
        1700000000
      = Some (Converted found_tracks not_found created)
      /\ found_tracks
         = flat_map (dz_resolved ascii_data Sample.deezer)
             (flat_map sp_page_tracks [Sample.sp_page1; Sample.sp_page2])
      /\ not_found
         = flat_map (dz_unresolved ascii_data Sample.deezer)
             (flat_map sp_page_tracks [Sample.sp_page1; Sample.sp_page2])
      /\ List.length
           (flat_map sp_page_tracks [Sample.sp_page1; Sample.sp_page2])
         = List.length found_tracks + List.length not_found)
  /\ (exists found_tracks not_found created,
         convert_deezer_to_spotify ascii_data Sample.deezer
           (Some Sample.spotify) 3 (py "42") None 1700000000
         = Some (Converted found_tracks not_found created)
         /\ found_tracks
            = flat_map (sp_resolved ascii_data (Some Sample.spotify))
                (flat_map dz_page_tracks [Sample.dz_page1; Sample.dz_page2])
         /\ not_found
            = flat_map (sp_unresolved ascii_data (Some Sample.spotify))
                (flat_map dz_page_tracks [Sample.dz_page1; Sample.dz_page2])
         /\ List.length
              (flat_map dz_page_tracks [Sample.dz_page1; Sample.dz_page2])
            = List.length found_tracks + List.length not_found)
  /\ convert_deezer_to_spotify ascii_data Sample.deezer
       (Some SampleUrl.spotify_artistless) 3 (py "42") None 0
     = Some Crashed.
Proof.
  split; [|split].
  - apply (proj1 (completed_conversion_classifies_every_track ascii_data
                    Sample.deezer (Some Sample.spotify) (Some (py "tok")))).
    + reflexivity.
    + discriminate.
  - apply (proj1 (proj2 (completed_conversion_classifies_every_track
                           ascii_data Sample.deezer (Some Sample.spotify)
                           (Some (py "tok"))))).
    + reflexivity.
    + discriminate.
    + reflexivity.
  - apply (proj1 (proj2 (proj2 (completed_conversion_classifies_every_track
                                  ascii_data Sample.deezer
                                  (Some SampleUrl.spotify_artistless)
                                  (Some (py "tok")))))
             3 (py "42") None 0%Z
             (flat_map dz_page_tracks [Sample.dz_page1; Sample.dz_page2])).
    + reflexivity.
    + reflexivity.
Defined.

(** The scenario of the two Beatles-era tracks: "Yesterday" resolves to the
    remastered candidate through containment, "Imagine" has no candidate. *)
Example conversion_scenario :
  convert_spotify_to_deezer ascii_data Sample.deezer (Some Sample.spotify)
    (Some (py "tok")) 2 (py "any") (Some (py "Test")) 0
  = Some (Converted [11%Z] [py "John Lennon - Imagine"]
            (Some (true, [(7%Z, py "11")]))).
Proof. reflexivity. Qed.

(** ** Splitting strings *)

Lemma startswith_app (p s t : str) :
  startswith p s = true -> startswith p (s ++ t) = true.
Proof.
  intros H. apply startswith_spec in H as [after ->].
  apply startswith_spec. exists (after ++ t). now rewrite app_assoc.
Qed.

Lemma startswith_app_false (p s t : str) :
  startswith p s = false -> List.length p <= List.length s ->
  startswith p (s ++ t) = false.
Proof.
  revert s. induction p as [|x p IH]; intros [|y s]; simpl; intros H Hlen;
    try discriminate; try lia.
  destruct (x =? y)%N; simpl in *; [apply IH; [exact H | lia] | reflexivity].
Qed.

Lemma startswith_skipn (p s : str) :
  startswith p s = true -> s = p ++ skipn (List.length p) s.
Proof.
  revert s. induction p as [|x p IH]; intros [|y s]; simpl; intros H;
    try reflexivity; try discriminate.
  apply andb_true_iff in H as [Hxy H]. apply N.eqb_eq in Hxy. subst y.
  f_equal. now apply IH.
Qed.

Lemma str_in_nil_false (sep : str) : sep <> [] -> str_in sep [] = false.
Proof. destruct sep; [contradiction | reflexivity]. Qed.

Lemma split_at_none (sep s : str) :
  split_at sep s = None <-> str_in sep s = false.
Proof.
  induction s as [|c s IH]; simpl.
  - destruct (startswith sep []); simpl; split; congruence.
  - destruct (startswith sep (c :: s)); simpl; [split; discriminate|].
    rewrite <- IH. destruct (split_at sep s) as [[b a]|];
      split; congruence.
Qed.

Lemma split_at_some (sep s before after : str) :
  sep <> [] ->
  split_at sep s = Some (before, after) ->
  s = before ++ sep ++ after
  /\ str_in sep before = false
  /\ List.length after < List.length s.
Proof.
  intros Hsep. revert before after.
  induction s as [|c s IH]; intros before after; simpl.
  - destruct (startswith sep []) eqn:E; [|discriminate].
    destruct sep; [contradiction | discriminate].
  - destruct (startswith sep (c :: s)) eqn:E.
    + intros [= <- <-]. split; [|split].
      * now apply startswith_skipn.
      * now apply str_in_nil_false.
      * rewrite length_skipn. destruct sep; [contradiction|].
        simpl. lia.
    + destruct (split_at sep s) as [[b a]|]; [|discriminate].
      intros [= <- <-]. destruct (IH b a eq_refl) as (Hs & Hb & Hlen).
      split; [|split].
      * simpl. now rewrite <- Hs.
      * simpl. rewrite Hb, orb_false_r.
        destruct (startswith sep (c :: b)) eqn:Eb; [|reflexivity].
        rewrite Hs in E. change (c :: b ++ sep ++ a)
          with ((c :: b) ++ sep ++ a) in E.
        now rewrite (startswith_app _ _ _ Eb) in E.
      * simpl. lia.
Qed.

(** Before the first occurrence that [sep] has in [before ++ sep], nothing
    is cut. *)
Lemma split_at_first (sep before after : str) :
  sep <> [] ->
  str_in sep (before ++ removelast sep) = false ->
  split_at sep (before ++ sep ++ after) = Some (before, after).
Proof.
  intros Hsep. induction before as [|c before IH]; intros H.
  - simpl app.
    assert (E : startswith sep (sep ++ after) = true)
      by (apply startswith_spec; now exists after).
    destruct sep as [|x sep]; [contradiction|].
    simpl split_at. simpl in E. rewrite E.
    f_equal. f_equal.
    change (skipn (List.length (x :: sep)) ((x :: sep) ++ after) = after).
    now rewrite skipn_app, skipn_all, Nat.sub_diag.
  - simpl in H. apply orb_false_iff in H as [Hstart Hrest].
    change ((c :: before) ++ sep ++ after)
      with (c :: before ++ sep ++ after).
    simpl split_at. rewrite (IH Hrest).
    assert (E : startswith sep (c :: before ++ sep ++ after) = false).
    { rewrite (app_removelast_last 0%N Hsep) at 2.
      rewrite <- app_assoc, app_assoc.
      change (c :: (before ++ removelast sep) ++ [last sep 0%N] ++ after)
        with ((c :: before ++ removelast sep) ++ [last sep 0%N] ++ after).
      apply startswith_app_false; [exact Hstart|].
      simpl. rewrite length_app, removelast_firstn_len, length_firstn.
      destruct sep as [|x sep]; [contradiction|].
      simpl. lia. }
    now rewrite E.
Qed.

Lemma split_fuel_whole (fuel : nat) (sep s : str) :
  str_in sep s = false -> split_fuel fuel sep s = [s].
Proof.
  intros H. apply split_at_none in H.
  destruct fuel; simpl; [reflexivity | now rewrite H].
Qed.

Lemma split_fuel_nonempty (fuel : nat) (sep s : str) :
  split_fuel fuel sep s <> [].
Proof.
  destruct fuel; simpl; [discriminate|].
  destruct (split_at sep s) as [[b a]|]; discriminate.
Qed.

Lemma join_cons (sep p : str) (rest : list str) :
  rest <> [] -> join sep (p :: rest) = p ++ sep ++ join sep rest.
Proof. destruct rest; [contradiction | reflexivity]. Qed.

(** Joining the pieces with the separator gives the string back. *)
Lemma join_split_fuel (fuel : nat) (sep s : str) :
  sep <> [] -> join sep (split_fuel fuel sep s) = s.
Proof.
  intros Hsep. revert s. induction fuel as [|fuel IH]; intros s; simpl;
    [reflexivity|].
  destruct (split_at sep s) as [[b a]|] eqn:E; [|reflexivity].
  rewrite join_cons by apply split_fuel_nonempty.
  rewrite IH. symmetry. now apply (@split_at_some sep s b a Hsep E).
Qed.

(** No piece contains the separator. *)
Lemma split_fuel_pieces (fuel : nat) (sep s : str) :
  sep <> [] -> List.length s <= fuel ->
  Forall (fun piece => str_in sep piece = false) (split_fuel fuel sep s).
Proof.
  intros Hsep. revert s. induction fuel as [|fuel IH]; intros s Hlen; simpl.
  - destruct s; [|simpl in Hlen; lia].
    constructor; [now apply str_in_nil_false | constructor].
  - destruct (split_at sep s) as [[b a]|] eqn:E.
    + destruct (@split_at_some sep s b a Hsep E) as (_ & Hb & Ha).
      constructor; [exact Hb | apply IH; lia].
    + constructor; [now apply split_at_none | constructor].
Qed.

Lemma join_snoc (sep : str) (pieces : list str) (x : str) :
  pieces <> [] -> join sep (pieces ++ [x]) = join sep pieces ++ sep ++ x.
Proof.
  induction pieces as [|p pieces IH]; [contradiction|]. intros _.
  destruct pieces as [|q pieces]; [reflexivity|].
  rewrite <- app_comm_cons.
  rewrite join_cons by (simpl; discriminate).
  rewrite IH by discriminate.
  rewrite (@join_cons sep p (q :: pieces)) by discriminate.
  now rewrite <- !app_assoc.
Qed.

(** The last piece: free of the separator and, when the separator occurs,
    what follows one of its occurrences up to the end of the string. *)
Lemma split_last (sep s : str) :
  sep <> [] ->
  str_in sep (last (split sep s) []) = false
  /\ (str_in sep s = true ->
      exists before, s = before ++ sep ++ last (split sep s) []).
Proof.
  intros Hsep. unfold split.
  pose proof (@split_fuel_pieces (List.length s) sep s Hsep (le_n _)) as Hall.
  pose proof (@join_split_fuel (List.length s) sep s Hsep) as Hjoin.
  pose proof (@split_fuel_nonempty (List.length s) sep s) as Hne.
  destruct (exists_last Hne) as (pieces & x & E). rewrite E in *.
  rewrite last_last. split.
  - apply Forall_app in Hall as [_ Hx]. now inversion Hx.
  - intros Hin. destruct pieces as [|p pieces].
    + simpl in Hjoin. subst x.
      apply Forall_app in Hall as [_ Hx]. inversion Hx; congruence.
    + rewrite join_snoc in Hjoin by discriminate.
      now exists (join sep (p :: pieces)).
Qed.

(** The first piece: free of the separator and followed by nothing or by
    the separator. *)
Lemma split_hd (sep s : str) :
  sep <> [] ->
  str_in sep (hd [] (split sep s)) = false
  /\ exists after,
       s = hd [] (split sep s) ++ after
       /\ (after = [] \/ startswith sep after = true).
Proof.
  intros Hsep. unfold split. destruct s as [|c s].
  - simpl. split; [now apply str_in_nil_false|]. exists []. auto.
  - cbn [List.length split_fuel].
    destruct (split_at sep (c :: s)) as [[b a]|] eqn:E; cbn [hd].
    + destruct (@split_at_some sep (c :: s) b a Hsep E) as (Hs & Hb & _).
      split; [exact Hb|]. exists (sep ++ a). split; [exact Hs|].
      right. apply startswith_spec. now exists a.
    + split; [now apply split_at_none|]. exists []. rewrite app_nil_r. auto.
Qed.

Lemma str_in_char (c : char) (s : str) :
  str_in [c] s = false <-> ~ In c s.
Proof.
  induction s as [|y s IH]; simpl; [tauto|].
  rewrite orb_false_iff, IH, andb_true_r, N.eqb_neq. intuition congruence.
Qed.

(** Two ways of writing a string as something, then [c], then a piece
    without [c], agree on the piece. *)
Lemma after_last_char (c : char) (before before' piece piece' : str) :
  before ++ c :: piece = before' ++ c :: piece' ->
  ~ In c piece -> ~ In c piece' -> piece = piece'.
Proof.
  revert before'. induction before as [|x before IH]; intros [|y before'];
    simpl; intros E Hp Hp'.
  - now injection E.
  - injection E as -> ->. destruct Hp. apply in_or_app. right. now left.
  - injection E as -> <-. destruct Hp'. apply in_or_app. right. now left.
  - injection E as _ E. now apply (IH before').
Qed.

Lemma last_split_char (c : char) (before piece : str) :
  ~ In c piece -> last (split [c] (before ++ c :: piece)) [] = piece.
Proof.
  intros Hp.
  assert (Hsep : [c] <> []) by discriminate.
  destruct (@split_last [c] (before ++ c :: piece) Hsep) as (Hlast & Hex).
  destruct Hex as (before' & E).
  - apply str_in_spec. now exists before, piece.
  - simpl in E. symmetry in E.
    eapply after_last_char; [exact E | now apply str_in_char | exact Hp].
Qed.

(** ** Playlist URLs *)

Lemma parse_spotify_uri_exact urlparse (id : str) :
  str_in (py ":") id = false ->
  parse_spotify_playlist_url urlparse (py "spotify:playlist:" ++ id)
  = Some id.
Proof.
  intros Hid. unfold parse_spotify_playlist_url.
  assert (E : startswith (py "spotify:playlist:")
                         (py "spotify:playlist:" ++ id) = true)
    by (apply startswith_spec; now exists id).
  rewrite E. f_equal.
  change (py "spotify:playlist:" ++ id)
    with (py "spotify:playlist" ++ 58%N :: id).
  apply last_split_char. now apply str_in_char.
Qed.

(** X1.  The Spotify URI form.  [spotify:playlist:<id>] with an id free of
    colons is parsed to that id, without consulting [urlparse]; and
    whatever follows the prefix, the result is the part of the URI after
    its last colon. *)
Theorem parse_spotify_uri urlparse :
  (forall id,
      str_in (py ":") id = false ->
      parse_spotify_playlist_url urlparse (py "spotify:playlist:" ++ id)
      = Some id)
  /\ (forall url,
         startswith (py "spotify:playlist:") url = true ->
         exists before id,
           parse_spotify_playlist_url urlparse url = Some id
           /\ url = before ++ py ":" ++ id
           /\ str_in (py ":") id = false).
Proof.
  split.
  - intros id Hid. now apply parse_spotify_uri_exact.
  - intros url Hstart. unfold parse_spotify_playlist_url. rewrite Hstart.
    assert (Hsep : py ":" <> []) by discriminate.
    destruct (@split_last (py ":") url Hsep) as (Hlast & Hex).
    destruct Hex as (before & E).
    + apply startswith_spec in Hstart as [after ->].
      apply str_in_spec. exists (py "spotify:playlist"), after.
      reflexivity.
    + exists before, (last (split (py ":") url) []). auto.
Qed.

Lemma parse_spotify_uri_witness :
  parse_spotify_playlist_url SampleUrl.urlparse
    (py "spotify:playlist:" ++ py "37i9dQZF1DXcBWIGoYBM5M")
  = Some (py "37i9dQZF1DXcBWIGoYBM5M")
  /\ exists before id,
       parse_spotify_playlist_url SampleUrl.urlparse
         (py "spotify:playlist:a:b") = Some id
       /\ py "spotify:playlist:a:b" = before ++ py ":" ++ id
       /\ str_in (py ":") id = false.
Proof.
  split.
  - apply (proj1 (parse_spotify_uri SampleUrl.urlparse)). reflexivity.
  - apply (proj2 (parse_spotify_uri SampleUrl.urlparse)). reflexivity.
Defined.

(** What [playlist_id_in] extracts from a path that contains the marker
    [/playlist/]: the id stands right after an occurrence of the marker,
    ends at the first [?] or at the end of the path, and no marker occurs
    after it. *)
Lemma playlist_id_in_sound (path : str) :
  str_in (py "/playlist/") path = true ->
  exists before after,
    path = before ++ py "/playlist/" ++ playlist_id_in path ++ after
    /\ (after = [] \/ startswith (py "?") after = true)
    /\ str_in (py "?") (playlist_id_in path) = false
    /\ str_in (py "/playlist/") (playlist_id_in path ++ after) = false.
Proof.
  intros Hin. unfold playlist_id_in.
  assert (Hm : py "/playlist/" <> []) by discriminate.
  assert (Hq : py "?" <> []) by discriminate.
  destruct (@split_last (py "/playlist/") path Hm) as (Hlast & Hex).
  destruct (Hex Hin) as (before & E).
  set (rest := last (split (py "/playlist/") path) []) in *.
  destruct (@split_hd (py "?") rest Hq) as (Hid & after & Hrest & Hafter).
  exists before, after. repeat split; auto; now rewrite <- Hrest.
Qed.

(** The id of a path [<prefix>/playlist/<id>] or
    [<prefix>/playlist/<id>?...], when the marker does not occur earlier
    and the id holds neither the marker nor [?]. *)
Lemma playlist_id_in_complete (before id after : str) :
  str_in (py "/playlist/") (before ++ py "/playlist") = false ->
  str_in (py "/playlist/") (id ++ after) = false ->
  str_in (py "?") id = false ->
  after = [] \/ startswith (py "?") after = true ->
  playlist_id_in (before ++ py "/playlist/" ++ id ++ after) = id.
Proof.
  intros Hbefore Hrest Hid Hafter. unfold playlist_id_in.
  assert (Hm : py "/playlist/" <> []) by discriminate.
  assert (Hq : py "?" <> []) by discriminate.
  assert (E : split (py "/playlist/")
                    (before ++ py "/playlist/" ++ id ++ after)
              = [before; id ++ after]).
  { unfold split.
    destruct (List.length (before ++ py "/playlist/" ++ id ++ after))
      as [|fuel] eqn:El.
    - rewrite !length_app in El. simpl in El. lia.
    - cbn [split_fuel].
      rewrite (@split_at_first (py "/playlist/") before (id ++ after) Hm
                 Hbefore).
      now rewrite split_fuel_whole. }
  rewrite E. cbn [last].
  destruct Hafter as [-> | Hstart].
  - rewrite app_nil_r. unfold split. now rewrite split_fuel_whole.
  - apply startswith_spec in Hstart as [after' ->].
    unfold split.
    destruct (List.length (id ++ py "?" ++ after')) as [|fuel] eqn:El.
    + rewrite !length_app in El. simpl in El. lia.
    + cbn [split_fuel].
      rewrite (@split_at_first (py "?") id after' Hq)
        by (simpl removelast; now rewrite app_nil_r).
      reflexivity.
Qed.

(** X2.  The Spotify URL form.  A URL that is not a URI is accepted exactly
    when [urlparse] returns, the host contains [spotify.com] and the path
    contains [/playlist/]; the id returned then stands in the path right
    after an occurrence of [/playlist/], ends at the first [?] or at the
    end of the path, and is followed by no further [/playlist/]. *)
Theorem parse_spotify_url_sound urlparse (url : str) :
  startswith (py "spotify:playlist:") url = false ->
  (parse_spotify_playlist_url urlparse url = None
   <-> urlparse url = Raises
       \/ exists parsed,
            urlparse url = Returns parsed
            /\ (str_in (py "spotify.com") (netloc parsed) = false
                \/ str_in (py "/playlist/") (path parsed) = false))
  /\ (forall id,
         parse_spotify_playlist_url urlparse url = Some id ->
         exists parsed before after,
           urlparse url = Returns parsed
           /\ str_in (py "spotify.com") (netloc parsed) = true
           /\ path parsed = before ++ py "/playlist/" ++ id ++ after
           /\ (after = [] \/ startswith (py "?") after = true)
           /\ str_in (py "?") id = false
           /\ str_in (py "/playlist/") (id ++ after) = false).
Proof.
  intros Huri. unfold parse_spotify_playlist_url. rewrite Huri.
  destruct (urlparse url) as [|parsed]; [split|].
  - split; [now left | reflexivity].
  - discriminate.
  - destruct (str_in (py "spotify.com") (netloc parsed)) eqn:Hhost;
      destruct (str_in (py "/playlist/") (path parsed)) eqn:Hpath;
      cbn [andb]; split;
      try (split; [intros _; right; exists parsed; auto | reflexivity]);
      try discriminate.
    + split; [discriminate|].
      intros [H | (parsed' & [= <-] & [H | H])]; congruence.
    + intros id [= <-].
      destruct (@playlist_id_in_sound (path parsed) Hpath)
        as (before & after & H).
      exists parsed, before, after. tauto.
Qed.

Lemma parse_spotify_url_sound_witness :
  exists parsed before after,
    SampleUrl.urlparse SampleUrl.spotify_url = Returns parsed
    /\ str_in (py "spotify.com") (netloc parsed) = true
    /\ path parsed
       = before ++ py "/playlist/" ++ py "37i9dQZF1DXcBWIGoYBM5M" ++ after
    /\ (after = [] \/ startswith (py "?") after = true)
    /\ str_in (py "?") (py "37i9dQZF1DXcBWIGoYBM5M") = false
    /\ str_in (py "/playlist/") (py "37i9dQZF1DXcBWIGoYBM5M" ++ after)
       = false.
Proof.
  apply (proj2 (@parse_spotify_url_sound SampleUrl.urlparse
                  SampleUrl.spotify_url eq_refl)).
  reflexivity.
Defined.

(** X3.  A well-formed Spotify URL is parsed to its id: when the host contains
    [spotify.com] and the path is [<prefix>/playlist/<id>] with no earlier
    [/playlist/], the id holding neither [?] nor [/playlist/], the result
    is that id. *)
Theorem parse_spotify_url_complete urlparse (url : str) parsed before id :
  startswith (py "spotify:playlist:") url = false ->
  urlparse url = Returns parsed ->
  str_in (py "spotify.com") (netloc parsed) = true ->
  path parsed = before ++ py "/playlist/" ++ id ->
  str_in (py "/playlist/") (before ++ py "/playlist") = false ->
  str_in (py "/playlist/") id = false ->
  str_in (py "?") id = false ->
  parse_spotify_playlist_url urlparse url = Some id.
Proof.
  intros Huri Hparse Hhost Hpath Hbefore Hid Hq.
  unfold parse_spotify_playlist_url. rewrite Huri, Hparse, Hhost, Hpath.
  assert (Hin : str_in (py "/playlist/") (before ++ py "/playlist/" ++ id)
                = true)
    by (apply str_in_spec; now exists before, id).
  rewrite Hin. cbn [andb]. f_equal.
  rewrite <- (app_nil_r id) at 1.
  apply playlist_id_in_complete; auto. now rewrite app_nil_r.
Qed.

Lemma parse_spotify_url_complete_witness :
  parse_spotify_playlist_url SampleUrl.urlparse SampleUrl.spotify_url
  = Some (py "37i9dQZF1DXcBWIGoYBM5M").
Proof.
  apply (@parse_spotify_url_complete SampleUrl.urlparse SampleUrl.spotify_url
           {| netloc := py "open.spotify.com";
              path := py "/playlist/37i9dQZF1DXcBWIGoYBM5M" |}
           [] (py "37i9dQZF1DXcBWIGoYBM5M")); reflexivity.
Defined.

Lemma substring_trans (a b c : str) :
  str_in a b = true -> str_in b c = true -> str_in a c = true.
Proof.
  rewrite !str_in_spec. intros (p & q & ->) (p' & q' & ->).
  exists (p' ++ p), (q ++ q'). now rewrite <- !app_assoc.
Qed.

Lemma deezer_standard_id_sound (parsed : ParseResult) (id : str) :
  deezer_standard_id parsed = Some id ->
  exists before after,
    str_in (py "deezer.com") (netloc parsed) = true
    /\ path parsed = before ++ py "/playlist/" ++ id ++ after
    /\ (after = [] \/ startswith (py "?") after = true)
    /\ str_in (py "?") id = false
    /\ str_in (py "/playlist/") (id ++ after) = false.
Proof.
  unfold deezer_standard_id.
  destruct (str_in (py "deezer.com") (netloc parsed)); [|discriminate].
  destruct (str_in (py "/playlist/") (path parsed)) eqn:Hpath;
    [|discriminate].
  intros [= <-].
  destruct (@playlist_id_in_sound (path parsed) Hpath)
    as (before & after & H).
  exists before, after. tauto.
Qed.

Lemma deezer_standard_id_complete (parsed : ParseResult) (before id : str) :
  str_in (py "deezer.com") (netloc parsed) = true ->
  path parsed = before ++ py "/playlist/" ++ id ->
  str_in (py "/playlist/") (before ++ py "/playlist") = false ->
  str_in (py "/playlist/") id = false ->
  str_in (py "?") id = false ->
  deezer_standard_id parsed = Some id.
Proof.
  intros Hhost Hpath Hbefore Hid Hq.
  unfold deezer_standard_id. rewrite Hhost, Hpath.
  assert (Hin : str_in (py "/playlist/") (before ++ py "/playlist/" ++ id)
                = true)
    by (apply str_in_spec; now exists before, id).
  rewrite Hin. cbn [andb]. f_equal.
  rewrite <- (app_nil_r id) at 1.
  apply playlist_id_in_complete; auto. now rewrite app_nil_r.
Qed.

Lemma parse_deezer_standard urlparse head (fuel : nat) (url : str) parsed :
  urlparse url = Returns parsed ->
  str_in (py "link.deezer.com") (netloc parsed) = false ->
  parse_deezer_playlist_url urlparse head fuel url
  = Some (deezer_standard_id parsed).
Proof.
  intros Hparse Hhost. destruct fuel; simpl; now rewrite Hparse, Hhost.
Qed.

(** X4.  Standard Deezer URLs.  When the host does not contain
    [link.deezer.com], the URL is parsed without any request and whatever
    the fuel; a well-formed URL (host containing [deezer.com], path
    [<prefix>/playlist/<id>]) gives its id, and any id returned stands in
    the path right after a [/playlist/], up to the first [?] or the end. *)
Theorem parse_deezer_standard_url urlparse (url : str) parsed :
  urlparse url = Returns parsed ->
  str_in (py "link.deezer.com") (netloc parsed) = false ->
  (forall head head' fuel fuel',
      parse_deezer_playlist_url urlparse head fuel url
      = parse_deezer_playlist_url urlparse head' fuel' url)
  /\ (forall head fuel before id,
         str_in (py "deezer.com") (netloc parsed) = true ->
         path parsed = before ++ py "/playlist/" ++ id ->
         str_in (py "/playlist/") (before ++ py "/playlist") = false ->
         str_in (py "/playlist/") id = false ->
         str_in (py "?") id = false ->
         parse_deezer_playlist_url urlparse head fuel url = Some (Some id))
  /\ (forall head fuel id,
         parse_deezer_playlist_url urlparse head fuel url = Some (Some id) ->
         exists before after,
           str_in (py "deezer.com") (netloc parsed) = true
           /\ path parsed = before ++ py "/playlist/" ++ id ++ after
           /\ (after = [] \/ startswith (py "?") after = true)
           /\ str_in (py "?") id = false
           /\ str_in (py "/playlist/") (id ++ after) = false).
Proof.
  intros Hparse Hhost. split; [|split].
  - intros head head' fuel fuel'.
    now rewrite !(@parse_deezer_standard urlparse _ _ url parsed Hparse Hhost).
  - intros head fuel before id H1 H2 H3 H4 H5.
    rewrite (@parse_deezer_standard urlparse _ _ url parsed Hparse Hhost).
    f_equal. now apply deezer_standard_id_complete with (before := before).
  - intros head fuel id.
    rewrite (@parse_deezer_standard urlparse _ _ url parsed Hparse Hhost).
    intros [= H]. now apply deezer_standard_id_sound.
Qed.

Lemma parse_deezer_standard_url_witness :
  parse_deezer_playlist_url SampleUrl.urlparse SampleUrl.requests_head 0
    SampleUrl.deezer_url
  = parse_deezer_playlist_url SampleUrl.urlparse (fun _ => Raised) 5
      SampleUrl.deezer_url
  /\ parse_deezer_playlist_url SampleUrl.urlparse SampleUrl.requests_head 0
       SampleUrl.deezer_url
     = Some (Some (py "42")).
Proof.
  split.
  - apply (proj1 (@parse_deezer_standard_url SampleUrl.urlparse
                    SampleUrl.deezer_url
                    {| netloc := py "www.deezer.com";
                       path := py "/fr/playlist/42" |}
                    eq_refl eq_refl)).
  - apply (proj1 (proj2 (@parse_deezer_standard_url SampleUrl.urlparse
                           SampleUrl.deezer_url
                           {| netloc := py "www.deezer.com";
                              path := py "/fr/playlist/42" |}
                           eq_refl eq_refl))
             SampleUrl.requests_head 0 (py "/fr") (py "42"));
      reflexivity.
Defined.

(** X5.  Short links that resolve.  A [link.deezer.com] URL whose HEAD request
    is answered 200 after redirection to a well-formed standard Deezer URL
    is parsed to the id of that URL. *)
Theorem parse_deezer_short_link_resolved urlparse head (fuel : nat)
        (url final : str) parsed parsed' before id :
  urlparse url = Returns parsed ->
  str_in (py "link.deezer.com") (netloc parsed) = true ->
  head url = Response 200 final ->
  urlparse final = Returns parsed' ->
  str_in (py "link.deezer.com") (netloc parsed') = false ->
  str_in (py "deezer.com") (netloc parsed') = true ->
  path parsed' = before ++ py "/playlist/" ++ id ->
  str_in (py "/playlist/") (before ++ py "/playlist") = false ->
  str_in (py "/playlist/") id = false ->
  str_in (py "?") id = false ->
  parse_deezer_playlist_url urlparse head (S fuel) url = Some (Some id).
Proof.
  intros Hparse Hshort Hhead Hparse' Hstd Hhost Hpath Hbefore Hid Hq.
  cbn [parse_deezer_playlist_url]. rewrite Hparse, Hshort, Hhead.
  change (200 =? 200)%Z with true. cbv match.
  rewrite (@parse_deezer_standard urlparse _ _ final parsed' Hparse' Hstd).
  f_equal. now apply deezer_standard_id_complete with (before := before).
Qed.

Lemma parse_deezer_short_link_resolved_witness :
  parse_deezer_playlist_url SampleUrl.urlparse SampleUrl.requests_head 1
    SampleUrl.short_url
  = Some (Some (py "42")).
Proof.
  apply (@parse_deezer_short_link_resolved SampleUrl.urlparse
           SampleUrl.requests_head 0 SampleUrl.short_url SampleUrl.deezer_url
           {| netloc := py "link.deezer.com"; path := py "/s/abc" |}
           {| netloc := py "www.deezer.com"; path := py "/fr/playlist/42" |}
           (py "/fr") (py "42")); reflexivity.
Defined.

(** X6.  Short links that do not resolve.  When the HEAD request of a
    [link.deezer.com] URL raises or is answered with a status other than
    200, the link itself is parsed as a standard URL; its host passes the
    [deezer.com] test, so the result is [None] exactly when its own path
    has no [/playlist/]. *)
Theorem parse_deezer_short_link_unresolved urlparse head (fuel : nat)
        (url : str) parsed :
  urlparse url = Returns parsed ->
  str_in (py "link.deezer.com") (netloc parsed) = true ->
  head url = Raised
  \/ (exists status final,
         head url = Response status final /\ status <> 200%Z) ->
  parse_deezer_playlist_url urlparse head fuel url
  = Some (if str_in (py "/playlist/") (path parsed)
          then Some (playlist_id_in (path parsed))
          else None).
Proof.
  intros Hparse Hshort Hhead.
  assert (Hhost : str_in (py "deezer.com") (netloc parsed) = true)
    by (eapply substring_trans; [|exact Hshort]; reflexivity).
  assert (E : parse_deezer_playlist_url urlparse head fuel url
              = Some (deezer_standard_id parsed)).
  { destruct fuel; simpl; rewrite Hparse, Hshort;
      (destruct Hhead as [-> | (status & final & -> & Hs)];
       [reflexivity | apply Z.eqb_neq in Hs; now rewrite Hs]). }
  rewrite E. unfold deezer_standard_id. now rewrite Hhost.
Qed.

Lemma parse_deezer_short_link_unresolved_witness :
  parse_deezer_playlist_url SampleUrl.urlparse SampleUrl.requests_head 0
    SampleUrl.dead_url
  = Some None.
Proof.
  apply (@parse_deezer_short_link_unresolved SampleUrl.urlparse
           SampleUrl.requests_head 0 SampleUrl.dead_url
           {| netloc := py "link.deezer.com"; path := py "/s/dead" |}).
  - reflexivity.
  - reflexivity.
  - right. exists 404%Z, SampleUrl.dead_url. split; [reflexivity|].
    discriminate.
Defined.

(** ** Conversion by URL *)

(** X7.  [convert_playlist_by_url] runs a conversion only on an id that the URL
    parser returned and that is not empty, and the run it reports is the
    conversion of exactly that id; a URL with neither marker is reported as
    unsupported, and only such a URL is. *)
Theorem convert_playlist_by_url_runs_parsed_id
        U urlparse head dz spotify token (fuel : nat) (url : str)
        (name : option str) (now : Z) :
  (forall id run,
      convert_playlist_by_url U urlparse head dz spotify token fuel url
        name now = Some (SpotifyDetected id run) ->
      id <> []
      /\ parse_spotify_playlist_url urlparse url = Some id
      /\ convert_spotify_to_deezer U dz spotify token fuel id name now
         = Some run)
  /\ (forall id run,
         convert_playlist_by_url U urlparse head dz spotify token fuel url
           name now = Some (DeezerDetected id run) ->
         id <> []
         /\ parse_deezer_playlist_url urlparse head fuel url
            = Some (Some id)
         /\ convert_deezer_to_spotify U dz spotify fuel id name now
            = Some run)
  /\ (convert_playlist_by_url U urlparse head dz spotify token fuel url
        name now = Some UnsupportedUrl
      <-> str_in (py "spotify.com") url = false
          /\ startswith (py "spotify:") url = false
          /\ str_in (py "deezer.com") url = false).
Proof.
  unfold convert_playlist_by_url.
  destruct (str_in (py "spotify.com") url) eqn:Hs;
    destruct (startswith (py "spotify:") url) eqn:Hu; cbn [orb].
  4: destruct (str_in (py "deezer.com") url) eqn:Hd.
  1-3: destruct (parse_spotify_playlist_url urlparse url) as [[|ch rest]|]
         eqn:Hp;
    cbn [truthy];
    try destruct (convert_spotify_to_deezer U dz spotify token fuel
                    (ch :: rest) name now) as [run|] eqn:Hr;
    cbn [option_map];
    (split; [|split]);
    try (intros ? ? [= <- <-]; repeat split;
         discriminate || assumption || reflexivity);
    try discriminate;
    try (split; [discriminate | intros (? & ? & ?); discriminate]).
  - destruct (parse_deezer_playlist_url urlparse head fuel url)
      as [[[|ch rest]|]|] eqn:Hp; cbn [truthy];
      try destruct (convert_deezer_to_spotify U dz spotify fuel (ch :: rest)
                      name now) as [run|] eqn:Hr;
      cbn [option_map];
      (split; [|split]);
      try (intros ? ? [= <- <-]; repeat split;
           discriminate || assumption || reflexivity);
      try discriminate;
      try (split; [discriminate | intros (? & ? & ?); discriminate]).
  - split; [|split]; try discriminate. split; auto.
Qed.

Lemma convert_playlist_by_url_runs_parsed_id_witness :
  py "42" <> []
  /\ parse_deezer_playlist_url SampleUrl.urlparse SampleUrl.requests_head 3
       SampleUrl.short_url = Some (Some (py "42"))
  /\ convert_deezer_to_spotify ascii_data Sample.deezer
       (Some Sample.spotify) 3 (py "42") None 0
     = Some (Converted [py "s4"; py "s4"] [py "John Lennon - Imagine"]
               (Some (true, [(py "new", [py "s4"; py "s4"])]))).
Proof.
  apply (proj1 (proj2 (convert_playlist_by_url_runs_parsed_id ascii_data
                         SampleUrl.urlparse SampleUrl.requests_head
                         Sample.deezer (Some Sample.spotify)
                         (Some (py "tok")) 3 SampleUrl.short_url None 0))).
  reflexivity.
Defined.

(** X8.  The platform is chosen on the text of the whole URL, Spotify first: a
    URL that mentions [spotify.com] anywhere but whose host does not
    contain it is reported as an invalid Spotify URL, whatever Deezer
    playlist it designates. *)
Theorem convert_playlist_by_url_spotify_first
        U urlparse head dz spotify token (fuel : nat) (url : str)
        (name : option str) (now : Z) parsed :
  str_in (py "spotify.com") url = true ->
  startswith (py "spotify:playlist:") url = false ->
  urlparse url = Returns parsed ->
  str_in (py "spotify.com") (netloc parsed) = false ->
  convert_playlist_by_url U urlparse head dz spotify token fuel url name now
  = Some InvalidSpotifyUrl.
Proof.
  intros Hs Huri Hparse Hhost.
  unfold convert_playlist_by_url, parse_spotify_playlist_url.
  now rewrite Hs, Huri, Hparse, Hhost.
Qed.

Lemma convert_playlist_by_url_spotify_first_witness :
  convert_playlist_by_url ascii_data SampleUrl.urlparse
    SampleUrl.requests_head Sample.deezer (Some Sample.spotify)
    (Some (py "tok")) 3 SampleUrl.tagged_deezer_url None 0
  = Some InvalidSpotifyUrl
  /\ parse_deezer_playlist_url SampleUrl.urlparse SampleUrl.requests_head 3
       SampleUrl.tagged_deezer_url = Some (Some (py "42")).
Proof.
  split; [|reflexivity].
  apply (@convert_playlist_by_url_spotify_first ascii_data
           SampleUrl.urlparse SampleUrl.requests_head Sample.deezer
           (Some Sample.spotify) (Some (py "tok")) 3
           SampleUrl.tagged_deezer_url None 0
           {| netloc := py "www.deezer.com"; path := py "/playlist/42" |});
    reflexivity.
Defined.

(** X9.  A Spotify URI end to end: [spotify:playlist:<id>] with a non-empty id
    free of colons is converted as playlist [<id>], and with an empty id it
    is reported invalid without any listing. *)
Theorem convert_playlist_by_url_uri
        U urlparse head dz spotify token (fuel : nat)
        (name : option str) (now : Z) :
  (forall id,
      id <> [] -> str_in (py ":") id = false ->
      convert_playlist_by_url U urlparse head dz spotify token fuel
        (py "spotify:playlist:" ++ id) name now
      = option_map (SpotifyDetected id)
          (convert_spotify_to_deezer U dz spotify token fuel id name now))
  /\ convert_playlist_by_url U urlparse head dz spotify token fuel
       (py "spotify:playlist:") name now
     = Some InvalidSpotifyUrl.
Proof.
  split.
  - intros id Hne Hid. unfold convert_playlist_by_url.
    assert (E : startswith (py "spotify:") (py "spotify:playlist:" ++ id)
                = true)
      by (apply startswith_spec; now exists (py "playlist:" ++ id)).
    rewrite E, orb_true_r.
    rewrite (@parse_spotify_uri_exact urlparse id Hid).
    destruct id; [contradiction | reflexivity].
  - unfold convert_playlist_by_url.
    destruct (str_in (py "spotify.com") (py "spotify:playlist:"));
      reflexivity.
Qed.

Lemma convert_playlist_by_url_uri_witness :
  convert_playlist_by_url ascii_data SampleUrl.urlparse
    SampleUrl.requests_head Sample.deezer (Some Sample.spotify)
    (Some (py "tok")) 2 (py "spotify:playlist:" ++ py "abc") None 0
  = option_map (SpotifyDetected (py "abc"))
      (convert_spotify_to_deezer ascii_data Sample.deezer
         (Some Sample.spotify) (Some (py "tok")) 2 (py "abc") None 0).
Proof.
  apply (proj1 (convert_playlist_by_url_uri ascii_data SampleUrl.urlparse
                  SampleUrl.requests_head Sample.deezer
                  (Some Sample.spotify) (Some (py "tok")) 2 None 0)).
  - discriminate.
  - reflexivity.
Defined.

(** ** Setting up Deezer *)

Lemma str_eqb_same (a : str) : str_eqb a a = true.
Proof. now apply str_eqb_eq. Qed.

Lemma create_deezer_playlist_calls dz (token name : str) (track_ids : list Z)
      (playlist_id : Z) :
  truthy token = true ->
  post_playlist dz name token
  = Response 200 (Some {| created_id := Some playlist_id |}) ->
  playlist_id <> 0%Z ->
  snd (create_deezer_playlist dz (Some token) name track_ids)
  = match track_ids with
    | [] => []
    | _ :: _ => [(playlist_id, songs_of track_ids)]
    end.
Proof.
  intros Htoken Hpost Hid.
  unfold create_deezer_playlist. rewrite Htoken, Hpost.
  change (200 =? 200)%Z with true. cbn [negb created_id].
  destruct track_ids as [|t ids]; [reflexivity|].
  apply Z.eqb_neq in Hid. rewrite Hid.
  destruct (post_tracks dz playlist_id (songs_of (t :: ids)) token);
    reflexivity.
Qed.

(** X10.  [setup_deezer] stores the token it is given before testing it
    and never
    takes it back: the converter holds the token afterwards whether the
    test succeeded or not, its other attributes are untouched, and the
    result is [True] exactly when [/user/me] is answered 200 with a
    decodable body.  A token that failed the test is therefore the one the
    next playlist creation sends. *)
Theorem setup_deezer_keeps_token requests_get (self : PlaylistConverter)
        (access_token : str) :
  self_deezer_access_token (snd (setup_deezer requests_get self access_token))
  = Some access_token
  /\ self_spotify (snd (setup_deezer requests_get self access_token))
     = self_spotify self
  /\ self_deezer_oauth (snd (setup_deezer requests_get self access_token))
     = self_deezer_oauth self
  /\ (fst (setup_deezer requests_get self access_token) = true
      <-> exists user,
            requests_get (user_me_url access_token)
            = Response 200 (Some user))
  /\ (forall dz name track_ids playlist_id,
         fst (setup_deezer requests_get self access_token) = false ->
         truthy access_token = true ->
         post_playlist dz name access_token
         = Response 200 (Some {| created_id := Some playlist_id |}) ->
         playlist_id <> 0%Z ->
         track_ids <> [] ->
         snd (create_deezer_playlist dz
                (self_deezer_access_token
                   (snd (setup_deezer requests_get self access_token)))
                name track_ids)
         = [(playlist_id, songs_of track_ids)]).
Proof.
  assert (Htok : self_deezer_access_token
                   (snd (setup_deezer requests_get self access_token))
                 = Some access_token).
  { unfold setup_deezer.
    destruct (requests_get (user_me_url access_token))
      as [|status [user|]]; [| destruct (status =? 200)%Z ..]; reflexivity. }
  split; [exact Htok|]. split; [|split; [|split]].
  - unfold setup_deezer.
    destruct (requests_get (user_me_url access_token))
      as [|status [user|]]; [| destruct (status =? 200)%Z ..]; reflexivity.
  - unfold setup_deezer.
    destruct (requests_get (user_me_url access_token))
      as [|status [user|]]; [| destruct (status =? 200)%Z ..]; reflexivity.
  - unfold setup_deezer.
    destruct (requests_get (user_me_url access_token))
      as [|status [user|]] eqn:E.
    + split; [discriminate | intros [user H]; discriminate].
    + destruct (status =? 200)%Z eqn:Es.
      * apply Z.eqb_eq in Es. subst status.
        split; [intros _; now exists user | reflexivity].
      * apply Z.eqb_neq in Es.
        split; [discriminate | intros [user' [= H _]]; contradiction].
    + destruct (status =? 200)%Z;
        (split; [discriminate | intros [user H]; discriminate]).
  - intros dz name track_ids playlist_id _ Htruthy Hpost Hid Hne.
    rewrite Htok.
    rewrite (@create_deezer_playlist_calls dz access_token name track_ids
               playlist_id Htruthy Hpost Hid).
    destruct track_ids; [contradiction | reflexivity].
Qed.

Lemma setup_deezer_keeps_token_witness :
  fst (setup_deezer (fun _ => Response 401 None) SampleUrl.converter
         (py "expired")) = false
  /\ snd (create_deezer_playlist Sample.deezer
            (self_deezer_access_token
               (snd (setup_deezer (fun _ => Response 401 None)
                       SampleUrl.converter (py "expired"))))
            (py "mix") [11%Z])
     = [(7%Z, songs_of [11%Z])].
Proof.
  split; [reflexivity|].
  apply (proj2 (proj2 (proj2 (proj2
           (setup_deezer_keeps_token (fun _ => Response 401 None)
              SampleUrl.converter (py "expired")))))
           Sample.deezer (py "mix") [11%Z] 7%Z);
    try reflexivity; discriminate.
Defined.

(** X11.  [setup_deezer_oauth] installs a token only on success, and then a
    non-empty one, the token of the [DeezerOAuth] object; on failure the
    converter keeps the token it had.  The configuration check compares
    with the two literals [YOUR_DEEZER_APP_ID] and
    [YOUR_DEEZER_APP_SECRET]: with either of them nothing is started and
    nothing changes, with any other pair of identifiers the flow is
    started and decides the result. *)
Theorem setup_deezer_oauth_outcome start_auth_flow (app_id app_secret : str)
        (self : PlaylistConverter) :
  (fst (setup_deezer_oauth start_auth_flow app_id app_secret self) = true ->
   exists oauth tok,
     start_auth_flow (new_DeezerOAuth app_id app_secret) = (true, oauth)
     /\ access_token oauth = Some tok
     /\ truthy tok = true
     /\ self_deezer_access_token
          (snd (setup_deezer_oauth start_auth_flow app_id app_secret self))
        = Some tok)
  /\ (fst (setup_deezer_oauth start_auth_flow app_id app_secret self) = false
      -> self_deezer_access_token
           (snd (setup_deezer_oauth start_auth_flow app_id app_secret self))
         = self_deezer_access_token self)
  /\ (app_id = py "YOUR_DEEZER_APP_ID"
      \/ app_secret = py "YOUR_DEEZER_APP_SECRET" ->
      setup_deezer_oauth start_auth_flow app_id app_secret self
      = (false, self))
  /\ (app_id <> py "YOUR_DEEZER_APP_ID" ->
      app_secret <> py "YOUR_DEEZER_APP_SECRET" ->
      fst (setup_deezer_oauth start_auth_flow app_id app_secret self)
      = fst (start_auth_flow (new_DeezerOAuth app_id app_secret))
        && truthy_opt
             (access_token
                (snd (start_auth_flow (new_DeezerOAuth app_id app_secret))))
      /\ self_deezer_oauth
           (snd (setup_deezer_oauth start_auth_flow app_id app_secret self))
         = Some (snd (start_auth_flow (new_DeezerOAuth app_id app_secret)))).
Proof.
  unfold setup_deezer_oauth.
  destruct (str_eqb app_id (py "YOUR_DEEZER_APP_ID")) eqn:Ea;
    destruct (str_eqb app_secret (py "YOUR_DEEZER_APP_SECRET")) eqn:Es;
    cbn [orb fst snd].
  1-3: split; [discriminate|]; split; [reflexivity|];
    split; [reflexivity|];
    intros Ha Hs; try apply str_eqb_eq in Ea; try apply str_eqb_eq in Es;
    contradiction.
  destruct (start_auth_flow (new_DeezerOAuth app_id app_secret))
    as [success oauth] eqn:Eflow.
  destruct success; cbn [andb fst snd].
  - destruct (access_token oauth) as [tok|] eqn:Et; cbn [truthy_opt].
    + destruct (truthy tok) eqn:Ett; cbn [fst snd].
      * split; [intros _; exists oauth, tok; auto|].
        split; [discriminate|]. split; [|auto].
        intros [-> | ->]; [rewrite str_eqb_same in Ea
                          | rewrite str_eqb_same in Es]; discriminate.
      * split; [discriminate|]. split; [reflexivity|]. split; [|auto].
        intros [-> | ->]; [rewrite str_eqb_same in Ea
                          | rewrite str_eqb_same in Es]; discriminate.
    + cbn [fst snd].
      split; [discriminate|]. split; [reflexivity|]. split; [|auto].
      intros [-> | ->]; [rewrite str_eqb_same in Ea
                        | rewrite str_eqb_same in Es]; discriminate.
  - split; [discriminate|]. split; [reflexivity|]. split; [|auto].
    intros [-> | ->]; [rewrite str_eqb_same in Ea
                      | rewrite str_eqb_same in Es]; discriminate.
Qed.

Lemma setup_deezer_oauth_outcome_witness :
  exists oauth tok,
    (fun o => (true, set_access_token o (py "tok")))
      (new_DeezerOAuth DEEZER_APP_ID DEEZER_APP_SECRET) = (true, oauth)
    /\ access_token oauth = Some tok
    /\ truthy tok = true
    /\ self_deezer_access_token
         (snd (setup_deezer_oauth
                 (fun o => (true, set_access_token o (py "tok")))
                 DEEZER_APP_ID DEEZER_APP_SECRET SampleUrl.converter))
       = Some tok.
Proof.
  apply (proj1 (setup_deezer_oauth_outcome
                  (fun o => (true, set_access_token o (py "tok")))
                  DEEZER_APP_ID DEEZER_APP_SECRET SampleUrl.converter)).
  reflexivity.
Defined.

(** ** More on track matching *)

Lemma find_in (A : Type) (f : A -> bool) (l : list A) (x : A) :
  find f l = Some x -> In x l.
Proof.
  induction l as [|y l IH]; simpl; [discriminate|].
  destruct (f y); [intros [= ->]; now left | intros H; right; auto].
Qed.

Lemma first_passing_or_first_in (A : Type) (test : A -> bool) (first : A)
      (rest : list A) :
  In (first_passing_or_first test first rest) (first :: rest).
Proof.
  unfold first_passing_or_first.
  destruct (find test (first :: rest)) as [c|] eqn:E;
    [now apply (@find_in _ test) | now left].
Qed.

(** X12.  The searches return [None] exactly when the platform gives no
    candidate (the request fails, the body cannot be used, or the
    candidate list is missing or empty), and a track they return is always
    one of the candidates the platform returned. *)
Theorem search_track_none_iff_no_candidate U :
  (forall dz title artist,
      search_deezer_track U dz title artist = None
      <-> ~ exists first rest,
            get_search dz (deezer_query U title artist) 5
            = Response 200 (Some {| search_data := Some (first :: rest) |}))
  /\ (forall dz title artist found,
         search_deezer_track U dz title artist = Some found ->
         exists candidates c,
           get_search dz (deezer_query U title artist) 5
           = Response 200 (Some {| search_data := Some candidates |})
           /\ In c candidates /\ found = dz_found_of c)
  /\ (forall spotify title artist,
         search_spotify_track U spotify title artist = None
         <-> ~ exists sp first rest,
               spotify = Some sp
               /\ search sp (spotify_query U title artist) 5
                  = Returns (first :: rest))
  /\ (forall spotify title artist found,
         search_spotify_track U spotify title artist = Some found ->
         exists sp candidates c,
           spotify = Some sp
           /\ search sp (spotify_query U title artist) 5 = Returns candidates
           /\ In c candidates /\ found = sp_found_of c).
Proof.
  split; [|split; [|split]].
  - intros dz title artist. unfold search_deezer_track.
    destruct (get_search dz (deezer_query U title artist) 5)
      as [|status body] eqn:E.
    + split; [intros _ (f & r & H); discriminate | reflexivity].
    + destruct (status =? 200)%Z eqn:Es.
      * apply Z.eqb_eq in Es. subst status.
        destruct body as [[[[|first rest]|]]|]; cbn [search_data].
        -- split; [intros _ (f & r & H); discriminate | reflexivity].
        -- destruct (dz_scan U (clean U title) (clean U artist)
                       (first :: rest));
             (split; [discriminate|]);
             intros H; destruct H; now exists first, rest.
        -- split; [intros _ (f & r & H); discriminate | reflexivity].
        -- split; [intros _ (f & r & H); discriminate | reflexivity].
      * apply Z.eqb_neq in Es.
        split; [intros _ (f & r & [= H _]); contradiction | reflexivity].
  - intros dz title artist found Hfound.
    destruct (get_search dz (deezer_query U title artist) 5)
      as [|status body] eqn:E;
      [unfold search_deezer_track in Hfound; rewrite E in Hfound;
       discriminate|].
    destruct (status =? 200)%Z eqn:Es;
      [|unfold search_deezer_track in Hfound; rewrite E, Es in Hfound;
        discriminate].
    apply Z.eqb_eq in Es. subst status.
    destruct body as [[[[|first rest]|]]|];
      try (unfold search_deezer_track in Hfound; rewrite E in Hfound;
           discriminate).
    rewrite (search_deezer_track_some U dz title artist E) in Hfound.
    injection Hfound as <-. exists (first :: rest). eexists.
    split; [reflexivity|]. split; [|reflexivity].
    apply first_passing_or_first_in.
  - intros [sp|] title artist.
    + destruct (search sp (spotify_query U title artist) 5)
        as [|[|first rest]] eqn:E.
      * unfold search_spotify_track. rewrite E.
        split; [intros _ (sp' & f & r & [= <-] & H) | reflexivity].
        rewrite E in H. discriminate.
      * unfold search_spotify_track. rewrite E.
        split; [intros _ (sp' & f & r & [= <-] & H) | reflexivity].
        rewrite E in H. discriminate.
      * rewrite (search_spotify_track_some U sp title artist E).
        split; [discriminate|].
        intros H; destruct H; now exists sp, first, rest.
    + split; [intros _ (sp & f & r & H & _); discriminate | reflexivity].
  - intros [sp|] title artist found Hfound; [|discriminate].
    destruct (search sp (spotify_query U title artist) 5)
      as [|[|first rest]] eqn:E;
      try (unfold search_spotify_track in Hfound; rewrite E in Hfound;
           discriminate).
    rewrite (search_spotify_track_some U sp title artist E) in Hfound.
    injection Hfound as <-. exists sp, (first :: rest). eexists.
    split; [reflexivity|]. split; [exact E|].
    split; [|reflexivity]. apply first_passing_or_first_in.
Qed.

Lemma search_track_none_iff_no_candidate_witness :
  exists candidates c,
    get_search Sample.deezer
      (deezer_query ascii_data (py "Yesterday") (py "The Beatles")) 5
    = Response 200 (Some {| search_data := Some candidates |})
    /\ In c candidates
    /\ dz_found_of Sample.yesterday_remastered = dz_found_of c.
Proof.
  apply (proj1 (proj2 (search_track_none_iff_no_candidate ascii_data))
           Sample.deezer (py "Yesterday") (py "The Beatles")).
  reflexivity.
Defined.

Lemma find_ext (A : Type) (f g : A -> bool) (l : list A) :
  (forall x, f x = g x) -> find f l = find g l.
Proof.
  intros H. induction l as [|x l IH]; simpl; [reflexivity|].
  now rewrite H, IH.
Qed.

Lemma either_in_nil (s : str) : either_in [] s = true.
Proof. unfold either_in. now destruct s. Qed.

(** X13.  A title made only of punctuation matches every candidate title.  When
    the normalized title is empty (and lower-casing the empty string gives
    the empty string), the title half of the test always passes, so the
    candidate selected is the first whose artist passes, whatever its
    title. *)
Theorem punctuation_only_title_matches_any U (title artist : str) :
  clean U title = [] ->
  lower U [] = [] ->
  (forall track,
      dz_matches U (clean U title) (clean U artist) track
      = either_in (lower U (clean U artist)) (lower U (dz_artist_name track)))
  /\ (forall dz first rest,
         get_search dz (deezer_query U title artist) 5
         = Response 200 (Some {| search_data := Some (first :: rest) |}) ->
         search_deezer_track U dz title artist
         = Some (dz_found_of
                   (first_passing_or_first
                      (fun track =>
                         either_in (lower U (clean U artist))
                                   (lower U (dz_artist_name track)))
                      first rest)))
  /\ (forall sp first rest,
         search sp (spotify_query U title artist) 5
         = Returns (first :: rest) ->
         search_spotify_track U (Some sp) title artist
         = Some (sp_found_of
                   (first_passing_or_first
                      (fun track =>
                         existsb
                           (fun ta => either_in (lower U (clean U artist)) ta)
                           (map (lower U) (sp_artists track)))
                      first rest))).
Proof.
  intros Hclean Hlower.
  assert (Hdz : forall track,
             dz_matches U (clean U title) (clean U artist) track
             = either_in (lower U (clean U artist))
                         (lower U (dz_artist_name track))).
  { intros track. unfold dz_matches.
    now rewrite Hclean, Hlower, either_in_nil. }
  assert (Hsp : forall track,
             sp_matches U (clean U title) (clean U artist) track
             = existsb (fun ta => either_in (lower U (clean U artist)) ta)
                       (map (lower U) (sp_artists track))).
  { intros track. unfold sp_matches.
    now rewrite Hclean, Hlower, either_in_nil. }
  split; [exact Hdz|]. split.
  - intros dz first rest H.
    rewrite (search_deezer_track_some U dz title artist H).
    unfold first_passing_or_first. now rewrite (find_ext _ _ _ Hdz).
  - intros sp first rest H.
    rewrite (search_spotify_track_some U sp title artist H).
    unfold first_passing_or_first. now rewrite (find_ext _ _ _ Hsp).
Qed.

Lemma punctuation_only_title_matches_any_witness :
  search_deezer_track ascii_data
    (SampleUrl.deezer_answering [Sample.imagine; Sample.dont_stop])
    (py "???") (py "Fleetwood Mac")
  = Some (dz_found_of
            (first_passing_or_first
               (fun track =>
                  either_in
                    (lower ascii_data (clean ascii_data (py "Fleetwood Mac")))
                    (lower ascii_data (dz_artist_name track)))
               Sample.imagine [Sample.dont_stop])).
Proof.
  apply (proj1 (proj2 (@punctuation_only_title_matches_any ascii_data
                         (py "???") (py "Fleetwood Mac")
                         eq_refl eq_refl))).
  reflexivity.
Defined.

(** ** The [songs] field of the Deezer add-tracks request *)

Lemma split_fuel_join_char (c : char) (pieces : list str) :
  pieces <> [] ->
  Forall (fun piece => ~ In c piece) pieces ->
  forall fuel,
    List.length (join [c] pieces) <= fuel ->
    split_fuel fuel [c] (join [c] pieces) = pieces.
Proof.
  assert (Hsep : [c] <> []) by discriminate.
  induction pieces as [|p pieces IH]; [contradiction|].
  intros _ Hall fuel Hfuel. inversion Hall as [|? ? Hp Hrest]; subst.
  destruct pieces as [|q pieces].
  - simpl. apply split_fuel_whole. now apply str_in_char.
  - rewrite join_cons in * by discriminate.
    rewrite !length_app in Hfuel. cbn [List.length] in Hfuel.
    destruct fuel as [|fuel]; [lia|].
    cbn [split_fuel].
    rewrite (@split_at_first [c] p (join [c] (q :: pieces)) Hsep)
      by (simpl removelast; rewrite app_nil_r; now apply str_in_char).
    f_equal. apply IH; [discriminate | exact Hrest | lia].
Qed.

Lemma py_cons (a : ascii) (s : string) :
  py (String a s) = N_of_ascii a :: py s.
Proof. reflexivity. Qed.

Lemma py_inj (s t : string) : py s = py t -> s = t.
Proof.
  revert t. induction s as [|a s IH]; intros [|b t]; try discriminate;
    [reflexivity|].
  rewrite !py_cons. intros [= Hab Hst].
  f_equal; [|now apply IH].
  rewrite <- (ascii_N_embedding a), <- (ascii_N_embedding b). now rewrite Hab.
Qed.

Lemma uint_string_no_comma (d : Decimal.uint) :
  ~ In 44%N (py (NilEmpty.string_of_uint d)).
Proof.
  induction d; cbn [NilEmpty.string_of_uint]; try rewrite py_cons;
    simpl; intuition discriminate.
Qed.

Lemma str_of_Z_no_comma (z : Z) : ~ In 44%N (str_of_Z z).
Proof.
  unfold str_of_Z.
  assert (H : forall d, ~ In 44%N (py (NilZero.string_of_uint d))).
  { intros d. destruct d; try apply uint_string_no_comma.
    simpl. intuition discriminate. }
  destruct (Z.to_int z) as [d|d]; cbn [NilZero.string_of_int].
  - apply H.
  - rewrite py_cons. simpl. intros [E | E]; [discriminate | now apply H in E].
Qed.

Lemma str_of_Z_inj (a b : Z) : str_of_Z a = str_of_Z b -> a = b.
Proof.
  unfold str_of_Z. intros H. apply py_inj in H.
  apply DecimalZ.to_int_inj.
  assert (Hnil : forall z, Z.to_int z <> Decimal.Pos Decimal.Nil
                           /\ Z.to_int z <> Decimal.Neg Decimal.Nil).
  { intros [|p|p]; simpl; split; try discriminate;
      intros [= E]; now apply DecimalPos.Unsigned.to_uint_nonnil in E. }
  destruct (Hnil a) as [Ha1 Ha2]. destruct (Hnil b) as [Hb1 Hb2].
  pose proof (NilZero.isi (Z.to_int a) Ha1 Ha2) as Ea.
  pose proof (NilZero.isi (Z.to_int b) Hb1 Hb2) as Eb.
  rewrite H in Ea. rewrite Ea in Eb. now injection Eb.
Qed.

Lemma map_inj (A B : Type) (f : A -> B) (l l' : list A) :
  (forall x y, f x = f y -> x = y) -> map f l = map f l' -> l = l'.
Proof.
  intros Hf. revert l'. induction l as [|x l IH]; intros [|y l'];
    simpl; try discriminate; [reflexivity|].
  intros [= Hxy Hll]. f_equal; auto.
Qed.

(** X14.  The [songs] field carries the ids one by one: for a non-empty id list,
    splitting the field at its commas gives back the decimal writing of
    each id, in order, and two different id lists never give the same
    field. *)
Theorem songs_field_decodes (track_ids : list Z) :
  track_ids <> [] ->
  split (py ",") (songs_of track_ids) = map str_of_Z track_ids
  /\ (forall track_ids',
         track_ids' <> [] ->
         songs_of track_ids = songs_of track_ids' ->
         track_ids = track_ids').
Proof.
  assert (Hsplit : forall ids, ids <> [] ->
             split (py ",") (songs_of ids) = map str_of_Z ids).
  { intros ids Hne. unfold split, songs_of.
    apply (@split_fuel_join_char 44%N (map str_of_Z ids)).
    - destruct ids; [contradiction | discriminate].
    - apply Forall_map, Forall_forall. intros z _. apply str_of_Z_no_comma.
    - apply le_n. }
  intros Hne. split; [now apply Hsplit|].
  intros ids' Hne' E.
  apply (map_inj str_of_Z); [exact str_of_Z_inj|].
  rewrite <- !Hsplit by assumption. now rewrite E.
Qed.

Lemma songs_field_decodes_witness :
  split (py ",") (songs_of [11; -2; 0]%Z) = map str_of_Z [11; -2; 0]%Z
  /\ (forall track_ids',
         track_ids' <> [] ->
         songs_of [11; -2; 0]%Z = songs_of track_ids' ->
         [11; -2; 0]%Z = track_ids').
Proof.
  apply (@songs_field_decodes [11; -2; 0]%Z). discriminate.
Defined.

(** ** More on playlist creation *)




(** X16.  [create_deezer_playlist] sends at most one add-tracks request, and
    that request carries every id.  A creation answer without a usable id
    is reported as a success although nothing was added, even for a
    non-empty id list; a failing add-tracks request is reported as a failure
    after the playlist was created and the request sent. *)
Theorem create_deezer_playlist_outcome dz (token : option str) (name : str)
        (track_ids : list Z) :
  List.length (snd (create_deezer_playlist dz token name track_ids)) <= 1
  /\ (forall call,
         In call (snd (create_deezer_playlist dz token name track_ids)) ->
         snd call = songs_of track_ids /\ track_ids <> []
         /\ fst call <> 0%Z
         /\ exists tok body,
              token = Some tok
              /\ post_playlist dz name tok = Response 200 (Some body)
              /\ created_id body = Some (fst call))
  /\ (forall tok body,
         token = Some tok -> truthy tok = true ->
         post_playlist dz name tok = Response 200 (Some body) ->
         created_id body = None \/ created_id body = Some 0%Z ->
         create_deezer_playlist dz token name track_ids = (true, []))
  /\ (forall tok body playlist_id,
         token = Some tok -> truthy tok = true ->
         post_playlist dz name tok = Response 200 (Some body) ->
         created_id body = Some playlist_id -> playlist_id <> 0%Z ->
         track_ids <> [] ->
         post_tracks dz playlist_id (songs_of track_ids) tok = Raised
         \/ (exists status reply,
                post_tracks dz playlist_id (songs_of track_ids) tok
                = Response status reply /\ status <> 200%Z) ->
         create_deezer_playlist dz token name track_ids
         = (false, [(playlist_id, songs_of track_ids)])).
Proof.
  split; [|split; [|split]].
  - unfold create_deezer_playlist.
    destruct token as [tok|]; [|simpl; lia].
    destruct (truthy tok); [|simpl; lia]. cbn [negb].
    destruct (post_playlist dz name tok) as [|status [body|]];
      [simpl; lia | | destruct (status =? 200)%Z; simpl; lia].
    destruct (status =? 200)%Z; [|simpl; lia].
    destruct (created_id body) as [pid|], track_ids as [|t ids];
      try (simpl; lia).
    destruct (pid =? 0)%Z; [simpl; lia|].
    destruct (post_tracks dz pid (songs_of (t :: ids)) tok); simpl; lia.
  - unfold create_deezer_playlist. intros call.
    destruct token as [tok|]; [|intros []].
    destruct (truthy tok); [|intros []]. cbn [negb].
    destruct (post_playlist dz name tok) as [|status [body|]] eqn:Epost;
      [intros [] | | destruct (status =? 200)%Z; intros []].
    destruct (status =? 200)%Z eqn:Es; [|intros []].
    apply Z.eqb_eq in Es. subst status.
    destruct (created_id body) as [pid|] eqn:Eid, track_ids as [|t ids];
      try (intros []).
    destruct (pid =? 0)%Z eqn:Ep; [intros []|]. apply Z.eqb_neq in Ep.
    assert (Hcall : In call [(pid, songs_of (t :: ids))] ->
                    snd call = songs_of (t :: ids) /\ t :: ids <> []
                    /\ fst call <> 0%Z
                    /\ exists tok0 body0,
                         Some tok = Some tok0
                         /\ post_playlist dz name tok0
                            = Response 200 (Some body0)
                         /\ created_id body0 = Some (fst call)).
    { intros [<- | []]. cbn [fst snd]. repeat split; try discriminate; auto.
      now exists tok, body. }
    destruct (post_tracks dz pid (songs_of (t :: ids)) tok); exact Hcall.
  - intros tok body -> Htok Hpost Hid.
    unfold create_deezer_playlist. rewrite Htok, Hpost.
    change (200 =? 200)%Z with true. cbn [negb].
    destruct Hid as [-> | ->]; [reflexivity|].
    destruct track_ids; reflexivity.
  - intros tok body playlist_id -> Htok Hpost Hid Hne Hids Hadd.
    unfold create_deezer_playlist. rewrite Htok, Hpost.
    change (200 =? 200)%Z with true. cbn [negb]. rewrite Hid.
    destruct track_ids as [|t ids]; [contradiction|].
    apply Z.eqb_neq in Hne. rewrite Hne.
    destruct Hadd as [-> | (status & reply & -> & Hs)]; [reflexivity|].
    apply Z.eqb_neq in Hs. now rewrite Hs.
Qed.

Lemma create_deezer_playlist_outcome_witness :
  create_deezer_playlist Sample.deezer (Some (py "tok")) (py "no id")
    [11; 22]%Z = (true, []).
Proof.
  apply (proj1 (proj2 (proj2
           (create_deezer_playlist_outcome Sample.deezer (Some (py "tok"))
              (py "no id") [11; 22]%Z)))
           (py "tok") {| created_id := None |});
    try reflexivity.
  now left.
Defined.


(** ** Listings that never end *)

Lemma dz_tracks_loop_short dz url pages url' :
  dz_pages dz url pages url' ->
  forall fuel tracks,
    fuel < List.length pages ->
    dz_tracks_loop dz fuel url tracks = None.
Proof.
  induction 1 as [url | u page pages url' Hu Hget _ IH];
    intros fuel tracks Hfuel; [simpl in Hfuel; lia|].
  destruct fuel as [|fuel]; cbn [dz_tracks_loop]; rewrite Hu;
    [reflexivity|].
  rewrite Hget. change (200 =? 200)%Z with true. cbv match.
  apply IH. simpl in Hfuel. lia.
Qed.

Lemma dz_tracks_loop_cycle dz (u : str) cycle :
  dz_pages dz (Some u) cycle (Some u) -> cycle <> [] ->
  forall fuel tracks, dz_tracks_loop dz fuel (Some u) tracks = None.
Proof.
  intros Hcycle Hne fuel.
  assert (Hpos : 0 < List.length cycle)
    by (destruct cycle; [contradiction | simpl; lia]).
  induction fuel as [fuel IH] using lt_wf_ind. intros tracks.
  destruct (le_lt_dec (List.length cycle) fuel) as [Hle | Hlt].
  - replace fuel with (List.length cycle + (fuel - List.length cycle))
      at 1 by lia.
    rewrite (dz_tracks_loop_pages Hcycle). apply IH. lia.
  - now apply (dz_tracks_loop_short Hcycle).
Qed.

Lemma sp_tracks_loop_short sp first pages last :
  sp_fetched sp first pages last ->
  forall fuel tracks,
    fuel < List.length pages ->
    sp_tracks_loop fuel sp (Some first) tracks = None.
Proof.
  induction 1 as [page | page page' pages last Hnext Hn _ IH];
    intros fuel tracks Hfuel; [simpl in Hfuel; lia|].
  destruct fuel as [|fuel]; cbn [sp_tracks_loop]; [reflexivity|].
  rewrite Hnext, Hn. apply IH. simpl in Hfuel. lia.
Qed.

Lemma sp_tracks_loop_cycle sp page cycle :
  sp_fetched sp page cycle page -> cycle <> [] ->
  forall fuel tracks, sp_tracks_loop fuel sp (Some page) tracks = None.
Proof.
  intros Hcycle Hne fuel.
  assert (Hpos : 0 < List.length cycle)
    by (destruct cycle; [contradiction | simpl; lia]).
  induction fuel as [fuel IH] using lt_wf_ind. intros tracks.
  destruct (le_lt_dec (List.length cycle) fuel) as [Hle | Hlt].
  - replace fuel with (List.length cycle + (fuel - List.length cycle))
      at 1 by lia.
    rewrite (sp_tracks_loop_fetched Hcycle). apply IH. lia.
  - now apply (sp_tracks_loop_short Hcycle).
Qed.

(** X17.  Neither listing guards against ['next'] links that come back to a
    page already fetched: when the chain of pages reaches a page from
    which following the links leads to that same page again, the listing
    never returns, however many requests it is allowed. *)
Theorem listing_never_returns_on_cycle :
  (forall dz playlist_id before u cycle fuel,
      dz_pages dz (Some (playlist_tracks_url playlist_id)) before (Some u) ->
      dz_pages dz (Some u) cycle (Some u) ->
      cycle <> [] ->
      get_deezer_playlist_tracks dz fuel playlist_id = None)
  /\ (forall sp playlist_id first before page cycle fuel,
         playlist_tracks sp playlist_id = Returns (Some first) ->
         sp_fetched sp first before page ->
         sp_fetched sp page cycle page ->
         cycle <> [] ->
         get_spotify_playlist_tracks (Some sp) fuel playlist_id = None).
Proof.
  split.
  - intros dz playlist_id before u cycle fuel Hbefore Hcycle Hne.
    unfold get_deezer_playlist_tracks.
    destruct (le_lt_dec (List.length before) fuel) as [Hle | Hlt].
    + replace fuel with (List.length before + (fuel - List.length before))
        by lia.
      rewrite (dz_tracks_loop_pages Hbefore).
      now apply (dz_tracks_loop_cycle Hcycle).
    + now apply (dz_tracks_loop_short Hbefore).
  - intros sp playlist_id first before page cycle fuel Hfirst Hbefore Hcycle
           Hne.
    unfold get_spotify_playlist_tracks. rewrite Hfirst.
    destruct (le_lt_dec (List.length before) fuel) as [Hle | Hlt].
    + replace fuel with (List.length before + (fuel - List.length before))
        by lia.
      rewrite (sp_tracks_loop_fetched Hbefore).
      now apply (sp_tracks_loop_cycle Hcycle).
    + now apply (sp_tracks_loop_short Hbefore).
Qed.

Lemma listing_never_returns_on_cycle_witness :
  get_deezer_playlist_tracks SampleUrl.deezer_looping 1000 (py "42") = None
  /\ get_spotify_playlist_tracks (Some SampleUrl.spotify_looping) 1000
       (py "any") = None.
Proof.
  split.
  - apply (proj1 listing_never_returns_on_cycle SampleUrl.deezer_looping
             (py "42") [] (playlist_tracks_url (py "42"))
             [SampleUrl.looping_page (playlist_tracks_url (py "42"))] 1000).
    + apply dz_pages_nil.
    + apply dz_pages_cons; [reflexivity | reflexivity | apply dz_pages_nil].
    + discriminate.
  - apply (proj2 listing_never_returns_on_cycle SampleUrl.spotify_looping
             (py "any") Sample.sp_page_lost [] Sample.sp_page_lost
             [Sample.sp_page_lost] 1000).
    + reflexivity.
    + apply sp_fetched_here.
    + apply sp_fetched_next with (page' := Sample.sp_page_lost);
        [reflexivity | reflexivity | apply sp_fetched_here].
    + discriminate.
Defined.

(** ** Conversions end to end *)

Lemma flat_map_nil (A B : Type) (f : A -> list B) (l : list A) :
  (forall x, f x = []) -> flat_map f l = [].
Proof.
  intros H. induction l as [|x l IH]; simpl; [reflexivity|].
  now rewrite H, IH.
Qed.

Lemma existsb_never (A : Type) (f : A -> bool) (l : list A) :
  (forall x, f x = false) -> existsb f l = false.
Proof.
  intros H. induction l as [|x l IH]; simpl; [reflexivity|].
  now rewrite H, IH.
Qed.

(** X18.  Without a Spotify client.  [convert_spotify_to_deezer] stops at once
    with no track, whatever Deezer would answer; [convert_deezer_to_spotify]
    still lists the Deezer playlist, but resolves nothing: every track is
    reported as not found, in order, and no playlist is created. *)
Theorem conversion_without_spotify_client U dz token (fuel : nat)
        (playlist_id : str) (name : option str) (now : Z) :
  convert_spotify_to_deezer U dz None token fuel playlist_id name now
  = Some NoTracks
  /\ (forall tracks,
         get_deezer_playlist_tracks dz fuel playlist_id = Some tracks ->
         tracks <> [] ->
         convert_deezer_to_spotify U dz None fuel playlist_id name now
         = Some (Converted []
                   (map (fun track => label (dt_artist track)
                                            (dt_title track)) tracks)
                   None)).
Proof.
  split; [reflexivity|].
  intros tracks Hlist Hne. unfold convert_deezer_to_spotify. rewrite Hlist.
  destruct tracks as [|track tracks]; [contradiction|].
  rewrite (@resolve_all_on_spotify_returns U None (track :: tracks) [] [])
    by (apply existsb_never; reflexivity).
  cbn [app].
  rewrite (flat_map_nil (sp_resolved U None)) by reflexivity.
  assert (E : flat_map (sp_unresolved U None) (track :: tracks)
              = map (fun track => label (dt_artist track) (dt_title track))
                    (track :: tracks)).
  { rewrite <- flat_map_singleton. apply flat_map_ext. reflexivity. }
  now rewrite E.
Qed.

Lemma conversion_without_spotify_client_witness :
  convert_deezer_to_spotify ascii_data Sample.deezer None 3 (py "42") None 0
  = Some (Converted []
            (map (fun track => label (dt_artist track) (dt_title track))
                 (flat_map dz_page_tracks
                    [Sample.dz_page1; Sample.dz_page2]))
            None).
Proof.
  apply (proj2 (conversion_without_spotify_client ascii_data Sample.deezer
                  None 3 (py "42") None 0)).
  - reflexivity.
  - discriminate.
Defined.

Lemma default_name_named (source : string) (asked : option str) (now : Z)
      (playlist_name : str) :
  PlaylistNamed source asked now playlist_name ->
  default_name source asked now = playlist_name.
Proof.
  unfold default_name.
  intros [(n & -> & Hn & ->) | ([-> | ->] & ->)]; try reflexivity.
  destruct n; [contradiction | reflexivity].
Qed.

Lemma create_spotify_playlist_all_return sp (name : str)
      (track_ids : list str) (user_id playlist_id : str) :
  current_user sp = Returns user_id ->
  user_playlist_create sp user_id name false = Returns playlist_id ->
  (forall batch, playlist_add_items sp playlist_id batch <> Raises) ->
  fst (create_spotify_playlist (Some sp) name track_ids) = true
  /\ List.concat (map snd (snd (create_spotify_playlist (Some sp) name
                                  track_ids)))
     = track_ids
  /\ Forall (fun call => fst call = playlist_id)
            (snd (create_spotify_playlist (Some sp) name track_ids)).
Proof.
  intros Huser Hcreate Hadd.
  unfold create_spotify_playlist. rewrite Huser, Hcreate.
  destruct track_ids as [|t ids]; [repeat split; constructor|].
  rewrite (@add_batches_all_return sp playlist_id _ _ Hadd).
  set (l := t :: ids). unfold range. cbn [fst snd].
  rewrite map_map. cbn [snd].
  split; [reflexivity|]. split.
  - rewrite range_from_slices by lia. reflexivity.
  - apply Forall_map, Forall_forall. intros i _. reflexivity.
Qed.

(** X19.  What reaches the destination.  A run that resolved at least one
    track calls the playlist creation with the resolved ids in source
    order, under the name asked for, or [From <platform> - <time>] when no
    name (or an empty one) was given; for Deezer-to-Spotify this supposes
    that no found track lacks artists, so that the loop goes through.  When
    that creation succeeds, the Deezer destination receives one add-tracks
    request whose [songs] field lists exactly the resolved ids, and the
    Spotify destination batches that, put end to end, are exactly the
    resolved ids. *)
Theorem conversion_sends_resolved_ids U dz (fuel : nat) (playlist_id : str)
        (name : option str) (now : Z) :
  (forall spotify token tracks playlist_name,
      get_spotify_playlist_tracks spotify fuel playlist_id = Some tracks ->
      flat_map (dz_resolved U dz) tracks <> [] ->
      PlaylistNamed "Spotify" name now playlist_name ->
      convert_spotify_to_deezer U dz spotify token fuel playlist_id name now
      = Some (Converted (flat_map (dz_resolved U dz) tracks)
                (flat_map (dz_unresolved U dz) tracks)
                (Some (create_deezer_playlist dz token playlist_name
                         (flat_map (dz_resolved U dz) tracks))))
      /\ (forall tok created_id,
             token = Some tok -> truthy tok = true ->
             post_playlist dz playlist_name tok
             = Response 200 (Some {| created_id := Some created_id |}) ->
             created_id <> 0%Z ->
             snd (create_deezer_playlist dz token playlist_name
                    (flat_map (dz_resolved U dz) tracks))
             = [(created_id,
                 songs_of (flat_map (dz_resolved U dz) tracks))]))
  /\ (forall sp tracks playlist_name,
         get_deezer_playlist_tracks dz fuel playlist_id = Some tracks ->
         existsb (finds_artistless U (Some sp)) tracks = false ->
         flat_map (sp_resolved U (Some sp)) tracks <> [] ->
         PlaylistNamed "Deezer" name now playlist_name ->
         convert_deezer_to_spotify U dz (Some sp) fuel playlist_id name now
         = Some (Converted (flat_map (sp_resolved U (Some sp)) tracks)
                   (flat_map (sp_unresolved U (Some sp)) tracks)
                   (Some (create_spotify_playlist (Some sp) playlist_name
                            (flat_map (sp_resolved U (Some sp)) tracks))))
         /\ (forall user_id created_id,
                current_user sp = Returns user_id ->
                user_playlist_create sp user_id playlist_name false
                = Returns created_id ->
                (forall batch,
                    playlist_add_items sp created_id batch <> Raises) ->
                fst (create_spotify_playlist (Some sp) playlist_name
                       (flat_map (sp_resolved U (Some sp)) tracks)) = true
                /\ List.concat
                     (map snd
                        (snd (create_spotify_playlist (Some sp) playlist_name
                                (flat_map (sp_resolved U (Some sp)) tracks))))
                   = flat_map (sp_resolved U (Some sp)) tracks
                /\ Forall (fun call => fst call = created_id)
                          (snd (create_spotify_playlist (Some sp)
                                  playlist_name
                                  (flat_map (sp_resolved U (Some sp))
                                            tracks))))).
Proof.
  split.
  - intros spotify token tracks playlist_name Hlist Hfound Hname.
    split.
    + unfold convert_spotify_to_deezer. rewrite Hlist.
      destruct tracks as [|track tracks]; [now destruct Hfound|].
      rewrite resolve_on_deezer_fold. cbn [app].
      rewrite (default_name_named Hname).
      destruct (flat_map (dz_resolved U dz) (track :: tracks));
        [contradiction | reflexivity].
    + intros tok created_id -> Htok Hpost Hid.
      rewrite (@create_deezer_playlist_calls dz tok playlist_name _
                 created_id Htok Hpost Hid).
      destruct (flat_map (dz_resolved U dz) tracks);
        [contradiction | reflexivity].
  - intros sp tracks playlist_name Hlist Hartists Hfound Hname.
    split.
    + unfold convert_deezer_to_spotify. rewrite Hlist.
      destruct tracks as [|track tracks]; [now destruct Hfound|].
      rewrite (@resolve_all_on_spotify_returns U (Some sp) (track :: tracks)
                 [] [] Hartists).
      cbn [app]. rewrite (default_name_named Hname).
      destruct (flat_map (sp_resolved U (Some sp)) (track :: tracks));
        [contradiction | reflexivity].
    + intros user_id created_id Huser Hcreate Hadd.
      now apply create_spotify_playlist_all_return with (user_id := user_id).
Qed.

Lemma conversion_sends_resolved_ids_witness :
  (convert_spotify_to_deezer ascii_data Sample.deezer (Some Sample.spotify)
     (Some (py "tok")) 2 (py "any") None 1700000000
   = Some (Converted [11%Z] [py "John Lennon - Imagine"]
             (Some (create_deezer_playlist Sample.deezer (Some (py "tok"))
                      (py "From Spotify - 1700000000") [11%Z])))
   /\ snd (create_deezer_playlist Sample.deezer (Some (py "tok"))
             (py "From Spotify - 1700000000") [11%Z])
      = [(7%Z, py "11")])
  /\ (convert_deezer_to_spotify ascii_data Sample.deezer
        (Some Sample.spotify) 3 (py "42") (Some (py "Mix")) 1700000000
      = Some (Converted [py "s4"; py "s4"] [py "John Lennon - Imagine"]
                (Some (create_spotify_playlist (Some Sample.spotify)
                         (py "Mix") [py "s4"; py "s4"])))
      /\ fst (create_spotify_playlist (Some Sample.spotify) (py "Mix")
                [py "s4"; py "s4"]) = true
      /\ List.concat
           (map snd
              (snd (create_spotify_playlist (Some Sample.spotify) (py "Mix")
                      [py "s4"; py "s4"])))
         = [py "s4"; py "s4"]
      /\ Forall (fun call => fst call = py "new")
                (snd (create_spotify_playlist (Some Sample.spotify)
                        (py "Mix") [py "s4"; py "s4"]))).
Proof.
  split.
  - destruct (proj1 (conversion_sends_resolved_ids ascii_data Sample.deezer 2
                       (py "any") None 1700000000)
                (Some Sample.spotify) (Some (py "tok"))
                (flat_map sp_page_tracks [Sample.sp_page1; Sample.sp_page2])
                (py "From Spotify - 1700000000"))
      as [Hrun Hcalls].
    + reflexivity.
    + discriminate.
    + right. split; [now left | reflexivity].
    + split; [exact Hrun|].
      apply (Hcalls (py "tok") 7%Z); try reflexivity. discriminate.
  - destruct (proj2 (conversion_sends_resolved_ids ascii_data Sample.deezer 3
                       (py "42") (Some (py "Mix")) 1700000000)
                Sample.spotify
                (flat_map dz_page_tracks [Sample.dz_page1; Sample.dz_page2])
                (py "Mix"))
      as [Hrun Hcalls].
    + reflexivity.
    + reflexivity.
    + discriminate.
    + left. exists (py "Mix"). repeat split. discriminate.
    + split; [exact Hrun|].
      apply (Hcalls (py "nino") (py "new")); try reflexivity.
      intros batch. discriminate.
Defined.

(** ** The token exchange and its side effect *)

(** X20.  [exchange_code_for_token] stores the token before testing it.
    Once the
    token end point has answered 200 with an [access_token] field, the
    object holds the first value of that field whatever the connection
    test says: when [/user/me] is not answered 200 with a decodable body,
    the exchange fails and the token stays in the object. *)
Theorem exchange_stores_token_before_test dz (self : DeezerOAuth)
        (code tok : str) (body : qs) (more : list str) :
  authorization_code self = Some code ->
  truthy code = true ->
  get_token dz (app_id self) (app_secret self) code = Response 200 body ->
  qs_get (py "access_token") body = Some (tok, more) ->
  access_token (snd (exchange_code_for_token dz self)) = Some tok
  /\ fst (exchange_code_for_token dz self)
     = test_connection dz (set_access_token self tok)
  /\ ((forall user, get_user_me dz tok <> Response 200 (Some user)) ->
      exchange_code_for_token dz self = (false, set_access_token self tok)).
Proof.
  intros Hcode Htruthy Hget Hqs.
  assert (E : exchange_code_for_token dz self
              = (test_connection dz (set_access_token self tok),
                 set_access_token self tok)).
  { unfold exchange_code_for_token. rewrite Hcode. cbn [truthy_opt].
    rewrite Htruthy. cbn [negb]. rewrite Hget.
    change (200 =? 200)%Z with true. cbv match. now rewrite Hqs. }
  rewrite E. cbn [fst snd]. split; [reflexivity|]. split; [reflexivity|].
  intros Hme. f_equal.
  destruct (test_connection dz (set_access_token self tok)) eqn:Et;
    [|reflexivity].
  apply test_connection_true in Et as (tok' & user & Ha & _ & Hu).
  simpl in Ha. injection Ha as <-. now destruct (Hme user).
Qed.

Lemma exchange_stores_token_before_test_witness :
  exchange_code_for_token Sample.deezer (Sample.oauth "stale")
  = (false, set_access_token (Sample.oauth "stale") (py "old")).
Proof.
  apply (proj2 (proj2 (@exchange_stores_token_before_test Sample.deezer
                         (Sample.oauth "stale") (py "stale") (py "old")
                         (Sample.token_body "old") []
                         eq_refl eq_refl eq_refl eq_refl))).
  intros user. discriminate.
Defined.

(** ** The search query *)

Lemma lstrip_head U (s : str) :
  forall c rest, lstrip U s = c :: rest -> isspace U c = false.
Proof.
  induction s as [|x s IH]; simpl; [discriminate|].
  destruct (isspace U x) eqn:E; [exact IH|].
  now intros c rest [= <- _].
Qed.

Lemma lstrip_all U (P : char -> bool) (s : str) :
  forallb P s = true -> forallb P (lstrip U s) = true.
Proof.
  induction s as [|x s IH]; simpl; [reflexivity|].
  intros H. apply andb_true_iff in H as [Hx Hs].
  destruct (isspace U x); [now apply IH | simpl; now rewrite Hx, Hs].
Qed.

Lemma lstrip_keeps_last U (s : str) (c : char) :
  isspace U c = false -> exists front, lstrip U (s ++ [c]) = front ++ [c].
Proof.
  intros Hc. induction s as [|x s IH]; simpl.
  - rewrite Hc. now exists [].
  - destruct (isspace U x); [exact IH | now exists (x :: s)].
Qed.

Lemma forallb_rev (P : char -> bool) (s : str) :
  forallb P s = true -> forallb P (rev s) = true.
Proof.
  rewrite !forallb_forall. intros H x Hx. apply H. now apply in_rev.
Qed.

Lemma rstrip_all U (P : char -> bool) (s : str) :
  forallb P s = true -> forallb P (rstrip U s) = true.
Proof.
  intros H. unfold rstrip. now apply forallb_rev, lstrip_all, forallb_rev.
Qed.

Lemma rstrip_last U (s front : str) (c : char) :
  rstrip U s = front ++ [c] -> isspace U c = false.
Proof.
  unfold rstrip. intros H.
  apply (f_equal (@rev char)) in H.
  rewrite rev_involutive, rev_app_distr in H. simpl in H.
  now apply (@lstrip_head U _ _ _ H).
Qed.

Lemma rstrip_keeps_head U (c : char) (s : str) :
  isspace U c = false -> exists rest, rstrip U (c :: s) = c :: rest.
Proof.
  intros Hc. unfold rstrip. simpl rev.
  destruct (@lstrip_keeps_last U (rev s) c Hc) as (front & ->).
  rewrite rev_app_distr. simpl. now exists (rev front).
Qed.

(** X21.  The query sent to the Deezer search holds no punctuation and no
    surrounding blank: every character of it is a word character or a
    whitespace character, and its first and last characters, when there
    are any, are not whitespace.  (The blank that separates artist and
    title is assumed to be a whitespace character.) *)
Theorem deezer_query_shape U (title artist : str) :
  isspace U 32%N = true ->
  forallb (kept U) (deezer_query U title artist) = true
  /\ (forall c rest,
         deezer_query U title artist = c :: rest -> isspace U c = false)
  /\ (forall front c,
         deezer_query U title artist = front ++ [c] -> isspace U c = false).
Proof.
  intros Hblank. unfold deezer_query, strip. split; [|split].
  - apply rstrip_all, lstrip_all.
    rewrite !forallb_app, !clean_all_kept. simpl.
    unfold kept. now rewrite Hblank, orb_true_r.
  - intros c rest H.
    destruct (lstrip U (clean U artist ++ py " " ++ clean U title))
      as [|x s] eqn:E; [discriminate|].
    pose proof (@lstrip_head U _ _ _ E) as Hx.
    destruct (@rstrip_keeps_head U x s Hx) as (rest' & Hr).
    rewrite Hr in H. now injection H as <- _.
  - intros front c H. now apply (@rstrip_last U _ _ _ H).
Qed.

Lemma deezer_query_shape_witness :
  forallb (kept ascii_data)
          (deezer_query ascii_data (py " (Don't) Stop! ") (py "  AC/DC "))
  = true
  /\ deezer_query ascii_data (py " (Don't) Stop! ") (py "  AC/DC ")
     = py "ACDC   Dont Stop".
Proof.
  split; [|reflexivity].
  apply (proj1 (@deezer_query_shape ascii_data (py " (Don't) Stop! ")
                  (py "  AC/DC ") eq_refl)).
Defined.

(** ** Conversions that stop before searching *)

(** X22.  A source playlist that cannot be read stops the conversion before any
    search or creation.  When the first Deezer request yields no page (the
    playlist is private, missing, or the request fails), or when the
    Spotify client raises or returns nothing for the playlist, the run ends
    with no track found in the source, and a conversion by URL reports the
    platform it detected with that same outcome. *)
Theorem conversion_stops_on_unreadable_source U dz spotify token
        (playlist_id : str) (name : option str) (now : Z) :
  (forall fuel,
      (forall page,
          get_tracks dz (playlist_tracks_url playlist_id)
          <> Response 200 (Some page)) ->
      0 < fuel ->
      convert_deezer_to_spotify U dz spotify fuel playlist_id name now
      = Some NoTracks)
  /\ (forall sp fuel,
         spotify = Some sp ->
         playlist_tracks sp playlist_id = Raises
         \/ playlist_tracks sp playlist_id = Returns None ->
         convert_spotify_to_deezer U dz spotify token fuel playlist_id name
           now
         = Some NoTracks)
  /\ (forall urlparse head fuel url,
         str_in (py "spotify.com") url = false ->
         startswith (py "spotify:") url = false ->
         str_in (py "deezer.com") url = true ->
         parse_deezer_playlist_url urlparse head fuel url
         = Some (Some playlist_id) ->
         playlist_id <> [] ->
         (forall page,
             get_tracks dz (playlist_tracks_url playlist_id)
             <> Response 200 (Some page)) ->
         0 < fuel ->
         convert_playlist_by_url U urlparse head dz spotify token fuel url
           name now
         = Some (DeezerDetected playlist_id NoTracks)).
Proof.
  assert (Hdz : forall fuel,
             (forall page,
                 get_tracks dz (playlist_tracks_url playlist_id)
                 <> Response 200 (Some page)) ->
             0 < fuel ->
             convert_deezer_to_spotify U dz spotify fuel playlist_id name now
             = Some NoTracks).
  { intros fuel Hnone Hfuel. unfold convert_deezer_to_spotify.
    now rewrite (@get_deezer_playlist_tracks_pages dz playlist_id [] fuel
                   Hnone Hfuel). }
  split; [exact Hdz|]. split.
  - intros sp fuel -> Hlist.
    unfold convert_spotify_to_deezer, get_spotify_playlist_tracks.
    destruct Hlist as [-> | ->]; [reflexivity | now destruct fuel].
  - intros urlparse head fuel url Hs Hu Hd Hparse Hne Hnone Hfuel.
    unfold convert_playlist_by_url. rewrite Hs, Hu, Hd, Hparse.
    cbn [orb]. destruct playlist_id as [|c rest]; [contradiction|].
    cbn [truthy]. now rewrite (Hdz fuel Hnone Hfuel).
Qed.

Lemma conversion_stops_on_unreadable_source_witness :
  convert_deezer_to_spotify ascii_data Sample.deezer (Some Sample.spotify)
    1 (py "private") None 0
  = Some NoTracks.
Proof.
  apply (proj1 (conversion_stops_on_unreadable_source ascii_data
                  Sample.deezer (Some Sample.spotify) (Some (py "tok"))
                  (py "private") None 0)).
  - intros page. discriminate.
  - lia.
Defined.
